(** * WRF namelist.wps configuration tool: domain lists, nesting geometry, codec

    A shallow embedding of the core of
    [WRF_Namelist.wps_Interactive_Configuration_Tool.py]:

    - [adjust_params_for_max_dom]  (the per-domain list synchroniser),
    - [suggest_nest_location] and the fit check / repair of
      [configure_geogrid]        (the nesting geometry),
    - [read_existing_namelist] and [write_namelist_wps] (the codec).

    Python integers are [Z].  Python strings are [string]; a character is a
    code point below 256.  A dict is an association list in insertion order
    with distinct keys.  Exceptions are explicit results.  Floating-point
    numbers and the printf-style [%] on strings are builtins of the
    interpreter, not code of the program: they are taken through the
    interface [Builtins].  The one float computed from integers alone, the
    quotient under [math.ceil], is modelled on [Z] with its rounding.  The
    file system answers the writer through a record of its own. *)

From Stdlib Require Import ZArith List String Ascii Bool Lia.
From Stdlib Require Import Decimal DecimalString DecimalZ.
Import ListNotations.

Open Scope string_scope.
Open Scope Z_scope.

(** ** Exceptions and results *)

Inductive exn : Set :=
| KeyError | IndexError | TypeError | AttributeError
| ZeroDivisionError | OverflowError | ValueError.

Inductive result (A : Type) : Type :=
| Ok (a : A)
| Raise (e : exn).

Arguments Ok {A} a.
Arguments Raise {A} e.

Definition bind {A B : Type} (m : result A) (k : A -> result B) : result B :=
  match m with
  | Ok a => k a
  | Raise e => Raise e
  end.

Notation "x <- m ;; k" := (bind m (fun x => k))
  (at level 61, m at next level, right associativity).

(** ** Interpreter builtins

    [float] stands for the binary64 values of the interpreter.  The
    operations are the ones the program reaches: [str(x)], [float(s)],
    int-to-float promotion, [+ - // %] and the comparisons.  The laws are
    the facts about [repr]/[float] that the codec relies on: the text of a
    float reads back as that float (a NaN counting as one value), it is
    made of digits, a point, a sign, an exponent mark or the letters of
    inf and nan, and without a point it is not an integer literal. *)

Definition int_str (n : Z) : string := NilZero.string_of_int (Z.to_int n).

Definition is_space (c : ascii) : bool :=
  let n := nat_of_ascii c in
  ((9 <=? n) && (n <=? 13) || (28 <=? n) && (n <=? 32)
   || (n =? 133) || (n =? 160))%nat.

Definition is_digit (c : ascii) : bool :=
  let n := nat_of_ascii c in ((48 <=? n) && (n <=? 57))%nat.

Fixpoint str_forall (p : ascii -> bool) (s : string) : bool :=
  match s with
  | EmptyString => true
  | String c s' => p c && str_forall p s'
  end.

Fixpoint str_mem (c : ascii) (s : string) : bool :=
  match s with
  | EmptyString => false
  | String a s' => Ascii.eqb a c || str_mem c s'
  end.

(** [str.lstrip()], [str.rstrip()] and [str.strip()] without argument. *)
Fixpoint lstrip (s : string) : string :=
  match s with
  | EmptyString => EmptyString
  | String c s' => if is_space c then lstrip s' else s
  end.

Fixpoint rstrip (s : string) : string :=
  match s with
  | EmptyString => EmptyString
  | String c s' =>
      match rstrip s' with
      | EmptyString => if is_space c then EmptyString else String c EmptyString
      | r => String c r
      end
  end.

Definition strip (s : string) : string := lstrip (rstrip s).

(** The white space that [int] skips around a number.  Of the ASCII
    characters these are the six of C's [isspace] only: the separators
    28 to 31, which [str.strip] removes, make [int] raise ValueError.
    Beyond ASCII they are the characters of [str.isspace]. *)
Definition is_int_space (c : ascii) : bool :=
  let n := nat_of_ascii c in
  ((9 <=? n) && (n <=? 13) || (n =? 32) || (n =? 133) || (n =? 160))%nat.

Fixpoint lstrip_by (p : ascii -> bool) (s : string) : string :=
  match s with
  | EmptyString => EmptyString
  | String c s' => if p c then lstrip_by p s' else s
  end.

Fixpoint rstrip_by (p : ascii -> bool) (s : string) : string :=
  match s with
  | EmptyString => EmptyString
  | String c s' =>
      match rstrip_by p s' with
      | EmptyString => if p c then EmptyString else String c EmptyString
      | r => String c r
      end
  end.

Definition strip_by (p : ascii -> bool) (s : string) : string :=
  lstrip_by p (rstrip_by p s).

(** [int(s)] on a string: surrounding white space, an optional sign, then
    decimal digits, where single underscores may separate digits.  [None]
    is ValueError.  Integers are unbounded; the interpreter's limit on the
    number of digits of a decimal conversion, which can be switched off,
    is not modelled. *)
Fixpoint digits_ok (prev_digit : bool) (s : string) : bool :=
  match s with
  | EmptyString => prev_digit
  | String c s' =>
      if is_digit c then digits_ok true s'
      else if Ascii.eqb c "_" then prev_digit && digits_ok false s'
      else false
  end.

Fixpoint drop_underscores (s : string) : string :=
  match s with
  | EmptyString => EmptyString
  | String c s' =>
      if Ascii.eqb c "_" then drop_underscores s'
      else String c (drop_underscores s')
  end.

Definition nat_of_digits (s : string) : option Z :=
  if digits_ok false s then
    option_map Z.of_uint (NilEmpty.uint_of_string (drop_underscores s))
  else None.

Definition py_int (s : string) : option Z :=
  match strip_by is_int_space s with
  | EmptyString => None
  | String c s' =>
      if Ascii.eqb c "-" then option_map Z.opp (nat_of_digits s')
      else if Ascii.eqb c "+" then nat_of_digits s'
      else nat_of_digits (String c s')
  end.

Definition float_chars : string := "0123456789.e+-infa".

Class Builtins : Type := {
  float : Type;
  (** [float(n)] for an int [n]; meaningful when [float_fits n], else the
      interpreter raises OverflowError. *)
  float_of_Z : Z -> float;
  float_fits : Z -> bool;
  (** [str(x)] *)
  float_str : float -> string;
  (** [float(s)]; [None] is ValueError *)
  float_parse : string -> option float;
  fadd : float -> float -> float;
  fsub : float -> float -> float;
  (** [x // y] and [x % y]; [None] is ZeroDivisionError *)
  ffloordiv : float -> float -> option float;
  fmod : float -> float -> option float;
  (** comparisons; [None] is unordered *)
  fcompare : float -> float -> option comparison;
  fcompare_Z : float -> Z -> option comparison;
  (** [s % n] for a string [s]: printf-style formatting *)
  str_percent : string -> Z -> result string;
  (** laws *)
  float_parse_str : forall x, float_parse (float_str x) = Some x;
  float_str_chars : forall x,
      float_str x <> "" /\
      str_forall (fun c => str_mem c float_chars) (float_str x) = true;
  float_str_nodot : forall x,
      str_mem "." (float_str x) = false -> py_int (float_str x) = None;
  float_str_of_Z : forall n,
      Z.abs n <= 2 ^ 53 -> float_str (float_of_Z n) = int_str n ++ ".0"
}.

Section Program.

Context {B : Builtins}.

(** ** Values of the parameter store

    A parameter is a scalar (int, float or str) or a list of scalars: the
    values that the defaults, the reader and the session put in a store. *)

Inductive scalar : Type :=
| SInt (n : Z)
| SFloat (x : float)
| SStr (s : string).

Inductive value : Type :=
| VScalar (a : scalar)
| VList (l : list scalar).

Definition dict : Type := list (string * value).

Fixpoint dict_get (k : string) (d : dict) : option value :=
  match d with
  | [] => None
  | (k', v) :: d' => if String.eqb k' k then Some v else dict_get k d'
  end.

(** [d[k] = v]: an existing key keeps its position, a new key goes last. *)
Fixpoint dict_set (k : string) (v : value) (d : dict) : dict :=
  match d with
  | [] => [(k, v)]
  | (k', v') :: d' =>
      if String.eqb k' k then (k', v) :: d' else (k', v') :: dict_set k v d'
  end.

Definition keys (d : dict) : list string := map fst d.

(** [d[k]] as an expression *)
Definition getitem (k : string) (d : dict) : result value :=
  match dict_get k d with
  | Some v => Ok v
  | None => Raise KeyError
  end.

(** ** The interpreter's operations on these values *)

Definition py_len (v : value) : result Z :=
  match v with
  | VList l => Ok (Z.of_nat (List.length l))
  | VScalar (SStr s) => Ok (Z.of_nat (String.length s))
  | VScalar _ => Raise TypeError
  end.

(** position denoted by index [i] in a sequence of length [len] *)
Definition norm_index (len i : Z) : result nat :=
  let j := if i <? 0 then i + len else i in
  if (j <? 0) || (len <=? j) then Raise IndexError else Ok (Z.to_nat j).

(** [v[i]] *)
Definition py_index (v : value) (i : scalar) : result scalar :=
  match v, i with
  | VList l, SInt i =>
      j <- norm_index (Z.of_nat (List.length l)) i ;;
      match nth_error l j with
      | Some a => Ok a
      | None => Raise IndexError
      end
  | VScalar (SStr s), SInt i =>
      j <- norm_index (Z.of_nat (String.length s)) i ;;
      match String.get j s with
      | Some c => Ok (SStr (String c EmptyString))
      | None => Raise IndexError
      end
  | _, _ => Raise TypeError
  end.

(** [v.append(x)] *)
Definition py_append (v : value) (x : scalar) : result value :=
  match v with
  | VList l => Ok (VList (l ++ [x]))
  | VScalar _ => Raise AttributeError
  end.

(** number of items kept by the slice [[:m]] of a sequence of length [len] *)
Definition slice_stop (len m : Z) : nat :=
  Z.to_nat (if m <? 0 then Z.max 0 (len + m) else Z.min m len).

(** [v[:m]] *)
Definition py_slice_to (v : value) (m : Z) : result value :=
  match v with
  | VList l => Ok (VList (firstn (slice_stop (Z.of_nat (List.length l)) m) l))
  | VScalar (SStr s) =>
      Ok (VScalar (SStr (substring 0 (slice_stop (Z.of_nat (String.length s)) m) s)))
  | VScalar _ => Raise TypeError
  end.

Definition to_float (n : Z) : result float :=
  if float_fits n then Ok (float_of_Z n) else Raise OverflowError.

Definition of_option {A : Type} (e : exn) (o : option A) : result A :=
  match o with
  | Some a => Ok a
  | None => Raise e
  end.

Definition py_sub (a b : scalar) : result scalar :=
  match a, b with
  | SInt m, SInt n => Ok (SInt (m - n))
  | SInt m, SFloat y => x <- to_float m ;; Ok (SFloat (fsub x y))
  | SFloat x, SInt n => y <- to_float n ;; Ok (SFloat (fsub x y))
  | SFloat x, SFloat y => Ok (SFloat (fsub x y))
  | _, _ => Raise TypeError
  end.

Definition py_add (a b : scalar) : result scalar :=
  match a, b with
  | SInt m, SInt n => Ok (SInt (m + n))
  | SInt m, SFloat y => x <- to_float m ;; Ok (SFloat (fadd x y))
  | SFloat x, SInt n => y <- to_float n ;; Ok (SFloat (fadd x y))
  | SFloat x, SFloat y => Ok (SFloat (fadd x y))
  | SStr s, SStr t => Ok (SStr (s ++ t))
  | _, _ => Raise TypeError
  end.

Definition py_floordiv (a b : scalar) : result scalar :=
  match a, b with
  | SInt m, SInt n =>
      if n =? 0 then Raise ZeroDivisionError else Ok (SInt (m / n))
  | SInt m, SFloat y =>
      x <- to_float m ;;
      r <- of_option ZeroDivisionError (ffloordiv x y) ;; Ok (SFloat r)
  | SFloat x, SInt n =>
      y <- to_float n ;;
      r <- of_option ZeroDivisionError (ffloordiv x y) ;; Ok (SFloat r)
  | SFloat x, SFloat y =>
      r <- of_option ZeroDivisionError (ffloordiv x y) ;; Ok (SFloat r)
  | _, _ => Raise TypeError
  end.

(** [a % n] for an int [n] *)
Definition py_mod (a : scalar) (n : Z) : result scalar :=
  match a with
  | SInt m => if n =? 0 then Raise ZeroDivisionError else Ok (SInt (m mod n))
  | SFloat x =>
      y <- to_float n ;;
      r <- of_option ZeroDivisionError (fmod x y) ;; Ok (SFloat r)
  | SStr s => r <- str_percent s n ;; Ok (SStr r)
  end.

(** [a == n] for an int [n] *)
Definition py_eq_int (a : scalar) (n : Z) : bool :=
  match a with
  | SInt m => m =? n
  | SFloat x => match fcompare_Z x n with Some Eq => true | _ => false end
  | SStr _ => false
  end.

(** [a > b] *)
Definition py_gt (a b : scalar) : result bool :=
  match a, b with
  | SInt m, SInt n => Ok (n <? m)
  | SFloat x, SInt n =>
      Ok (match fcompare_Z x n with Some Gt => true | _ => false end)
  | SInt m, SFloat y =>
      Ok (match fcompare_Z y m with Some Lt => true | _ => false end)
  | SFloat x, SFloat y =>
      Ok (match fcompare x y with Some Gt => true | _ => false end)
  | SStr s, SStr t =>
      Ok (match String.compare s t with Gt => true | _ => false end)
  | _, _ => Raise TypeError
  end.

(** [max(a, b)]: the first argument unless the second is greater *)
Definition py_max (a b : scalar) : result scalar :=
  g <- py_gt b a ;; Ok (if g then b else a).

(** ** Defaults (lines 69-99) *)

Definition default_geogrid_params : dict :=
  [ ("parent_id", VList [SInt 1]);
    ("parent_grid_ratio", VList [SInt 1]);
    ("i_parent_start", VList [SInt 1]);
    ("j_parent_start", VList [SInt 1]);
    ("e_we", VList [SInt 100]);
    ("e_sn", VList [SInt 100]);
    ("geog_data_res", VList [SStr "default"]);
    ("dx", VScalar (SInt 30000));
    ("dy", VScalar (SInt 30000));
    ("map_proj", VScalar (SStr "lambert"));
    ("ref_lat", VScalar (SFloat (float_of_Z 34)));
    ("ref_lon", VScalar (SFloat (float_of_Z (-81))));
    ("truelat1", VScalar (SFloat (float_of_Z 30)));
    ("truelat2", VScalar (SFloat (float_of_Z 60)));
    ("stand_lon", VScalar (SFloat (float_of_Z (-81))));
    ("geog_data_path", VScalar (SStr "/path/to/geog")) ].

Definition default_ungrib_params : dict :=
  [ ("out_format", VScalar (SStr "WPS")); ("prefix", VScalar (SStr "FILE")) ].

Definition default_metgrid_params : dict :=
  [ ("fg_name", VList [SStr "FILE"]); ("io_form_metgrid", VScalar (SInt 2)) ].

(** [default_share_params] reads the clock; the two dates are parameters. *)
Definition default_share_params (now tomorrow : string) : dict :=
  [ ("wrf_core", VScalar (SStr "ARW"));
    ("max_dom", VScalar (SInt 1));
    ("start_date", VList [SStr now]);
    ("end_date", VList [SStr tomorrow]);
    ("interval_seconds", VScalar (SInt 21600));
    ("io_form_geogrid", VScalar (SInt 2));
    ("debug_level", VScalar (SInt 0)) ].

(** ** adjust_params_for_max_dom (lines 101-158) *)

Definition list_params : list string :=
  [ "parent_id"; "parent_grid_ratio"; "i_parent_start"; "j_parent_start";
    "e_we"; "e_sn"; "geog_data_res" ].

(** [params[key].append(x)]: the list object stored under [key] grows in
    place. *)
Definition append_to (key : string) (x : scalar) (params : dict) : result dict :=
  cur <- getitem key params ;;
  new <- py_append cur x ;;
  Ok (dict_set key new params).

(** lines 127-129 and 132-134, with [dim] the sibling list
    ("e_we" or "e_sn"): [parent_idx], then [center] and [child_size] *)
Definition centre_and_size (key dim : string) (params : dict)
  : result (scalar * scalar) :=
  cur <- getitem key params ;;
  n <- py_len cur ;;
  pid <- getitem "parent_id" params ;;
  p <- py_index pid (SInt n) ;;
  parent_idx <- py_sub p (SInt 1) ;;
  sib <- getitem dim params ;;
  pdim <- py_index sib parent_idx ;;
  center <- py_floordiv pdim (SInt 2) ;;
  sib' <- getitem dim params ;;
  cdim <- py_index sib' (SInt (n - 1)) ;;
  pgr <- getitem "parent_grid_ratio" params ;;
  ratio <- py_index pgr (SInt (n - 1)) ;;
  child_size <- py_floordiv cdim ratio ;;
  Ok (center, child_size).

(** lines 130 and 135:
    [params[key].append(max(1, center - child_size // 2))]; the method is
    looked up before the argument is evaluated. *)
Definition append_centred (key : string) (center child_size : scalar)
    (params : dict) : result dict :=
  cur <- getitem key params ;;
  _ <- py_append cur (SInt 1) ;;
  half <- py_floordiv child_size (SInt 2) ;;
  d <- py_sub center half ;;
  x <- py_max (SInt 1) d ;;
  append_to key x params.

(** [key == k and len(params[key]) > 0 and len(params[dim]) > len(params[key])] *)
Definition start_guard (key k dim : string) (n : Z) (params : dict) : result bool :=
  if String.eqb key k && (0 <? n) then
    sib <- getitem dim params ;;
    m <- py_len sib ;;
    Ok (n <? m)
  else Ok false.

(** One pass through the body of the [while] loop for [key]. *)
Definition grow_step (key : string) (params : dict) : result dict :=
  cur <- getitem key params ;;
  n <- py_len cur ;;
  if String.eqb key "parent_id" && (0 <? n) then
    append_to key (SInt n) params
  else if String.eqb key "parent_grid_ratio" && (0 <? n) then
    if n =? 1 then append_to key (SInt 3) params
    else last <- py_index cur (SInt (-1)) ;; append_to key last params
  else if String.eqb key "i_parent_start" || String.eqb key "j_parent_start" then
    gi <- start_guard key "i_parent_start" "e_we" n params ;;
    if gi then
      cs <- centre_and_size key "e_we" params ;;
      append_centred key (fst cs) (snd cs) params
    else
      gj <- start_guard key "j_parent_start" "e_sn" n params ;;
      if gj then
        cs <- centre_and_size key "e_sn" params ;;
        append_centred key (fst cs) (snd cs) params
      else append_to key (SInt 1) params
  else if String.eqb key "e_we" || String.eqb key "e_sn" then
    if 0 <? n then
      last_val <- py_index cur (SInt (-1)) ;;
      r <- py_mod last_val 2 ;;
      if py_eq_int r 0 then
        bumped <- py_add last_val (SInt 1) ;; append_to key bumped params
      else append_to key last_val params
    else append_to key (SInt 100) params
  else if String.eqb key "geog_data_res" then
    if 0 <? n then
      last <- py_index cur (SInt (-1)) ;; append_to key last params
    else append_to key (SStr "default") params
  else Ok params.

(** How a run ends.  [Diverged] is a loop that was still running when the
    fuel ran out. *)
Inductive status : Set :=
| Returned
| Raised (e : exn)
| Diverged.

(** [while len(params[key]) < max_dom: ...] *)
Fixpoint grow (fuel : nat) (key : string) (max_dom : Z) (params : dict)
  : status * dict :=
  match (cur <- getitem key params ;; py_len cur) with
  | Raise e => (Raised e, params)
  | Ok n =>
      if n <? max_dom then
        match fuel with
        | O => (Diverged, params)
        | S fuel' =>
            match grow_step key params with
            | Raise e => (Raised e, params)
            | Ok params' => grow fuel' key max_dom params'
            end
        end
      else (Returned, params)
  end.

(** The body of [for key in list_params]: skip an absent key, grow, trim. *)
Definition sync_length (fuel : nat) (max_dom : Z) (key : string) (params : dict)
  : status * dict :=
  match dict_get key params with
  | None => (Returned, params)
  | Some _ =>
      match grow fuel key max_dom params with
      | (Returned, p) =>
          match (cur <- getitem key p ;; py_slice_to cur max_dom) with
          | Ok v => (Returned, dict_set key v p)
          | Raise e => (Raised e, p)
          end
      | other => other
      end
  end.

Fixpoint for_keys (fuel : nat) (max_dom : Z) (ks : list string) (params : dict)
  : status * dict :=
  match ks with
  | [] => (Returned, params)
  | k :: ks' =>
      match sync_length fuel max_dom k params with
      | (Returned, p) => for_keys fuel max_dom ks' p
      | other => other
      end
  end.

Definition adjust_params_for_max_dom (fuel : nat) (params : dict) (max_dom : Z)
  : status * dict :=
  for_keys fuel max_dom list_params params.

(** ** Nesting geometry *)

(** [n / d] rounded to the nearest integer, ties to the even one *)
Definition round_half_even (n d : Z) : Z :=
  let m := n / d in
  let r := n mod d in
  if (d <? 2 * r) || ((d =? 2 * r) && Z.odd m) then m + 1 else m.

(** for positive [a] and [b], the integer part of the binary logarithm of
    [a / b] *)
Definition binade (a b : Z) : Z :=
  let d := Z.log2 a - Z.log2 b in
  if b * 2 ^ Z.max 0 d <=? a * 2 ^ Z.max 0 (- d) then d else d - 1.

(** [math.ceil(a / b)] for ints.  The quotient of two ints is the
    binary64 number nearest to the exact quotient, ties to even: a
    significand [m] of at most 53 bits times [2 ^ e], with [e] no less than
    -1074 (a quotient too small becomes zero) and OverflowError from
    [2 ^ 1024] on.  The ceiling of that number is exact. *)
Definition ceil_div (a b : Z) : result Z :=
  if b =? 0 then Raise ZeroDivisionError
  else if a =? 0 then Ok 0
  else
    let e := Z.max (binade (Z.abs a) (Z.abs b) - 52) (-1074) in
    let m := round_half_even (Z.abs a * 2 ^ Z.max 0 (- e))
                             (Z.abs b * 2 ^ Z.max 0 e) in
    if 2 ^ 1024 <=? m * 2 ^ Z.max 0 e then Raise OverflowError
    else Ok (- ((- (Z.sgn a * Z.sgn b * m * 2 ^ Z.max 0 e))
                / 2 ^ Z.max 0 (- e))).

(** lines 320-326 *)
Definition suggest_nest_location (parent_dim nest_dim ratio : Z) : result Z :=
  let parent_center := parent_dim / 2 in
  nest_size_in_parent <- ceil_div nest_dim ratio ;;
  let start_pos := Z.max 1 (parent_center - nest_size_in_parent / 2) in
  Ok start_pos.

(** lines 580-584 of [configure_geogrid]: the end of the nest in parent
    coordinates and whether the warning branch is skipped. *)
Definition check_fit (parent_we parent_sn nest_we nest_sn ratio i_start j_start : Z)
  : result (Z * Z * bool) :=
  ci <- ceil_div nest_we ratio ;;
  let i_end := i_start + ci - 1 in
  cj <- ceil_div nest_sn ratio ;;
  let j_end := j_start + cj - 1 in
  Ok (i_end, j_end, negb ((parent_we <? i_end) || (parent_sn <? j_end))).

(** lines 590-597: the adjustment taken when the operator answers yes. *)
Definition repair (parent_we parent_sn nest_we nest_sn ratio i_start j_start : Z)
  : result (Z * Z) :=
  ci <- ceil_div nest_we ratio ;;
  let i_end := i_start + ci - 1 in
  cj <- ceil_div nest_sn ratio ;;
  let j_end := j_start + cj - 1 in
  new_i <- (if parent_we <? i_end then
              c <- ceil_div nest_we ratio ;; Ok (Z.max 1 (parent_we - c + 1))
            else Ok i_start) ;;
  new_j <- (if parent_sn <? j_end then
              c <- ceil_div nest_sn ratio ;; Ok (Z.max 1 (parent_sn - c + 1))
            else Ok j_start) ;;
  Ok (new_i, new_j).

(** ** The namelist codec *)

Definition nl : string := String "010"%char EmptyString.

Definition is_newline (c : ascii) : bool :=
  Ascii.eqb c "010" || Ascii.eqb c "013".

(** a string with no comma and no line break *)
Definition plain (s : string) : bool :=
  str_forall (fun c => negb (Ascii.eqb "," c) && negb (is_newline c)) s.

Definition cons_head (c : ascii) (l : list string) : list string :=
  match l with
  | h :: t => String c h :: t
  | [] => [String c EmptyString]
  end.

(** The pieces of [s] between the characters selected by [p]
    ([s.split(",")]; the lines of a file read with universal newlines,
    where the empty piece between a carriage return and a line feed is one
    more blank line). *)
Fixpoint split_where (p : ascii -> bool) (s : string) : list string :=
  match s with
  | EmptyString => [EmptyString]
  | String c s' =>
      if p c then EmptyString :: split_where p s'
      else cons_head c (split_where p s')
  end.

(** [s.split(c, 1)] when it has two parts *)
Fixpoint split_once (c : ascii) (s : string) : option (string * string) :=
  match s with
  | EmptyString => None
  | String a s' =>
      if Ascii.eqb a c then Some (EmptyString, s')
      else match split_once c s' with
           | Some (h, t) => Some (String a h, t)
           | None => None
           end
  end.

Definition startswith (c : ascii) (s : string) : bool :=
  match s with
  | String a _ => Ascii.eqb a c
  | EmptyString => false
  end.

Fixpoint endswith (c : ascii) (s : string) : bool :=
  match s with
  | EmptyString => false
  | String a EmptyString => Ascii.eqb a c
  | String _ s' => endswith c s'
  end.

(** [s[:-1]] *)
Fixpoint drop_last (s : string) : string :=
  match s with
  | EmptyString => EmptyString
  | String _ EmptyString => EmptyString
  | String a s' => String a (drop_last s')
  end.

(** [s[1:]] and [s[1:-1]] *)
Definition tail (s : string) : string :=
  match s with
  | EmptyString => EmptyString
  | String _ s' => s'
  end.

Definition chop_ends (s : string) : string := drop_last (tail s).

Definition lower_char (c : ascii) : ascii :=
  let n := nat_of_ascii c in
  if ((65 <=? n) && (n <=? 90)
      || (192 <=? n) && (n <=? 222) && negb (n =? 215))%nat
  then ascii_of_nat (n + 32) else c.

Fixpoint lower (s : string) : string :=
  match s with
  | EmptyString => EmptyString
  | String c s' => String (lower_char c) (lower s')
  end.

Fixpoint join (sep : string) (l : list string) : string :=
  match l with
  | [] => EmptyString
  | [x] => x
  | x :: l' => x ++ sep ++ join sep l'
  end.

Definition squote : ascii := "'"%char.
Definition dquote : ascii := "034"%char.

Definition quoted (v : string) : bool :=
  startswith squote v && endswith squote v
  || startswith dquote v && endswith dquote v.

(** lines 218-228 and 233-243: one token to a typed scalar *)
Definition convert (v : string) : scalar :=
  if quoted v then SStr (chop_ends v)
  else if str_mem "." v then
    match float_parse v with
    | Some x => SFloat x
    | None => SStr v
    end
  else
    match py_int v with
    | Some n => SInt n
    | None => SStr v
    end.

Inductive section : Set := Share | Geogrid | Ungrib | Metgrid.

Record store : Type := mkStore {
  share_params : dict;
  geogrid_params : dict;
  ungrib_params : dict;
  metgrid_params : dict
}.

Definition empty_store : store := mkStore [] [] [] [].

Definition section_of (sec : section) (s : store) : dict :=
  match sec with
  | Share => share_params s
  | Geogrid => geogrid_params s
  | Ungrib => ungrib_params s
  | Metgrid => metgrid_params s
  end.

Definition with_section (sec : section) (d : dict) (s : store) : store :=
  match sec with
  | Share => mkStore d (geogrid_params s) (ungrib_params s) (metgrid_params s)
  | Geogrid => mkStore (share_params s) d (ungrib_params s) (metgrid_params s)
  | Ungrib => mkStore (share_params s) (geogrid_params s) d (metgrid_params s)
  | Metgrid => mkStore (share_params s) (geogrid_params s) (ungrib_params s) d
  end.

(** The reader's state: the four dicts and [current_section], which is
    [None] or refers to one of them. *)
Record reader : Type := mkReader {
  contents : store;
  current_section : option section
}.

Definition recognise (section_name : string) : option section :=
  if String.eqb section_name "share" then Some Share
  else if String.eqb section_name "geogrid" then Some Geogrid
  else if String.eqb section_name "ungrib" then Some Ungrib
  else if String.eqb section_name "metgrid" then Some Metgrid
  else None.

(** lines 210-243: the text of a value, a list when it holds a comma *)
Definition read_value (param_value : string) : value :=
  if str_mem "," param_value then
    let values := map strip (split_where (Ascii.eqb ",") param_value) in
    VList (map convert values)
  else VScalar (convert param_value).

(** lines 199-243: a stripped line to a name and a value; [None] is the
    [continue] of a line without an equals sign. *)
Definition read_assignment (line : string) : option (string * value) :=
  match split_once "=" line with
  | None => None
  | Some (part0, part1) =>
      let param_name := strip part0 in
      let param_value := strip part1 in
      let param_value :=
        if endswith "," param_value then drop_last param_value
        else param_value in
      Some (param_name, read_value param_value)
  end.

(** lines 172-243: the body of [for line in f] *)
Definition read_line (st : reader) (raw : string) : reader :=
  let line := strip raw in
  if String.eqb line "" || startswith "!" line then st
  else if startswith "&" line then
    let section_name := lower (tail line) in
    match recognise section_name with
    | Some sec => mkReader (contents st) (Some sec)
    | None => st
    end
  else if String.eqb line "/" || startswith "/" line then
    mkReader (contents st) None
  else
    match current_section st with
    | None => st
    | Some sec =>
        match read_assignment line with
        | None => st
        | Some (param_name, v) =>
            mkReader
              (with_section sec
                 (dict_set param_name v (section_of sec (contents st)))
                 (contents st))
              (Some sec)
        end
    end.

Definition read_lines (st : reader) (lines : list string) : reader :=
  fold_left read_line lines st.

Definition inherent_lists : list string :=
  [ "start_date"; "end_date"; "parent_id"; "parent_grid_ratio";
    "i_parent_start"; "j_parent_start"; "e_we"; "e_sn"; "geog_data_res";
    "fg_name" ].

Definition mem_string (k : string) (l : list string) : bool :=
  existsb (String.eqb k) l.

(** lines 246-251 *)
Definition listify (params : dict) : dict :=
  map (fun kv =>
         match snd kv with
         | VScalar a =>
             if mem_string (fst kv) inherent_lists
             then (fst kv, VList [a]) else kv
         | VList _ => kv
         end) params.

Definition listify_store (s : store) : store :=
  mkStore (listify (share_params s)) (listify (geogrid_params s))
          (listify (ungrib_params s)) (listify (metgrid_params s)).

Definition initial_reader : reader := mkReader empty_store None.

(** [read_existing_namelist], on the text of the file *)
Definition read_existing_namelist (text : string) : store :=
  listify_store
    (contents (read_lines initial_reader (split_where is_newline text))).

(** [str(x)] *)
Definition scalar_str (a : scalar) : string :=
  match a with
  | SInt n => int_str n
  | SFloat x => float_str x
  | SStr s => s
  end.

Definition is_str (a : scalar) : bool :=
  match a with
  | SStr _ => true
  | _ => false
  end.

Definition quote (s : string) : string := "'" ++ s ++ "'".

(** lines 723-733 *)
Definition format_value (v : value) : string :=
  match v with
  | VList l =>
      if forallb is_str l then join ", " (map (fun x => quote (scalar_str x)) l)
      else join ", " (map scalar_str l)
  | VScalar (SStr s) => quote s
  | VScalar a => scalar_str a
  end.

Definition param_line (kv : string * value) : string :=
  " " ++ fst kv ++ " = " ++ format_value (snd kv) ++ ",".

(** The arguments of the successive [f.write] calls for one section;
    [closing] is the text written after the parameters. *)
Definition section_writes (name : string) (params : dict) (closing : string)
  : list string :=
  (("&" ++ name ++ nl) :: map (fun kv => param_line kv ++ nl) params)
    ++ [closing].

Definition namelist_writes (s : store) : list string :=
  section_writes "share" (share_params s) ("/" ++ nl ++ nl)
  ++ section_writes "geogrid" (geogrid_params s) ("/" ++ nl ++ nl)
  ++ section_writes "ungrib" (ungrib_params s) ("/" ++ nl ++ nl)
  ++ section_writes "metgrid" (metgrid_params s) ("/" ++ nl).

Definition namelist_text (s : store) : string :=
  fold_right String.append EmptyString (namelist_writes s).





(** ** Suggested nest dimensions (lines 516-522 of [configure_geogrid]) *)

(** [suggested = parent_dim // 3], and one more when that is even *)
Definition suggested_dim (parent_dim : scalar) : result scalar :=
  suggested <- py_floordiv parent_dim (SInt 3) ;;
  r <- py_mod suggested 2 ;;
  if py_eq_int r 0 then py_add suggested (SInt 1) else Ok suggested.

(** ** The date lists (lines 348-351 of [configure_share]) *)

(** [n < b] for an int [n] *)
Definition py_int_lt (n : Z) (b : value) : result bool :=
  match b with
  | VScalar (SInt m) => Ok (n <? m)
  | VScalar (SFloat y) =>
      Ok (match fcompare_Z y n with Some Gt => true | _ => false end)
  | _ => Raise TypeError
  end.

(** the bound of a slice is an int *)
Definition py_slice_bound (b : value) : result Z :=
  match b with
  | VScalar (SInt m) => Ok m
  | _ => Raise TypeError
  end.

(** [len(params[key]) < params["max_dom"]] *)
Definition date_guard (key : string) (params : dict) : result bool :=
  cur <- getitem key params ;;
  n <- py_len cur ;;
  max_dom <- getitem "max_dom" params ;;
  py_int_lt n max_dom.

(** [params[key].append(params[key][0])]; the method is looked up before
    the argument is evaluated. *)
Definition date_step (key : string) (params : dict) : result dict :=
  cur <- getitem key params ;;
  _ <- py_append cur (SInt 0) ;;
  cur' <- getitem key params ;;
  first <- py_index cur' (SInt 0) ;;
  append_to key first params.

Fixpoint date_grow (fuel : nat) (key : string) (params : dict)
  : status * dict :=
  match date_guard key params with
  | Raise e => (Raised e, params)
  | Ok false => (Returned, params)
  | Ok true =>
      match fuel with
      | O => (Diverged, params)
      | S fuel' =>
          match date_step key params with
          | Raise e => (Raised e, params)
          | Ok params' => date_grow fuel' key params'
          end
      end
  end.

(** the body of [for key in ["start_date", "end_date"]] *)
Definition date_sync (fuel : nat) (key : string) (params : dict)
  : status * dict :=
  match date_grow fuel key params with
  | (Returned, p) =>
      match (cur <- getitem key p ;;
             max_dom <- getitem "max_dom" p ;;
             m <- py_slice_bound max_dom ;;
             py_slice_to cur m) with
      | Ok v => (Returned, dict_set key v p)
      | Raise e => (Raised e, p)
      end
  | other => other
  end.

Definition sync_dates (fuel : nat) (params : dict) : status * dict :=
  match date_sync fuel "start_date" params with
  | (Returned, p) => date_sync fuel "end_date" p
  | other => other
  end.

(** ** Prompts and validators (lines 255-318) *)

(** What the terminal shows: the prompt of an [input] call, or a printed
    line. *)
Inductive event : Type :=
| Prompt (text : string)
| Output (line : string).

(** How a prompt ends: a value is returned, [sys.exit] is called, or
    [input] raises EOFError because no line is left. *)
Inductive answer : Type :=
| Answered (v : scalar)
| Cancelled (code : Z)
| EndOfInput.

(** [get_input], on the lines still to be typed; the result carries the
    lines left and what was shown.  [default] is [None] or a scalar;
    [validator] is [None] or a function to a pair [(is_valid, message)]. *)
Fixpoint get_input (prompt : string) (default : option scalar)
    (validator : option (string -> bool * string)) (pending : list string)
  : answer * list string * list event :=
  let text :=
    match default with
    | Some d => prompt ++ " [" ++ scalar_str d ++ "]: "
    | None => prompt ++ ": "
    end in
  match pending with
  | [] => (EndOfInput, [], [Prompt text])
  | user_input :: rest =>
      match default, String.eqb user_input "" with
      | Some d, true => (Answered d, rest, [Prompt text])
      | _, _ =>
          if String.eqb (lower user_input) "q" then
            (Cancelled 0, rest,
             [Prompt text; Output "Configuration canceled by user."])
          else
            match (match validator with
                   | Some f => f user_input
                   | None => (true, "")
                   end) with
            | (true, _) => (Answered (SStr user_input), rest, [Prompt text])
            | (false, error_message) =>
                let '(a, rest', shown) :=
                  get_input prompt default validator rest in
                (a, rest',
                 Prompt text :: Output ("Error: " ++ error_message) :: shown)
            end
      end
  end.

Definition validate_integer (value : string) : bool * string :=
  match py_int value with
  | Some _ => (true, "")
  | None => (false, "Value must be an integer")
  end.

Definition validate_positive_integer (value : string) : bool * string :=
  match py_int value with
  | Some intval =>
      if intval <=? 0 then (false, "Value must be a positive integer")
      else (true, "")
  | None => (false, "Value must be an integer")
  end.

Definition validate_float (value : string) : bool * string :=
  match float_parse value with
  | Some _ => (true, "")
  | None => (false, "Value must be a number")
  end.

Definition validate_option (value : string) (options : list string)
  : bool * string :=
  if mem_string value options then (true, "")
  else (false, "Value must be one of: " ++ join ", " options).

(** line 491: [[str(j) for j in range(1, i+1)]] *)
Definition parent_id_options (i : Z) : list string :=
  map (fun j => int_str (Z.of_nat j)) (seq 1 (Z.to_nat i)).

(** ** The prefixes of [configure_metgrid] (lines 652-656) *)

(** [sep.join(v)] *)
Definition py_join (sep : string) (v : value) : result string :=
  match v with
  | VList l =>
      if forallb is_str l then Ok (join sep (map scalar_str l))
      else Raise TypeError
  | VScalar (SStr s) =>
      Ok (join sep (map (fun c => String c EmptyString)
                        (list_ascii_of_string s)))
  | VScalar _ => Raise TypeError
  end.

(** line 654: the default shown at the prompt *)
Definition fg_name_default (params : dict) : result string :=
  cur <- getitem "fg_name" params ;;
  py_join "," cur.

(** line 656: [[s.strip() for s in fg_name.split(",")]] *)
Definition fg_name_entries (fg_name : string) : value :=
  VList (map (fun s => SStr (strip s)) (split_where (Ascii.eqb ",") fg_name)).

End Program.

(** * Facts about the string operations *)

Section StringFacts.

Lemma append_nil_r (s : string) : s ++ "" = s.
Proof. induction s; simpl; congruence. Qed.

Lemma append_assoc (a b c : string) : (a ++ b) ++ c = a ++ (b ++ c).
Proof. induction a; simpl; congruence. Qed.

Lemma append_eq_nil (a b : string) : a ++ b = "" -> a = "" /\ b = "".
Proof. destruct a; simpl; [auto | discriminate]. Qed.

Lemma str_mem_app (c : ascii) (a b : string) :
  str_mem c (a ++ b) = str_mem c a || str_mem c b.
Proof.
  induction a as [|x a IH]; simpl; [reflexivity|].
  rewrite IH. apply orb_assoc.
Qed.

Lemma str_forall_app (p : ascii -> bool) (a b : string) :
  str_forall p (a ++ b) = str_forall p a && str_forall p b.
Proof.
  induction a as [|x a IH]; simpl; [reflexivity|].
  rewrite IH. apply andb_assoc.
Qed.

Lemma str_forall_impl (p q : ascii -> bool) (s : string) :
  (forall c, p c = true -> q c = true) ->
  str_forall p s = true -> str_forall q s = true.
Proof.
  intros Hpq. induction s as [|x s IH]; simpl; [reflexivity|].
  intros H. apply andb_true_iff in H as [Hx Hs].
  rewrite (Hpq _ Hx), (IH Hs). reflexivity.
Qed.

Lemma str_forall_not_mem (p : ascii -> bool) (c : ascii) (s : string) :
  str_forall p s = true -> p c = false -> str_mem c s = false.
Proof.
  intros Hs Hc. induction s as [|x s IH]; simpl in *; [reflexivity|].
  apply andb_true_iff in Hs as [Hx Hs]. rewrite (IH Hs), orb_false_r.
  destruct (Ascii.eqb_spec x c); [subst; congruence | reflexivity].
Qed.

Lemma str_mem_forall (p : ascii -> bool) (c : ascii) (s : string) :
  str_forall p s = true -> str_mem c s = true -> p c = true.
Proof.
  intros Hs Hc. destruct (p c) eqn:E; [reflexivity|].
  rewrite (str_forall_not_mem p c s Hs E) in Hc. discriminate.
Qed.

Lemma startswith_mem (c : ascii) (s : string) :
  startswith c s = true -> str_mem c s = true.
Proof. destruct s; simpl; [discriminate|]. intros ->. reflexivity. Qed.

(** *** lstrip, rstrip, strip *)

Lemma lstrip_length (s : string) : (String.length (lstrip s) <= String.length s)%nat.
Proof.
  induction s as [|c s IH]; simpl; [lia|].
  destruct (is_space c); simpl; lia.
Qed.

Lemma lstrip_fixed_head (c : ascii) (s : string) :
  lstrip (String c s) = String c s -> is_space c = false.
Proof.
  simpl. destruct (is_space c); [|reflexivity].
  intros H. pose proof (lstrip_length s) as L. rewrite H in L. simpl in L. lia.
Qed.

Lemma lstrip_app_nonspace (a : string) (c : ascii) (b : string) :
  is_space c = false -> lstrip (a ++ String c b) = lstrip a ++ String c b.
Proof.
  intros Hc. induction a as [|x a IH]; simpl.
  - rewrite Hc. reflexivity.
  - destruct (is_space x); [exact IH | reflexivity].
Qed.

Lemma rstrip_app (a b : string) :
  rstrip b <> "" -> rstrip (a ++ b) = a ++ rstrip b.
Proof.
  intros Hb. induction a as [|x a IH]; simpl; [reflexivity|].
  rewrite IH. destruct (a ++ rstrip b) eqn:E; [|reflexivity].
  apply append_eq_nil in E. tauto.
Qed.

Lemma rstrip_app_blank (a b : string) :
  rstrip b = "" -> rstrip (a ++ b) = rstrip a.
Proof.
  intros Hb. induction a as [|x a IH]; simpl; [exact Hb|].
  rewrite IH. reflexivity.
Qed.

Lemma rstrip_nonspace (s : string) :
  str_forall (fun c => negb (is_space c)) s = true -> rstrip s = s.
Proof.
  induction s as [|c s IH]; simpl; [reflexivity|].
  intros H. apply andb_true_iff in H as [Hc Hs]. rewrite (IH Hs).
  destruct s; [|reflexivity].
  destruct (is_space c); [discriminate | reflexivity].
Qed.

Lemma rstrip_last (a : string) (c : ascii) :
  is_space c = false -> rstrip (a ++ String c "") = a ++ String c "".
Proof.
  intros Hc. rewrite rstrip_app; simpl; rewrite Hc; [reflexivity | discriminate].
Qed.

Lemma strip_space_cons (c : ascii) (s : string) :
  is_space c = true -> strip (String c s) = strip s.
Proof.
  intros Hc. unfold strip. simpl.
  destruct (rstrip s) eqn:E; simpl; rewrite Hc; reflexivity.
Qed.

Lemma strip_fixed (s : string) : lstrip s = s -> rstrip s = s -> strip s = s.
Proof. unfold strip. intros Hl ->. exact Hl. Qed.

Lemma rstrip_length (s : string) : (String.length (rstrip s) <= String.length s)%nat.
Proof.
  induction s as [|c s IH]; simpl; [lia|].
  destruct (rstrip s); [destruct (is_space c)|]; simpl in *; lia.
Qed.

Lemma lstrip_same_length (s : string) :
  String.length (lstrip s) = String.length s -> lstrip s = s.
Proof.
  destruct s as [|c s]; simpl; [reflexivity|].
  destruct (is_space c); [|reflexivity].
  intros E. pose proof (lstrip_length s). lia.
Qed.

Lemma rstrip_same_length (s : string) :
  String.length (rstrip s) = String.length s -> rstrip s = s.
Proof.
  induction s as [|c s IH]; simpl; [reflexivity|].
  destruct (rstrip s) eqn:E.
  - destruct (is_space c); simpl; intros E'; [lia|].
    destruct s; [reflexivity | simpl in E'; lia].
  - simpl. intros E'. injection E' as E'. rewrite (IH E'). reflexivity.
Qed.

Lemma strip_fixed_both (s : string) :
  strip s = s -> lstrip s = s /\ rstrip s = s.
Proof.
  unfold strip. intros H.
  assert (rstrip s = s) as R.
  { apply rstrip_same_length.
    pose proof (rstrip_length s). pose proof (lstrip_length (rstrip s)).
    rewrite H in *. lia. }
  rewrite R in H. auto.
Qed.

Lemma strip_fixed_head (c : ascii) (s : string) :
  strip (String c s) = String c s -> is_space c = false.
Proof.
  intros H. apply strip_fixed_both in H as [H _].
  exact (lstrip_fixed_head c s H).
Qed.

(** *** endswith, drop_last *)

Lemma endswith_last (a : string) (c : ascii) :
  endswith c (a ++ String c "") = true.
Proof.
  induction a as [|x a IH]; simpl; [apply Ascii.eqb_refl|].
  destruct (a ++ String c "") eqn:E; [|exact IH].
  apply append_eq_nil in E as [_ E]. discriminate.
Qed.

Lemma drop_last_last (a : string) (c : ascii) :
  drop_last (a ++ String c "") = a.
Proof.
  induction a as [|x a IH]; simpl; [reflexivity|].
  destruct (a ++ String c "") eqn:E.
  - apply append_eq_nil in E as [_ E]. discriminate.
  - rewrite IH. reflexivity.
Qed.

(** *** splitting *)

Lemma split_where_none (p : ascii -> bool) (s : string) :
  str_forall (fun c => negb (p c)) s = true -> split_where p s = [s].
Proof.
  induction s as [|c s IH]; simpl; [reflexivity|].
  intros H. apply andb_true_iff in H as [Hc Hs].
  destruct (p c); [discriminate|]. rewrite (IH Hs). reflexivity.
Qed.

Lemma split_where_first (p : ascii -> bool) (a : string) (c : ascii) (b : string) :
  str_forall (fun c => negb (p c)) a = true -> p c = true ->
  split_where p (a ++ String c b) = a :: split_where p b.
Proof.
  intros Ha Hc. induction a as [|x a IH]; simpl.
  - rewrite Hc. reflexivity.
  - simpl in Ha. apply andb_true_iff in Ha as [Hx Ha].
    destruct (p x); [discriminate|]. rewrite (IH Ha). reflexivity.
Qed.

Lemma split_once_first (c : ascii) (a b : string) :
  str_mem c a = false -> split_once c (a ++ String c b) = Some (a, b).
Proof.
  induction a as [|x a IH]; simpl.
  - rewrite Ascii.eqb_refl. reflexivity.
  - intros H. apply orb_false_iff in H as [Hx Ha].
    rewrite Hx, (IH Ha). reflexivity.
Qed.

Lemma not_mem_forall (c : ascii) (s : string) :
  str_mem c s = false ->
  str_forall (fun x => negb (Ascii.eqb c x)) s = true.
Proof.
  induction s as [|x s IH]; simpl; [reflexivity|].
  intros H. apply orb_false_iff in H as [Hx Hs].
  rewrite (IH Hs), Ascii.eqb_sym, Hx. reflexivity.
Qed.

End StringFacts.

(** * Decimal text of integers: [int(str(n)) == n] *)

Section IntText.

Lemma lstrip_nonspace (s : string) :
  str_forall (fun c => negb (is_space c)) s = true -> lstrip s = s.
Proof.
  destruct s as [|c s]; simpl; [reflexivity|].
  intros H. apply andb_true_iff in H as [Hc _].
  destruct (is_space c); [discriminate | reflexivity].
Qed.

Lemma strip_nonspace (s : string) :
  str_forall (fun c => negb (is_space c)) s = true -> strip s = s.
Proof.
  intros H. apply strip_fixed; [apply lstrip_nonspace | apply rstrip_nonspace]; exact H.
Qed.

Lemma uint_str_digits (d : uint) :
  str_forall is_digit (NilEmpty.string_of_uint d) = true.
Proof. induction d; simpl; auto. Qed.

Lemma uint_str_nonnil (d : uint) :
  d <> Nil -> NilEmpty.string_of_uint d <> "".
Proof. destruct d; simpl; congruence. Qed.

Lemma nilzero_uint_str_digits (d : uint) :
  str_forall is_digit (NilZero.string_of_uint d) = true /\
  NilZero.string_of_uint d <> "".
Proof.
  destruct d; simpl; split; try reflexivity; try discriminate;
    apply uint_str_digits.
Qed.

Lemma digits_ok_digits (b : bool) (s : string) :
  str_forall is_digit s = true -> (b = true \/ s <> "") ->
  digits_ok b s = true.
Proof.
  revert b. induction s as [|c s IH]; simpl; intros b Hs Hb.
  - destruct Hb as [Hb|Hb]; [exact Hb | congruence].
  - apply andb_true_iff in Hs as [Hc Hs]. rewrite Hc.
    apply IH; auto.
Qed.

Lemma drop_underscores_digits (s : string) :
  str_forall is_digit s = true -> drop_underscores s = s.
Proof.
  induction s as [|c s IH]; simpl; [reflexivity|].
  intros H. apply andb_true_iff in H as [Hc Hs]. rewrite (IH Hs).
  destruct (Ascii.eqb_spec c "_"); [subst; discriminate | reflexivity].
Qed.

Lemma nat_of_digits_uint (d : uint) :
  d <> Nil ->
  nat_of_digits (NilEmpty.string_of_uint d) = Some (Z.of_uint d).
Proof.
  intros Hd. unfold nat_of_digits.
  rewrite digits_ok_digits;
    [| apply uint_str_digits | right; apply uint_str_nonnil; exact Hd].
  rewrite drop_underscores_digits by apply uint_str_digits.
  rewrite NilEmpty.usu. reflexivity.
Qed.

Definition int_char (c : ascii) : bool := is_digit c || Ascii.eqb c "-".

Lemma int_str_chars (n : Z) :
  str_forall int_char (int_str n) = true /\ int_str n <> "".
Proof.
  unfold int_str.
  destruct n as [|p|p]; simpl.
  - split; [reflexivity | discriminate].
  - destruct (nilzero_uint_str_digits (Pos.to_uint p)) as [H1 H2].
    split; [|exact H2].
    eapply str_forall_impl; [|exact H1].
    intros c Hc. unfold int_char. rewrite Hc. reflexivity.
  - destruct (nilzero_uint_str_digits (Pos.to_uint p)) as [H1 H2].
    split; [|discriminate].
    eapply str_forall_impl; [|exact H1].
    intros c Hc. unfold int_char. rewrite Hc. reflexivity.
Qed.

Lemma int_char_nonspace (c : ascii) : int_char c = true -> negb (is_space c) = true.
Proof.
  unfold int_char, is_digit, is_space. intros H.
  apply orb_true_iff in H as [H|H].
  - apply andb_true_iff in H as [H1 H2].
    apply Nat.leb_le in H1. apply Nat.leb_le in H2.
    apply negb_true_iff. repeat (apply orb_false_iff; split);
      try apply andb_false_iff; try apply Nat.eqb_neq;
      rewrite ?Nat.leb_gt; lia.
  - apply Ascii.eqb_eq in H. subst. reflexivity.
Qed.

Lemma pos_uint_of_to (p : positive) : Z.of_uint (Pos.to_uint p) = Z.pos p.
Proof. unfold Z.of_uint. rewrite DecimalPos.Unsigned.of_to. reflexivity. Qed.

Lemma nat_of_digits_pos (p : positive) :
  nat_of_digits (NilZero.string_of_uint (Pos.to_uint p)) = Some (Z.pos p).
Proof.
  pose proof (DecimalPos.Unsigned.to_uint_nonnil p) as Hn.
  replace (NilZero.string_of_uint (Pos.to_uint p))
    with (NilEmpty.string_of_uint (Pos.to_uint p))
    by (unfold NilZero.string_of_uint; destruct (Pos.to_uint p); congruence).
  rewrite nat_of_digits_uint by exact Hn.
  rewrite pos_uint_of_to. reflexivity.
Qed.

Lemma strip_by_none (p : ascii -> bool) (s : string) :
  str_forall (fun c => negb (p c)) s = true -> strip_by p s = s.
Proof.
  intros H. unfold strip_by.
  assert (rstrip_by p s = s) as ->.
  { induction s as [|c s IH]; simpl; [reflexivity|].
    simpl in H. apply andb_true_iff in H as [Hc Hs]. rewrite (IH Hs).
    destruct s; [|reflexivity].
    destruct (p c); [discriminate | reflexivity]. }
  destruct s as [|c s]; simpl; [reflexivity|].
  simpl in H. apply andb_true_iff in H as [Hc _].
  destruct (p c); [discriminate | reflexivity].
Qed.

Lemma int_space_is_space (c : ascii) :
  is_int_space c = true -> is_space c = true.
Proof.
  unfold is_int_space, is_space. intros H.
  repeat (apply orb_true_iff in H as [H|H]).
  - rewrite H. reflexivity.
  - apply Nat.eqb_eq in H. rewrite H. reflexivity.
  - rewrite H. rewrite !orb_true_r. reflexivity.
  - rewrite H. rewrite !orb_true_r. reflexivity.
Qed.

Lemma int_char_not_int_space (c : ascii) :
  int_char c = true -> negb (is_int_space c) = true.
Proof.
  intros H. apply int_char_nonspace in H. apply negb_true_iff in H.
  apply negb_true_iff. destruct (is_int_space c) eqn:E; [|reflexivity].
  rewrite (int_space_is_space c E) in H. discriminate H.
Qed.

(** [int(str(n)) == n] *)
Lemma py_int_int_str (n : Z) : py_int (int_str n) = Some n.
Proof.
  unfold py_int.
  rewrite strip_by_none.
  2:{ eapply str_forall_impl; [exact int_char_not_int_space|].
      apply (int_str_chars n). }
  unfold int_str. destruct n as [|p|p]; simpl.
  - reflexivity.
  - pose proof (nat_of_digits_pos p) as H.
    destruct (nilzero_uint_str_digits (Pos.to_uint p)) as [Hd Hne].
    destruct (NilZero.string_of_uint (Pos.to_uint p)) as [|c s];
      [congruence|].
    simpl in Hd. apply andb_true_iff in Hd as [Hc _].
    destruct (Ascii.eqb_spec c "-"); [subst; discriminate|].
    destruct (Ascii.eqb_spec c "+"); [subst; discriminate|].
    exact H.
  - rewrite nat_of_digits_pos. reflexivity.
Qed.

End IntText.

(** * A concrete model of the builtins

    Decimal fixed-point numbers with one fractional digit, held as a count
    of tenths.  It satisfies every law of [Builtins] and is what the
    theorems below are run on. *)

Module FixedPoint.

Definition digit_char (d : Z) : ascii := ascii_of_nat (48 + Z.to_nat d).

Definition digit_val (c : ascii) : Z := Z.of_nat (nat_of_ascii c) - 48.

Definition str (x : Z) : string :=
  (if x <? 0 then "-" else "")
    ++ int_str (Z.abs x / 10)
    ++ String "." (String (digit_char (Z.abs x mod 10)) "").

Definition parse (s : string) : option Z :=
  match split_once "." s with
  | Some (a, String d EmptyString) =>
      if is_digit d then
        let neg := startswith "-" a in
        match py_int (if neg then tail a else a) with
        | Some m =>
            if 0 <=? m then
              Some ((if neg then -1 else 1) * (10 * m + digit_val d))
            else None
        | None => None
        end
      else None
  | _ => None
  end.

Lemma digit_char_digit (r : Z) : 0 <= r < 10 -> is_digit (digit_char r) = true.
Proof.
  intros Hr. unfold is_digit, digit_char.
  rewrite nat_ascii_embedding by lia.
  apply andb_true_iff. split; apply Nat.leb_le; lia.
Qed.

Lemma digit_val_char (r : Z) : 0 <= r < 10 -> digit_val (digit_char r) = r.
Proof.
  intros Hr. unfold digit_val, digit_char.
  rewrite nat_ascii_embedding by lia. lia.
Qed.

Lemma int_str_nonneg_digits (n : Z) :
  0 <= n -> str_forall is_digit (int_str n) = true.
Proof.
  intros Hn. unfold int_str. destruct n as [|p|p]; simpl; [reflexivity | | lia].
  apply nilzero_uint_str_digits.
Qed.

Lemma parse_str (x : Z) : parse (str x) = Some x.
Proof.
  unfold parse, str.
  set (q := Z.abs x / 10). set (r := Z.abs x mod 10).
  assert (0 <= q) as Hq by (apply Z.div_pos; lia).
  assert (0 <= r < 10) as Hr by (apply Z.mod_pos_bound; lia).
  assert (Z.abs x = 10 * q + r) as Hx by (apply Z.div_mod; lia).
  clearbody q r.
  pose proof (int_str_nonneg_digits q Hq) as Hd.
  pose proof (py_int_int_str q) as Hi.
  destruct (int_str_chars q) as [_ Hne].
  destruct (Z.ltb_spec x 0) as [Hneg|Hpos].
  - rewrite <- append_assoc, split_once_first.
    2:{ simpl. apply (str_forall_not_mem is_digit); [exact Hd | reflexivity]. }
    rewrite digit_char_digit by exact Hr.
    change (startswith "-" ("-" ++ int_str q)) with true. cbv beta iota.
    change (tail ("-" ++ int_str q)) with (int_str q).
    rewrite Hi. destruct (Z.leb_spec 0 q); [|lia].
    rewrite digit_val_char by exact Hr. f_equal. lia.
  - change ("" ++ int_str q ++ String "." (String (digit_char r) ""))
      with (int_str q ++ String "." (String (digit_char r) "")).
    rewrite split_once_first.
    2:{ apply (str_forall_not_mem is_digit); [exact Hd | reflexivity]. }
    rewrite digit_char_digit by exact Hr.
    replace (startswith "-" (int_str q)) with false.
    2:{ destruct (int_str q) as [|c s]; [reflexivity|]. simpl in *.
        apply andb_true_iff in Hd as [Hc _].
        destruct (Ascii.eqb_spec c "-"); [subst; discriminate | reflexivity]. }
    rewrite Hi. destruct (Z.leb_spec 0 q); [|lia].
    rewrite digit_val_char by exact Hr. f_equal. lia.
Qed.

Lemma digit_in_float_chars (c : ascii) :
  is_digit c = true -> str_mem c float_chars = true.
Proof.
  destruct c as [[] [] [] [] [] [] [] []]; intros H;
    try discriminate H; reflexivity.
Qed.

Lemma str_chars (x : Z) :
  str x <> "" /\
  str_forall (fun c => str_mem c float_chars) (str x) = true.
Proof.
  unfold str. split.
  - intros H. apply append_eq_nil in H as [_ H].
    apply append_eq_nil in H as [_ H]. discriminate.
  - rewrite !str_forall_app.
    apply andb_true_iff; split; [|apply andb_true_iff; split].
    + destruct (x <? 0); reflexivity.
    + eapply str_forall_impl; [exact digit_in_float_chars|].
      apply int_str_nonneg_digits. apply Z.div_pos; lia.
    + cbn [str_forall].
      rewrite (digit_in_float_chars (digit_char (Z.abs x mod 10)));
        [reflexivity|].
      apply digit_char_digit. apply Z.mod_pos_bound. lia.
Qed.

Lemma str_has_dot (x : Z) : str_mem "." (str x) = true.
Proof.
  unfold str. rewrite !str_mem_app. cbn [str_mem].
  rewrite Ascii.eqb_refl. cbn [orb]. rewrite !orb_true_r. reflexivity.
Qed.

Lemma str_of_Z (n : Z) : str (10 * n) = int_str n ++ ".0".
Proof.
  unfold str.
  replace (Z.abs (10 * n) / 10) with (Z.abs n)
    by (rewrite Z.abs_mul, (Z.mul_comm (Z.abs 10)), Z.div_mul; simpl; lia).
  replace (Z.abs (10 * n) mod 10) with 0
    by (rewrite Z.abs_mul, (Z.mul_comm (Z.abs 10)), Z.mod_mul; simpl; lia).
  destruct n as [|p|p]; try reflexivity.
Qed.

Definition builtins : Builtins := {|
  float := Z;
  float_of_Z := fun n => 10 * n;
  float_fits := fun _ => true;
  float_str := str;
  float_parse := parse;
  fadd := Z.add;
  fsub := Z.sub;
  ffloordiv := fun x y => if y =? 0 then None else Some (10 * (x / y));
  fmod := fun x y => if y =? 0 then None else Some (x mod y);
  fcompare := fun x y => Some (x ?= y);
  fcompare_Z := fun x n => Some (x ?= 10 * n);
  str_percent := fun _ _ => Raise TypeError;
  float_parse_str := parse_str;
  float_str_chars := str_chars;
  float_str_nodot := fun x H =>
    False_ind _ (eq_ind true (fun b => if b then True else False) I false
                   (eq_trans (eq_sym (str_has_dot x)) H));
  float_str_of_Z := fun n _ => str_of_Z n
|}.

End FixedPoint.

(** * Nesting geometry *)

Section Geometry.

Lemma pow2_split (x y : Z) : 0 <= x -> 0 <= y -> 2 ^ (x + y) = 2 ^ x * 2 ^ y.
Proof. intros. apply Z.pow_add_r; assumption. Qed.

Lemma pow2_pos (x : Z) : 0 <= x -> 0 < 2 ^ x.
Proof. intros. apply Z.pow_pos_nonneg; lia. Qed.

(** Below [2 ^ 53] the quotient is a normal number: [binade] is a lower
    bound of its binary logarithm. *)
Lemma binade_small (a b : Z) :
  0 < a < 2 ^ 53 -> 0 < b < 2 ^ 53 ->
  -53 <= binade a b <= 52 /\ b * 2 ^ 52 <= a * 2 ^ (52 - binade a b).
Proof.
  intros Ha Hb.
  destruct (Z.log2_spec a ltac:(lia)) as [La1 La2].
  destruct (Z.log2_spec b ltac:(lia)) as [Lb1 Lb2].
  pose proof (Z.log2_nonneg a) as Na. pose proof (Z.log2_nonneg b) as Nb.
  assert (Z.log2 a < 53) as Ua by (apply Z.log2_lt_pow2; lia).
  assert (Z.log2 b < 53) as Ub by (apply Z.log2_lt_pow2; lia).
  unfold binade. set (la := Z.log2 a) in *. set (lb := Z.log2 b) in *.
  destruct (Z.leb_spec (b * 2 ^ Z.max 0 (la - lb))
              (a * 2 ^ Z.max 0 (- (la - lb)))) as [Ht|Ht].
  - split; [lia|].
    destruct (Z.le_gt_cases 0 (la - lb)) as [Hd|Hd].
    + rewrite Z.max_r in Ht by lia.
      rewrite (Z.max_l 0 (- (la - lb))) in Ht by lia.
      replace 52 with ((la - lb) + (52 - (la - lb))) at 1 by lia.
      rewrite pow2_split by lia.
      pose proof (pow2_pos (52 - (la - lb)) ltac:(lia)).
      change (2 ^ 0) with 1 in Ht. nia.
    + rewrite Z.max_l in Ht by lia.
      rewrite (Z.max_r 0 (- (la - lb))) in Ht by lia.
      replace (52 - (la - lb)) with (- (la - lb) + 52) by lia.
      rewrite pow2_split by lia.
      pose proof (pow2_pos 52 ltac:(lia)).
      change (2 ^ 0) with 1 in Ht. nia.
  - split; [lia|].
    replace (52 - (la - lb - 1)) with ((53 + lb) - la) by lia.
    assert (2 ^ (53 + lb) = 2 ^ la * 2 ^ (53 + lb - la)) as E
      by (rewrite <- pow2_split by lia; f_equal; lia).
    assert (2 ^ (53 + lb) = 2 ^ 52 * 2 ^ (Z.succ lb)) as E'
      by (rewrite <- pow2_split by lia; f_equal; lia).
    pose proof (pow2_pos (53 + lb - la) ltac:(lia)).
    pose proof (pow2_pos 52 ltac:(lia)).
    nia.
Qed.

Lemma round_half_even_cases (n d : Z) :
  0 < d ->
  (round_half_even n d = n / d /\ 2 * (n mod d) <= d) \/
  (round_half_even n d = n / d + 1 /\ d <= 2 * (n mod d)).
Proof.
  intros Hd. unfold round_half_even.
  destruct (Z.ltb_spec d (2 * (n mod d))); cbn [orb]; [right; lia|].
  destruct (Z.eqb_spec d (2 * (n mod d))); cbn [andb]; [|left; lia].
  destruct (Z.odd (n / d)); [right | left]; lia.
Qed.

(** For positive integers below [2 ^ 53], rounding the quotient does not
    move it across an integer: [ceil_div] is the ceiling of the exact
    quotient. *)
Lemma ceil_div_spec (a b : Z) :
  0 < a < 2 ^ 53 -> 0 < b < 2 ^ 53 ->
  exists c, ceil_div a b = Ok c /\ b * (c - 1) < a <= b * c.
Proof.
  intros Ha Hb. destruct (binade_small a b Ha Hb) as [HL Hlow].
  unfold ceil_div.
  destruct (Z.eqb_spec b 0); [lia|]. destruct (Z.eqb_spec a 0); [lia|].
  rewrite (Z.abs_eq a), (Z.abs_eq b) by lia.
  rewrite (Z.sgn_pos a), (Z.sgn_pos b) by lia.
  set (L := binade a b) in *.
  rewrite (Z.max_l (L - 52) (-1074)) by lia.
  rewrite (Z.max_l 0 (L - 52)) by lia.
  replace (Z.max 0 (- (L - 52))) with (52 - L) by lia.
  change (2 ^ 0) with 1. rewrite !Z.mul_1_r, !Z.mul_1_l.
  set (P := 2 ^ (52 - L)) in *.
  assert (1 <= P) as HP by (pose proof (pow2_pos (52 - L) ltac:(lia)); lia).
  assert (b < 2 * P) as HbP by (change (2 ^ 53) with (2 * 2 ^ 52) in Ha; nia).
  set (m := round_half_even (a * P) b).
  pose proof (Z.div_mod (a * P) b ltac:(lia)) as Hdm.
  pose proof (Z.mod_pos_bound (a * P) b ltac:(lia)) as Hr.
  assert (m < 2 ^ 1024) as Hm.
  { assert (P < 2 ^ 106) as HP' by (apply Z.pow_lt_mono_r; lia).
    assert (2 ^ 53 * 2 ^ 106 < 2 ^ 1024) as Hbig
      by (rewrite <- pow2_split by lia; apply Z.pow_lt_mono_r; lia).
    assert (a * P / b <= a * P) as HF
      by (apply Z.div_le_upper_bound; nia).
    assert (a * P < 2 ^ 53 * 2 ^ 106) as HN
      by (apply Z.mul_lt_mono_nonneg; lia).
    destruct (round_half_even_cases (a * P) b ltac:(lia)) as [[E _]|[E _]];
      fold m in E; lia. }
  destruct (Z.leb_spec (2 ^ 1024) m); [lia|].
  eexists. split; [reflexivity|].
  pose proof (Z.div_mod (- m) P ltac:(lia)) as Hc.
  pose proof (Z.mod_pos_bound (- m) P ltac:(lia)) as Hcr.
  set (c := - (- m / P)) in *.
  destruct (round_half_even_cases (a * P) b ltac:(lia)) as [[E Hh]|[E Hh]];
    fold m in E; set (F := a * P / b) in *; set (r := (a * P) mod b) in *;
    split; nia.
Qed.

(** C2 as stated fails: the function does not return 44 at (100, 31, 3). *)
Lemma C2_suggest_start_not_44 : suggest_nest_location 100 31 3 <> Ok 44.
Proof. vm_compute. discriminate. Qed.

(** C2 (amended): [suggest_nest_location 100 31 3] returns exactly 45,
    namely [max(1, 100 // 2 - ceil(31 / 3) // 2)] with [100 // 2 = 50],
    [ceil(31 / 3) = 11] and [11 // 2 = 5]. *)
Theorem C2_suggest_start_is_45 :
  suggest_nest_location 100 31 3 = Ok 45 /\
  ceil_div 31 3 = Ok 11 /\
  3 * (11 - 1) < 31 <= 3 * 11 /\
  45 = Z.max 1 (100 / 2 - 11 / 2).
Proof. vm_compute. repeat split; discriminate. Qed.

(** The general shape of [suggest_nest_location]. *)
Lemma suggest_nest_location_formula (parent_dim nest_dim ratio : Z) :
  0 < nest_dim < 2 ^ 53 -> 0 < ratio < 2 ^ 53 ->
  exists c, ratio * (c - 1) < nest_dim <= ratio * c /\
    suggest_nest_location parent_dim nest_dim ratio
    = Ok (Z.max 1 (parent_dim / 2 - c / 2)).
Proof.
  intros Hn Hr. destruct (ceil_div_spec nest_dim ratio Hn Hr) as (c & Hc & Hb).
  exists c. split; [exact Hb|].
  unfold suggest_nest_location. rewrite Hc. reflexivity.
Qed.

(** C4 as stated fails: the quotient is a binary64 number, and from
    [2 ^ 53] on not every integer is one.  A nest of [2 ^ 53 + 1] points at
    ratio 1, whose footprint is [2 ^ 53 + 1], is given the end [2 ^ 53] and
    reported as fitting in a parent of [2 ^ 53] points. *)
Lemma C4_large_nest_reported_as_fitting :
  check_fit (2 ^ 53) 1 (2 ^ 53 + 1) 1 1 1 1 = Ok (2 ^ 53, 1, true) /\
  1 * ((2 ^ 53 + 1) - 1) < 2 ^ 53 + 1 <= 1 * (2 ^ 53 + 1) /\
  2 ^ 53 < 1 + (2 ^ 53 + 1) - 1.
Proof. split; [vm_compute; reflexivity | lia]. Qed.

(** C4 (amended): for a positive ratio and positive nest dimensions, all
    below [2 ^ 53], the fit check computes
    [i_end = i_start + ceil(nest_we/ratio) - 1] and
    [j_end = j_start + ceil(nest_sn/ratio) - 1], and reports a fit exactly
    when [i_end <= parent_we] and [j_end <= parent_sn]; a placement beyond
    the parent on either axis is reported as not fitting. *)
Theorem C4_check_fit_spec
    (parent_we parent_sn nest_we nest_sn ratio i_start j_start : Z) :
  0 < ratio < 2 ^ 53 ->
  0 < nest_we < 2 ^ 53 ->
  0 < nest_sn < 2 ^ 53 ->
  exists ci cj fits,
    ratio * (ci - 1) < nest_we <= ratio * ci /\
    ratio * (cj - 1) < nest_sn <= ratio * cj /\
    check_fit parent_we parent_sn nest_we nest_sn ratio i_start j_start
    = Ok (i_start + ci - 1, j_start + cj - 1, fits) /\
    (fits = true <->
     i_start + ci - 1 <= parent_we /\ j_start + cj - 1 <= parent_sn) /\
    (parent_we < i_start + ci - 1 \/ parent_sn < j_start + cj - 1 ->
     fits = false).
Proof.
  intros Hr Hwe Hsn.
  destruct (ceil_div_spec nest_we ratio Hwe Hr) as (ci & Hci & Hbi).
  destruct (ceil_div_spec nest_sn ratio Hsn Hr) as (cj & Hcj & Hbj).
  exists ci, cj,
    (negb ((parent_we <? i_start + ci - 1) || (parent_sn <? j_start + cj - 1))).
  split; [exact Hbi|]. split; [exact Hbj|].
  split; [unfold check_fit; rewrite Hci, Hcj; reflexivity|].
  destruct (Z.ltb_spec parent_we (i_start + ci - 1));
    destruct (Z.ltb_spec parent_sn (j_start + cj - 1)); simpl;
    split; try split; intros; try discriminate; try reflexivity; lia.
Qed.

Lemma C4_check_fit_witness :
  exists ci cj fits,
    3 * (ci - 1) < 31 <= 3 * ci /\
    3 * (cj - 1) < 31 <= 3 * cj /\
    check_fit 100 100 31 31 3 95 1 = Ok (95 + ci - 1, 1 + cj - 1, fits) /\
    (fits = true <-> 95 + ci - 1 <= 100 /\ 1 + cj - 1 <= 100) /\
    (100 < 95 + ci - 1 \/ 100 < 1 + cj - 1 -> fits = false).
Proof. apply (C4_check_fit_spec 100 100 31 31 3 95 1); lia. Defined.

(** C5 as stated fails: a nest whose footprint is larger than its parent
    is reported as not fitting, is repaired, and still does not fit. *)
Lemma C5_repair_may_not_fit :
  check_fit 10 10 100 100 3 5 5 = Ok (38, 38, false) /\
  repair 10 10 100 100 3 5 5 = Ok (1, 1) /\
  check_fit 10 10 100 100 3 1 1 = Ok (34, 34, false).
Proof. vm_compute. repeat split. Qed.

(** C5 (amended): for a positive ratio and positive nest dimensions, all
    below [2 ^ 53], and a placement reported as not fitting, the adjustment
    sets the start of each exceeded axis independently to
    [max(1, parent_dim - ceil(nest_dim/ratio) + 1)] and leaves the start of
    an axis within bounds unchanged; the adjusted placement fits exactly
    when, on every exceeded axis, the footprint [ceil(nest_dim/ratio)] is no
    larger than the parent dimension. *)
Theorem C5_repair_spec
    (parent_we parent_sn nest_we nest_sn ratio i_start j_start i_end j_end : Z) :
  0 < ratio < 2 ^ 53 ->
  0 < nest_we < 2 ^ 53 ->
  0 < nest_sn < 2 ^ 53 ->
  check_fit parent_we parent_sn nest_we nest_sn ratio i_start j_start
  = Ok (i_end, j_end, false) ->
  exists ci cj new_i new_j fits,
    ratio * (ci - 1) < nest_we <= ratio * ci /\
    ratio * (cj - 1) < nest_sn <= ratio * cj /\
    repair parent_we parent_sn nest_we nest_sn ratio i_start j_start
    = Ok (new_i, new_j) /\
    new_i = (if parent_we <? i_end then Z.max 1 (parent_we - ci + 1)
             else i_start) /\
    new_j = (if parent_sn <? j_end then Z.max 1 (parent_sn - cj + 1)
             else j_start) /\
    check_fit parent_we parent_sn nest_we nest_sn ratio new_i new_j
    = Ok (new_i + ci - 1, new_j + cj - 1, fits) /\
    (fits = true <->
     (parent_we < i_end -> ci <= parent_we) /\
     (parent_sn < j_end -> cj <= parent_sn)).
Proof.
  intros Hr Hwe Hsn Hfit.
  destruct (ceil_div_spec nest_we ratio Hwe Hr) as (ci & Hci & Hbi).
  destruct (ceil_div_spec nest_sn ratio Hsn Hr) as (cj & Hcj & Hbj).
  unfold check_fit in Hfit. rewrite Hci, Hcj in Hfit. simpl in Hfit.
  injection Hfit as Hi Hj Hf.
  set (new_i := if parent_we <? i_end then Z.max 1 (parent_we - ci + 1)
                else i_start).
  set (new_j := if parent_sn <? j_end then Z.max 1 (parent_sn - cj + 1)
                else j_start).
  exists ci, cj, new_i, new_j,
    (negb ((parent_we <? new_i + ci - 1) || (parent_sn <? new_j + cj - 1))).
  split; [exact Hbi|]. split; [exact Hbj|].
  split.
  { unfold repair. rewrite Hci, Hcj. simpl. rewrite Hi, Hj.
    subst new_i new_j.
    destruct (parent_we <? i_end), (parent_sn <? j_end); reflexivity. }
  split; [reflexivity|]. split; [reflexivity|].
  split; [unfold check_fit; rewrite Hci, Hcj; reflexivity|].
  subst new_i new_j.
  destruct (Z.ltb_spec parent_we i_end), (Z.ltb_spec parent_sn j_end);
    destruct (Z.ltb_spec parent_we (Z.max 1 (parent_we - ci + 1) + ci - 1));
    destruct (Z.ltb_spec parent_sn (Z.max 1 (parent_sn - cj + 1) + cj - 1));
    destruct (Z.ltb_spec parent_we (i_start + ci - 1));
    destruct (Z.ltb_spec parent_sn (j_start + cj - 1));
    simpl; split; intros; try split; intros; try discriminate;
    try reflexivity; try lia.
Qed.

Lemma C5_repair_witness :
  exists ci cj new_i new_j fits,
    3 * (ci - 1) < 31 <= 3 * ci /\
    3 * (cj - 1) < 31 <= 3 * cj /\
    repair 100 100 31 31 3 95 1 = Ok (new_i, new_j) /\
    new_i = (if 100 <? 105 then Z.max 1 (100 - ci + 1) else 95) /\
    new_j = (if 100 <? 11 then Z.max 1 (100 - cj + 1) else 1) /\
    check_fit 100 100 31 31 3 new_i new_j
    = Ok (new_i + ci - 1, new_j + cj - 1, fits) /\
    (fits = true <-> (100 < 105 -> ci <= 100) /\ (100 < 11 -> cj <= 100)).
Proof.
  apply (C5_repair_spec 100 100 31 31 3 95 1 105 11);
    first [lia | vm_compute; reflexivity].
Defined.

End Geometry.

(** * The domain list synchroniser *)

Section SyncFacts.

Context {B : Builtins}.

(** ** Dicts *)

Lemma dict_get_set_same (k : string) (v : value) (d : dict) :
  dict_get k (dict_set k v d) = Some v.
Proof.
  induction d as [|[k' v'] d IH]; simpl.
  - rewrite String.eqb_refl. reflexivity.
  - destruct (String.eqb k' k) eqn:E; simpl; rewrite E; auto.
Qed.

Lemma dict_get_set_other (k k' : string) (v : value) (d : dict) :
  k <> k' -> dict_get k' (dict_set k v d) = dict_get k' d.
Proof.
  intros Hk. induction d as [|[k0 v0] d IH]; simpl.
  - destruct (String.eqb_spec k k'); [contradiction | reflexivity].
  - destruct (String.eqb_spec k0 k); simpl.
    + subst. destruct (String.eqb_spec k k'); [contradiction | reflexivity].
    + rewrite IH. reflexivity.
Qed.

Lemma keys_dict_set (k : string) (v : value) (d : dict) :
  dict_get k d <> None -> keys (dict_set k v d) = keys d.
Proof.
  unfold keys. induction d as [|[k0 v0] d IH]; simpl; [congruence|].
  destruct (String.eqb k0 k); simpl; [reflexivity|].
  intros H. rewrite (IH H). reflexivity.
Qed.

Lemma dict_get_none_keys (k : string) (d : dict) :
  dict_get k d = None <-> ~ In k (keys d).
Proof.
  unfold keys. induction d as [|[k0 v0] d IH]; simpl; [tauto|].
  destruct (String.eqb_spec k0 k); [subst|].
  - split; [discriminate | tauto].
  - rewrite IH. tauto.
Qed.

(** ** One pass of the loop body *)

Lemma py_len_nonneg (v : value) (n : Z) : py_len v = Ok n -> 0 <= n.
Proof.
  destruct v as [[| |s]|l]; simpl; intros H; inversion H; lia.
Qed.

Lemma append_to_ok (key : string) (x : scalar) (q q' : dict) :
  append_to key x q = Ok q' ->
  exists l, dict_get key q = Some (VList l) /\
            q' = dict_set key (VList (l ++ [x])) q.
Proof.
  unfold append_to, getitem, bind.
  destruct (dict_get key q) as [[a|l]|]; simpl; try discriminate.
  intros H. inversion H. eauto.
Qed.

Lemma append_to_list (key : string) (x : scalar) (q : dict) (l : list scalar) :
  dict_get key q = Some (VList l) ->
  append_to key x q = Ok (dict_set key (VList (l ++ [x])) q).
Proof. intros H. unfold append_to, getitem. rewrite H. reflexivity. Qed.

Ltac break_result H :=
  repeat match type of H with
         | context [match ?m with _ => _ end] =>
             destruct m eqn:?; try discriminate H
         end.

(** A pass that returns has appended exactly one element to the list
    under [key], or has changed nothing; among the seven list parameters
    the latter happens only for an empty [parent_id] or
    [parent_grid_ratio]. *)
Lemma grow_step_shape (key : string) (q q' : dict) :
  grow_step key q = Ok q' ->
  (exists l x, dict_get key q = Some (VList l) /\
               q' = dict_set key (VList (l ++ [x])) q)
  \/ (q' = q /\
      (In key list_params ->
       (key = "parent_id" \/ key = "parent_grid_ratio") /\
       exists v, dict_get key q = Some v /\ py_len v = Ok 0)).
Proof.
  intros H. unfold grow_step in H.
  destruct (getitem key q) as [cur|] eqn:Hcur; simpl in H; [|discriminate].
  destruct (py_len cur) as [n|] eqn:Hn; simpl in H; [|discriminate].
  assert (dict_get key q = Some cur) as Hget.
  { unfold getitem in Hcur. destruct (dict_get key q); congruence. }
  pose proof (py_len_nonneg _ _ Hn) as Hn0.
  destruct (String.eqb key "parent_id" && (0 <? n)) eqn:E1.
  { left. apply append_to_ok in H as (l & Hl & ->). eauto. }
  destruct (String.eqb key "parent_grid_ratio" && (0 <? n)) eqn:E2.
  { left. unfold bind in H. break_result H;
      apply append_to_ok in H as (l & Hl & ->); eauto. }
  destruct (String.eqb key "i_parent_start" || String.eqb key "j_parent_start")
    eqn:E3.
  { left. unfold append_centred, bind in H. break_result H;
      apply append_to_ok in H as (l & Hl & ->); eauto. }
  destruct (String.eqb key "e_we" || String.eqb key "e_sn") eqn:E4.
  { left. unfold bind in H. break_result H;
      apply append_to_ok in H as (l & Hl & ->); eauto. }
  destruct (String.eqb key "geog_data_res") eqn:E5.
  { left. unfold bind in H. break_result H;
      apply append_to_ok in H as (l & Hl & ->); eauto. }
  right. inversion H; subst q'. split; [reflexivity|].
  intros Hin. simpl in Hin.
  assert (n = 0 -> exists v, dict_get key q = Some v /\ py_len v = Ok 0) as Hz
    by (intros ->; eauto).
  destruct Hin as [<-|[<-|[<-|[<-|[<-|[<-|[<-|[]]]]]]]];
    simpl in E1, E2, E3, E4, E5; try discriminate.
  - split; [auto|]. apply Hz. apply Z.ltb_ge in E1. lia.
  - split; [auto|]. apply Hz. apply Z.ltb_ge in E2. lia.
Qed.

(** ** The loop and the frame *)

(** [q'] is [q] with at most the value under [key] replaced. *)
Definition touches (key : string) (q q' : dict) : Prop :=
  q' = q \/ exists v v', dict_get key q = Some v /\ q' = dict_set key v' q.

Lemma touches_refl (key : string) (q : dict) : touches key q q.
Proof. left. reflexivity. Qed.

Lemma dict_set_set (k : string) (v v' : value) (d : dict) :
  dict_set k v' (dict_set k v d) = dict_set k v' d.
Proof.
  induction d as [|[k0 v0] d IH]; simpl.
  - rewrite String.eqb_refl. reflexivity.
  - destruct (String.eqb k0 k) eqn:E; simpl; rewrite E; congruence.
Qed.

Lemma touches_set (key : string) (q q' : dict) (v' : value) :
  touches key q q' -> dict_get key q <> None ->
  touches key q (dict_set key v' q').
Proof.
  intros [->|(v & v0 & Hv & ->)] Hq.
  - destruct (dict_get key q) as [v|] eqn:E; [|congruence].
    right. eauto.
  - right. exists v, v'. rewrite dict_set_set. auto.
Qed.

Lemma touches_trans (key : string) (q1 q2 q3 : dict) :
  touches key q1 q2 -> touches key q2 q3 -> touches key q1 q3.
Proof.
  intros H12 [->|(v & v' & Hv & ->)]; [exact H12|].
  apply touches_set; [exact H12|].
  destruct H12 as [->|(a & a' & Ha & ->)]; congruence.
Qed.

Lemma touches_get_other (key k : string) (q q' : dict) :
  touches key q q' -> k <> key -> dict_get k q' = dict_get k q.
Proof.
  intros [->|(v & v' & Hv & ->)] Hk; [reflexivity|].
  apply dict_get_set_other. congruence.
Qed.

Lemma touches_keys (key : string) (q q' : dict) :
  touches key q q' -> keys q' = keys q.
Proof.
  intros [->|(v & v' & Hv & ->)]; [reflexivity|].
  apply keys_dict_set. congruence.
Qed.

Lemma touches_absent (key : string) (q q' : dict) :
  touches key q q' -> dict_get key q = None -> q' = q.
Proof. intros [->|(v & v' & Hv & ->)] H; [reflexivity | congruence]. Qed.

Lemma grow_step_touches (key : string) (q q' : dict) :
  grow_step key q = Ok q' -> touches key q q'.
Proof.
  intros H. apply grow_step_shape in H as [(l & x & Hl & ->)|[-> _]].
  - right. eauto.
  - left. reflexivity.
Qed.

Lemma grow_touches (fuel : nat) (key : string) (m : Z) (q : dict) :
  touches key q (snd (grow fuel key m q)).
Proof.
  revert q. induction fuel as [|fuel IH]; intros q; simpl.
  - destruct (_ <- getitem key q ;; _) as [n|e]; [|apply touches_refl].
    destruct (n <? m); apply touches_refl.
  - destruct (_ <- getitem key q ;; _) as [n|e]; [|apply touches_refl].
    destruct (n <? m); [|apply touches_refl].
    destruct (grow_step key q) as [q'|e] eqn:E; [|apply touches_refl].
    eapply touches_trans; [apply grow_step_touches; exact E | apply IH].
Qed.

Lemma sync_length_touches (fuel : nat) (m : Z) (key : string) (q : dict) :
  touches key q (snd (sync_length fuel m key q)).
Proof.
  unfold sync_length.
  destruct (dict_get key q) as [v|] eqn:Hv; [|apply touches_refl].
  pose proof (grow_touches fuel key m q) as Hg.
  destruct (grow fuel key m q) as [[| |] p]; simpl in *; try exact Hg.
  destruct (_ <- getitem key p ;; _) as [v'|e]; simpl; [|exact Hg].
  apply touches_set; [exact Hg | congruence].
Qed.

(** The frame of a run over a list of keys. *)
Lemma for_keys_frame (fuel : nat) (m : Z) (ks : list string) (q : dict) :
  keys (snd (for_keys fuel m ks q)) = keys q /\
  forall k, ~ In k ks ->
            dict_get k (snd (for_keys fuel m ks q)) = dict_get k q.
Proof.
  revert q. induction ks as [|k0 ks IH]; intros q; simpl; [auto|].
  pose proof (sync_length_touches fuel m k0 q) as Ht.
  destruct (sync_length fuel m k0 q) as [st p]; simpl in Ht.
  assert (keys p = keys q /\
          forall k, ~ In k (k0 :: ks) -> dict_get k p = dict_get k q) as Hp.
  { split; [eapply touches_keys; exact Ht|].
    intros k Hk. eapply touches_get_other; [exact Ht|].
    simpl in Hk. intros ->. tauto. }
  destruct st; simpl; try exact Hp.
  destruct Hp as [Hp1 Hp2]. destruct (IH p) as [Hk Hg].
  split; [congruence|].
  intros k Hin. rewrite Hg by (simpl in Hin; tauto).
  apply Hp2. exact Hin.
Qed.

End SyncFacts.

#[local] Arguments Z.add : simpl never.
#[local] Arguments Z.sub : simpl never.
#[local] Arguments Z.mul : simpl never.
#[local] Arguments Z.opp : simpl never.
#[local] Arguments Z.div : simpl never.
#[local] Arguments Z.modulo : simpl never.
#[local] Arguments Z.of_nat : simpl never.
#[local] Arguments Z.to_nat : simpl never.
#[local] Arguments Z.ltb : simpl never.
#[local] Arguments Z.leb : simpl never.
#[local] Arguments Z.eqb : simpl never.
#[local] Arguments Z.max : simpl never.
#[local] Arguments Z.min : simpl never.

Section SyncGrowth.

Context {B : Builtins}.

Lemma dict_set_same_value (k : string) (v : value) (d : dict) :
  dict_get k d = Some v -> dict_set k v d = d.
Proof.
  induction d as [|[k0 v0] d IH]; simpl; [discriminate|].
  destruct (String.eqb_spec k0 k).
  - intros H. inversion H. reflexivity.
  - intros H. rewrite (IH H). reflexivity.
Qed.

Lemma getitem_some (k : string) (d : dict) (v : value) :
  dict_get k d = Some v -> getitem k d = Ok v.
Proof. unfold getitem. intros ->. reflexivity. Qed.

Lemma py_index_last (l : list scalar) (x : scalar) :
  py_index (VList (l ++ [x])) (SInt (-1)) = Ok x.
Proof.
  unfold py_index, norm_index. rewrite length_app.
  change (List.length [x]) with 1%nat.
  replace (-1 <? 0) with true by reflexivity.
  set (len := Z.of_nat (List.length l + 1)).
  assert (len = Z.of_nat (List.length l) + 1) as Hlen by (subst len; lia).
  destruct (Z.ltb_spec (-1 + len) 0); [lia|].
  destruct (Z.leb_spec len (-1 + len)); [lia|]. simpl.
  replace (Z.to_nat (-1 + len)) with (List.length l) by lia.
  rewrite nth_error_app2 by lia. rewrite Nat.sub_diag. reflexivity.
Qed.

Lemma nonempty_last (l : list scalar) :
  l <> [] -> exists l' x, l = (l' ++ [x])%list.
Proof.
  intros H. destruct (exists_last H) as (l' & x & ->). eauto.
Qed.

Lemma len_pos (l : list scalar) :
  l <> [] -> (0 <? Z.of_nat (List.length l)) = true.
Proof. destruct l; [congruence|]. intros _. reflexivity. Qed.

(** What the loop body needs in order to append without raising. *)
Definition ready (key : string) (l : list scalar) (q : dict) : Prop :=
  (key = "parent_id" \/ key = "parent_grid_ratio" -> l <> []) /\
  (key = "i_parent_start" ->
   exists le, dict_get "e_we" q = Some (VList le) /\
              (List.length le <= List.length l)%nat) /\
  (key = "j_parent_start" ->
   exists le, dict_get "e_sn" q = Some (VList le) /\
              (List.length le <= List.length l)%nat) /\
  (key = "e_we" \/ key = "e_sn" ->
   l = [] \/ exists l' v, l = (l' ++ [SInt v])%list).

Lemma start_guard_short (key k dim : string) (l le : list scalar) (q : dict) :
  dict_get dim q = Some (VList le) ->
  (List.length le <= List.length l)%nat ->
  start_guard key k dim (Z.of_nat (List.length l)) q = Ok false.
Proof.
  intros Hd Hle. unfold start_guard.
  destruct (String.eqb key k && (0 <? Z.of_nat (List.length l)));
    [|reflexivity].
  rewrite (getitem_some _ _ _ Hd). simpl.
  destruct (Z.ltb_spec (Z.of_nat (List.length l)) (Z.of_nat (List.length le)));
    [lia | reflexivity].
Qed.

Lemma start_guard_other (key k dim : string) (n : Z) (q : dict) :
  String.eqb key k = false -> start_guard key k dim n q = Ok false.
Proof. unfold start_guard. intros ->. reflexivity. Qed.

Lemma snoc_nonempty (l : list scalar) (x : scalar) : (l ++ [x])%list <> [].
Proof. intros E. apply app_eq_nil in E as [_ E]. discriminate. Qed.

(** The entries that the defaults put in a list parameter: integers, and
    plain strings for [geog_data_res]. *)
Definition entry_ok (key : string) (x : scalar) : bool :=
  if String.eqb key "geog_data_res" then
    match x with
    | SStr s => plain s
    | _ => false
    end
  else
    match x with
    | SInt _ => true
    | _ => false
    end.

Ltac kind_tac :=
  let Hk := fresh "Hk" in
  intros Hk;
  first [ reflexivity
        | rewrite forallb_app in Hk; apply andb_true_iff in Hk as [_ Hk];
          cbn [forallb] in Hk; rewrite andb_true_r in Hk; exact Hk ].

Ltac absurd_key :=
  match goal with
  | H : _ = _ \/ _ = _ |- _ => destruct H; discriminate
  | H : _ = _ |- _ => discriminate H
  end.

Ltac ready_tac := unfold ready; repeat split; intros; try absurd_key.

Lemma grow_step_ready (key : string) (l : list scalar) (q : dict) :
  In key list_params ->
  dict_get key q = Some (VList l) ->
  ready key l q ->
  exists x,
    grow_step key q = Ok (dict_set key (VList (l ++ [x])) q) /\
    ready key (l ++ [x]) (dict_set key (VList (l ++ [x])) q) /\
    (forallb (entry_ok key) l = true -> entry_ok key x = true).
Proof.
  intros Hin Hget (R1 & R2 & R3 & R4).
  pose proof (snoc_nonempty l) as Hne.
  unfold grow_step. rewrite (getitem_some _ _ _ Hget).
  cbn [bind py_len]. simpl in Hin.
  destruct Hin as [<-|[<-|[<-|[<-|[<-|[<-|[<-|[]]]]]]]];
    cbn [String.eqb Ascii.eqb Bool.eqb andb orb].
  - (* parent_id *)
    rewrite len_pos by auto.
    eexists. split; [apply append_to_list; exact Hget|].
    split; [ready_tac; auto | kind_tac].
  - (* parent_grid_ratio *)
    rewrite len_pos by auto.
    destruct (nonempty_last l ltac:(auto)) as (l' & x & ->).
    destruct (Z.of_nat (List.length (l' ++ [x])) =? 1).
    + eexists. split; [apply append_to_list; exact Hget|].
      split; [ready_tac; auto | kind_tac].
    + rewrite py_index_last. cbn [bind].
      eexists. split; [apply append_to_list; exact Hget|].
      split; [ready_tac; auto | kind_tac].
  - (* i_parent_start *)
    destruct (R2 eq_refl) as (le & He & Hle).
    rewrite (start_guard_short _ _ _ l le q He Hle). cbn [bind].
    rewrite start_guard_other by reflexivity. cbn [bind].
    eexists. split; [apply append_to_list; exact Hget|].
    split; [|kind_tac].
    ready_tac.
    exists le. rewrite dict_get_set_other by discriminate.
    split; [exact He|]. rewrite length_app. lia.
  - (* j_parent_start *)
    destruct (R3 eq_refl) as (le & He & Hle).
    rewrite start_guard_other by reflexivity. cbn [bind].
    rewrite (start_guard_short _ _ _ l le q He Hle). cbn [bind].
    eexists. split; [apply append_to_list; exact Hget|].
    split; [|kind_tac].
    ready_tac.
    exists le. rewrite dict_get_set_other by discriminate.
    split; [exact He|]. rewrite length_app. lia.
  - (* e_we *)
    destruct (R4 (or_introl eq_refl)) as [->|(l' & v & ->)].
    + change (0 <? Z.of_nat (List.length (@nil scalar))) with false.
      cbv iota.
      eexists. split; [apply append_to_list; exact Hget|].
      split; [|kind_tac].
      ready_tac. right. do 2 eexists. reflexivity.
    + rewrite len_pos by apply snoc_nonempty. rewrite py_index_last.
      cbn [bind py_mod py_eq_int]. change (2 =? 0) with false. cbv iota.
      cbn [bind py_eq_int].
      destruct (v mod 2 =? 0); cbn [bind py_add];
        (eexists; split; [apply append_to_list; exact Hget|]);
        (split; [ready_tac; right; do 2 eexists; reflexivity | kind_tac]).
  - (* e_sn *)
    destruct (R4 (or_intror eq_refl)) as [->|(l' & v & ->)].
    + change (0 <? Z.of_nat (List.length (@nil scalar))) with false.
      cbv iota.
      eexists. split; [apply append_to_list; exact Hget|].
      split; [|kind_tac].
      ready_tac. right. do 2 eexists. reflexivity.
    + rewrite len_pos by apply snoc_nonempty. rewrite py_index_last.
      cbn [bind py_mod py_eq_int]. change (2 =? 0) with false. cbv iota.
      cbn [bind py_eq_int].
      destruct (v mod 2 =? 0); cbn [bind py_add];
        (eexists; split; [apply append_to_list; exact Hget|]);
        (split; [ready_tac; right; do 2 eexists; reflexivity | kind_tac]).
  - (* geog_data_res *)
    destruct l as [|a l0].
    + change (0 <? Z.of_nat (List.length (@nil scalar))) with false.
      cbv iota.
      eexists. split; [apply append_to_list; exact Hget|].
      split; [ready_tac | kind_tac].
    + destruct (nonempty_last (a :: l0) ltac:(discriminate)) as (l' & x & E).
      rewrite E in *. rewrite len_pos by apply snoc_nonempty.
      rewrite py_index_last.
      cbn [bind].
      eexists. split; [apply append_to_list; exact Hget|].
      split; [ready_tac | kind_tac].
Qed.

End SyncGrowth.

Section SyncLoop.

Context {B : Builtins}.

Lemma grow_measure (fuel : nat) (key : string) (m : Z) (q : dict) :
  grow fuel key m q =
  match (cur <- getitem key q ;; py_len cur) with
  | Raise e => (Raised e, q)
  | Ok n =>
      if n <? m then
        match fuel with
        | O => (Diverged, q)
        | S fuel' =>
            match grow_step key q with
            | Raise e => (Raised e, q)
            | Ok q' => grow fuel' key m q'
            end
        end
      else (Returned, q)
  end.
Proof. destruct fuel; reflexivity. Qed.

(** With enough fuel and a body that is ready to append, the loop returns
    and has only appended. *)
Lemma grow_ready_returns (fuel : nat) (key : string) (m : Z) :
  In key list_params ->
  forall (q : dict) (l : list scalar),
    dict_get key q = Some (VList l) ->
    ready key l q ->
    (Z.to_nat (m - Z.of_nat (List.length l)) <= fuel)%nat ->
    exists ext,
      grow fuel key m q = (Returned, dict_set key (VList (l ++ ext)) q) /\
      Z.of_nat (List.length (l ++ ext)) = Z.max m (Z.of_nat (List.length l)) /\
      (forallb (entry_ok key) l = true ->
       forallb (entry_ok key) (l ++ ext) = true).
Proof.
  intros Hin. induction fuel as [|fuel IH]; intros q l Hget Hr Hf;
    rewrite grow_measure, (getitem_some _ _ _ Hget); cbn [bind py_len].
  - destruct (Z.ltb_spec (Z.of_nat (List.length l)) m); [lia|].
    exists []. rewrite app_nil_r, (dict_set_same_value _ _ _ Hget).
    split; [reflexivity|]. split; [lia | auto].
  - destruct (Z.ltb_spec (Z.of_nat (List.length l)) m) as [Hlt|Hge].
    + destruct (grow_step_ready key l q Hin Hget Hr) as (x & Hs & Hr' & Hx).
      rewrite Hs.
      destruct (IH _ (l ++ [x])%list (dict_get_set_same _ _ _) Hr')
        as (ext & Hg & Hlen & Hk).
      { rewrite length_app. simpl. lia. }
      exists (x :: ext). rewrite Hg, dict_set_set, <- app_assoc.
      split; [reflexivity|].
      rewrite <- app_assoc in Hlen, Hk. simpl in Hlen, Hk. split.
      * rewrite Hlen. rewrite length_app. simpl. lia.
      * intros Hl. apply Hk. rewrite forallb_app, Hl. cbn [forallb].
        rewrite (Hx Hl). reflexivity.
    + exists []. rewrite app_nil_r, (dict_set_same_value _ _ _ Hget).
      split; [reflexivity|]. split; [lia | auto].
Qed.

Lemma slice_stop_all (len m : Z) : 0 <= len <= m -> slice_stop len m = Z.to_nat len.
Proof.
  intros H. unfold slice_stop.
  destruct (Z.ltb_spec m 0); [lia|]. f_equal. lia.
Qed.

Lemma slice_stop_cut (len m : Z) : 0 <= m <= len -> slice_stop len m = Z.to_nat m.
Proof.
  intros H. unfold slice_stop.
  destruct (Z.ltb_spec m 0); [lia|]. f_equal. lia.
Qed.

(** Growing: the value under [key] becomes the old list followed by new
    entries, [m] entries in all. *)
Lemma sync_length_grows (fuel : nat) (key : string) (m : Z) (q : dict)
    (l : list scalar) :
  In key list_params ->
  dict_get key q = Some (VList l) ->
  ready key l q ->
  Z.of_nat (List.length l) <= m ->
  (Z.to_nat (m - Z.of_nat (List.length l)) <= fuel)%nat ->
  exists ext,
    sync_length fuel m key q = (Returned, dict_set key (VList (l ++ ext)) q) /\
    Z.of_nat (List.length (l ++ ext)) = m /\
    (forallb (entry_ok key) l = true ->
     forallb (entry_ok key) (l ++ ext) = true).
Proof.
  intros Hin Hget Hr Hle Hf.
  destruct (grow_ready_returns fuel key m Hin q l Hget Hr Hf)
    as (ext & Hg & Hlen & Hk).
  exists ext. split; [|split; [lia | exact Hk]].
  unfold sync_length. rewrite Hget, Hg.
  rewrite (getitem_some _ _ _ (dict_get_set_same _ _ _)).
  cbn [bind py_slice_to].
  rewrite slice_stop_all by lia.
  rewrite Nat2Z.id, firstn_all, dict_set_set. reflexivity.
Qed.

(** Shrinking (or keeping the length): the first [n] entries stay. *)
Lemma sync_length_shrinks (fuel : nat) (key : string) (n : Z) (q : dict)
    (l : list scalar) :
  dict_get key q = Some (VList l) ->
  0 <= n <= Z.of_nat (List.length l) ->
  sync_length fuel n key q
  = (Returned, dict_set key (VList (firstn (Z.to_nat n) l)) q).
Proof.
  intros Hget Hn. unfold sync_length. rewrite Hget.
  rewrite grow_measure, (getitem_some _ _ _ Hget). cbn [bind py_len].
  destruct (Z.ltb_spec (Z.of_nat (List.length l)) n); [lia|].
  rewrite (getitem_some _ _ _ Hget). cbn [bind py_slice_to].
  rewrite slice_stop_cut by lia. reflexivity.
Qed.

(** ** Runs that return, whatever the mapping *)

(** A loop that returns has only appended to the list under [key]. *)
Lemma grow_returned_prefix (fuel : nat) (key : string) (m : Z) :
  forall (q q' : dict) (l : list scalar),
    grow fuel key m q = (Returned, q') ->
    dict_get key q = Some (VList l) ->
    exists ext,
      q' = dict_set key (VList (l ++ ext)) q /\
      Z.of_nat (List.length (l ++ ext)) = Z.max m (Z.of_nat (List.length l)).
Proof.
  induction fuel as [|fuel IH]; intros q q' l Hrun Hget;
    rewrite grow_measure, (getitem_some _ _ _ Hget) in Hrun;
    cbn [bind py_len] in Hrun.
  - destruct (Z.ltb_spec (Z.of_nat (List.length l)) m); [discriminate|].
    inversion Hrun; subst q'. exists [].
    rewrite app_nil_r, (dict_set_same_value _ _ _ Hget). split; [reflexivity | lia].
  - destruct (Z.ltb_spec (Z.of_nat (List.length l)) m) as [Hlt|Hge].
    + destruct (grow_step key q) as [q1|e] eqn:Hs; [|discriminate].
      apply grow_step_shape in Hs as [(l0 & x & Hl0 & ->)|(-> & _)].
      * rewrite Hget in Hl0. inversion Hl0; subst l0.
        destruct (IH _ _ (l ++ [x])%list Hrun (dict_get_set_same _ _ _))
          as (ext & -> & Hlen).
        exists (x :: ext). rewrite dict_set_set, <- app_assoc.
        split; [reflexivity|].
        rewrite <- app_assoc in Hlen. simpl in Hlen. rewrite Hlen.
        rewrite length_app. simpl. lia.
      * exact (IH q q' l Hrun Hget).
    + inversion Hrun; subst q'. exists [].
      rewrite app_nil_r, (dict_set_same_value _ _ _ Hget).
      split; [reflexivity | lia].
Qed.

Lemma sync_length_returned (fuel : nat) (key : string) (m : Z) (q q' : dict)
    (l : list scalar) :
  sync_length fuel m key q = (Returned, q') ->
  dict_get key q = Some (VList l) ->
  Z.of_nat (List.length l) <= m ->
  exists ext,
    q' = dict_set key (VList (l ++ ext)) q /\
    Z.of_nat (List.length (l ++ ext)) = m.
Proof.
  intros Hrun Hget Hle. unfold sync_length in Hrun. rewrite Hget in Hrun.
  destruct (grow fuel key m q) as [[| |] p] eqn:Hg; try discriminate.
  destruct (grow_returned_prefix fuel key m q p l Hg Hget) as (ext & -> & Hlen).
  rewrite (getitem_some _ _ _ (dict_get_set_same _ _ _)) in Hrun.
  cbn [bind py_slice_to] in Hrun.
  rewrite slice_stop_all in Hrun by lia.
  rewrite Nat2Z.id, firstn_all, dict_set_set in Hrun.
  inversion Hrun. exists ext. split; [reflexivity | lia].
Qed.

Lemma for_keys_returned_step (fuel : nat) (m : Z) (k : string)
    (ks : list string) (q q' : dict) :
  for_keys fuel m (k :: ks) q = (Returned, q') ->
  exists q1, sync_length fuel m k q = (Returned, q1) /\
             for_keys fuel m ks q1 = (Returned, q').
Proof.
  simpl. destruct (sync_length fuel m k q) as [[| |] p]; try discriminate.
  intros H. exists p. auto.
Qed.

(** A run over distinct keys that returns leaves, under each of them that
    held a list no longer than the target, that list followed by new
    entries. *)
Lemma returned_pass (fuel : nat) (m : Z) (ks : list string) :
  NoDup ks ->
  forall q q' : dict,
    for_keys fuel m ks q = (Returned, q') ->
    forall k l, In k ks -> dict_get k q = Some (VList l) ->
      Z.of_nat (List.length l) <= m ->
      exists ext, dict_get k q' = Some (VList (l ++ ext)) /\
                  Z.of_nat (List.length (l ++ ext)) = m.
Proof.
  induction 1 as [|k0 ks Hk0 Hnd IH]; intros q q' Hrun k l Hin Hget Hle;
    [destruct Hin|].
  apply for_keys_returned_step in Hrun as (q1 & Hs & Hrest).
  pose proof (for_keys_frame fuel m ks q1) as [_ Hfr].
  rewrite Hrest in Hfr. cbn [snd] in Hfr.
  destruct Hin as [<-|Hin].
  - destruct (sync_length_returned fuel k0 m q q1 l Hs Hget Hle)
      as (ext & -> & Hlen).
    exists ext. split; [|exact Hlen].
    rewrite (Hfr k0 Hk0). apply dict_get_set_same.
  - apply (IH q1 q' Hrest k l Hin); [|exact Hle].
    pose proof (sync_length_touches fuel m k0 q) as Ht.
    rewrite Hs in Ht. cbn [snd] in Ht.
    rewrite (touches_get_other k0 k q q1 Ht) by (intros ->; contradiction).
    exact Hget.
Qed.

(** A run over distinct keys that returns keeps, under each of them that
    held a list at least as long as the target, the first entries. *)
Lemma returned_shrink_pass (fuel : nat) (n : Z) (ks : list string) :
  NoDup ks ->
  forall q q' : dict,
    for_keys fuel n ks q = (Returned, q') ->
    forall k l, In k ks -> dict_get k q = Some (VList l) ->
      0 <= n <= Z.of_nat (List.length l) ->
      dict_get k q' = Some (VList (firstn (Z.to_nat n) l)).
Proof.
  induction 1 as [|k0 ks Hk0 Hnd IH]; intros q q' Hrun k l Hin Hget Hn;
    [destruct Hin|].
  apply for_keys_returned_step in Hrun as (q1 & Hs & Hrest).
  pose proof (for_keys_frame fuel n ks q1) as [_ Hfr].
  rewrite Hrest in Hfr. cbn [snd] in Hfr.
  destruct Hin as [<-|Hin].
  - rewrite (sync_length_shrinks fuel k0 n q l Hget Hn) in Hs.
    inversion Hs; subst q1.
    rewrite (Hfr k0 Hk0). apply dict_get_set_same.
  - apply (IH q1 q' Hrest k l Hin); [|exact Hn].
    pose proof (sync_length_touches fuel n k0 q) as Ht.
    rewrite Hs in Ht. cbn [snd] in Ht.
    rewrite (touches_get_other k0 k q q1 Ht) by (intros ->; contradiction).
    exact Hget.
Qed.

(** ** Termination of the loop *)

Definition chain_nonempty (key : string) (q : dict) : Prop :=
  key = "parent_id" \/ key = "parent_grid_ratio" ->
  forall v, dict_get key q = Some v -> exists l, v = VList l /\ l <> [].

Lemma grow_terminates (fuel : nat) (key : string) (m : Z) :
  In key list_params ->
  forall q : dict,
    chain_nonempty key q ->
    (forall v n, dict_get key q = Some v -> py_len v = Ok n ->
                 (Z.to_nat (m - n) <= fuel)%nat) ->
    fst (grow fuel key m q) <> Diverged.
Proof.
  intros Hin. induction fuel as [|fuel IH]; intros q Hc Hf;
    rewrite grow_measure; unfold getitem, bind.
  - destruct (dict_get key q) as [v|] eqn:Hv; [|discriminate].
    destruct (py_len v) as [n|] eqn:Hn; [|discriminate].
    destruct (Z.ltb_spec n m); [|discriminate].
    specialize (Hf v n eq_refl Hn). lia.
  - destruct (dict_get key q) as [v|] eqn:Hv; [|discriminate].
    destruct (py_len v) as [n|] eqn:Hn; [|discriminate].
    destruct (Z.ltb_spec n m) as [Hlt|]; [|discriminate].
    destruct (grow_step key q) as [q'|e] eqn:Hs; [|discriminate].
    apply grow_step_shape in Hs as [(l & x & Hl & ->)|(-> & Hbad)].
    + apply IH.
      * intros _ v' Hv'. rewrite dict_get_set_same in Hv'.
        inversion Hv'. exists (l ++ [x])%list.
        split; [reflexivity | apply snoc_nonempty].
      * intros v' n' Hv' Hn'. rewrite dict_get_set_same in Hv'.
        inversion Hv'; subst v'. simpl in Hn'. inversion Hn'; subst n'.
        rewrite Hl in Hv. inversion Hv; subst v. simpl in Hn.
        inversion Hn; subst n.
        pose proof (Hf (VList l) _ eq_refl eq_refl) as Hf'.
        rewrite length_app. simpl. lia.
    + exfalso. destruct (Hbad Hin) as (Hk & v0 & Hv0 & Hz).
      destruct (Hc Hk v0 Hv0) as (l & -> & Hne).
      simpl in Hz. inversion Hz. destruct l; [congruence | discriminate].
Qed.

Lemma sync_length_terminates (fuel : nat) (key : string) (m : Z) (q : dict) :
  In key list_params ->
  chain_nonempty key q ->
  (Z.to_nat m <= fuel)%nat ->
  fst (sync_length fuel m key q) <> Diverged.
Proof.
  intros Hin Hc Hf. unfold sync_length.
  destruct (dict_get key q) as [v|] eqn:Hv; [|discriminate].
  pose proof (grow_terminates fuel key m Hin q Hc) as Hg.
  destruct (grow fuel key m q) as [[| |] p]; simpl in *.
  - destruct (_ <- getitem key p ;; _); discriminate.
  - discriminate.
  - apply Hg. intros v' n Hv' Hn. pose proof (py_len_nonneg _ _ Hn). lia.
Qed.

Lemma for_keys_terminates (fuel : nat) (m : Z) (ks : list string) :
  NoDup ks ->
  (forall k, In k ks -> In k list_params) ->
  (Z.to_nat m <= fuel)%nat ->
  forall q : dict,
    (forall k, In k ks -> chain_nonempty k q) ->
    fst (for_keys fuel m ks q) <> Diverged.
Proof.
  intros Hnd Hsub Hf. induction ks as [|k ks IH]; intros q Hc; simpl;
    [discriminate|].
  pose proof (sync_length_terminates fuel k m q
                (Hsub k (or_introl eq_refl)) (Hc k (or_introl eq_refl)) Hf)
    as Ht.
  pose proof (sync_length_touches fuel m k q) as Hq.
  destruct (sync_length fuel m k q) as [[| |] p]; simpl in *;
    try discriminate; try congruence.
  inversion Hnd as [|? ? Hk Hnd']; subst.
  apply IH; auto.
  intros k' Hk' Hor v Hv.
  rewrite (touches_get_other k k' q p Hq) in Hv by (intros ->; contradiction).
  exact (Hc k' (or_intror Hk') Hor v Hv).
Qed.

Lemma list_params_nodup : NoDup list_params.
Proof.
  unfold list_params.
  repeat (constructor; [simpl; intuition discriminate|]). constructor.
Qed.

(** The run that never ends: an empty [parent_id] and a positive target. *)
Lemma grow_empty_parent_id (fuel : nat) :
  grow fuel "parent_id" 1 [("parent_id", VList [])]
  = (Diverged, [("parent_id", VList [])]).
Proof. induction fuel as [|fuel IH]; [reflexivity|]. rewrite grow_measure. exact IH. Qed.

(** ** More fuel does not change a run that has ended *)

Lemma grow_more_fuel (fuel : nat) (key : string) (m : Z) :
  forall (q : dict) (fuel' : nat),
    fst (grow fuel key m q) <> Diverged -> (fuel <= fuel')%nat ->
    grow fuel' key m q = grow fuel key m q.
Proof.
  induction fuel as [|fuel IH]; intros q fuel' Hd Hle;
    rewrite (grow_measure fuel'); rewrite grow_measure in Hd |- *.
  - destruct (_ <- getitem key q ;; _) as [n|e]; [|reflexivity].
    destruct (n <? m); [|reflexivity]. simpl in Hd. congruence.
  - destruct (_ <- getitem key q ;; _) as [n|e]; [|reflexivity].
    destruct (n <? m); [|reflexivity].
    destruct fuel' as [|fuel']; [lia|].
    destruct (grow_step key q) as [q'|e]; [|reflexivity].
    apply IH; [exact Hd | lia].
Qed.

Lemma sync_length_more_fuel (fuel fuel' : nat) (m : Z) (key : string) (q : dict) :
  fst (sync_length fuel m key q) <> Diverged -> (fuel <= fuel')%nat ->
  sync_length fuel' m key q = sync_length fuel m key q.
Proof.
  unfold sync_length. destruct (dict_get key q); [|reflexivity].
  intros Hd Hle. rewrite (grow_more_fuel fuel key m q fuel'); auto.
  destruct (grow fuel key m q) as [[| |] p]; simpl in *; congruence.
Qed.

Lemma for_keys_more_fuel (fuel fuel' : nat) (m : Z) (ks : list string) :
  (fuel <= fuel')%nat ->
  forall q : dict,
    fst (for_keys fuel m ks q) <> Diverged ->
    for_keys fuel' m ks q = for_keys fuel m ks q.
Proof.
  intros Hle. induction ks as [|k ks IH]; intros q Hd; [reflexivity|].
  simpl in *. rewrite (sync_length_more_fuel fuel fuel' m k q); auto.
  - destruct (sync_length fuel m k q) as [[| |] p]; auto.
  - destruct (sync_length fuel m k q) as [[| |] p]; simpl in *; congruence.
Qed.

Lemma adjust_more_fuel (fuel fuel' : nat) (params : dict) (m : Z) :
  fst (adjust_params_for_max_dom fuel params m) <> Diverged ->
  (fuel <= fuel')%nat ->
  adjust_params_for_max_dom fuel' params m
  = adjust_params_for_max_dom fuel params m.
Proof. intros Hd Hle. apply for_keys_more_fuel; assumption. Qed.

End SyncLoop.

(** * Claims about the synchroniser *)

(** A geogrid section with [n] domains: every list parameter that is
    present holds a list of [n] entries, a start list comes with the
    dimension list it is centred on, and the dimension lists end in an
    integer. *)
Section SectionState.

Context {B : Builtins}.

Definition last_is_int (l : list scalar) : bool :=
  match last l (SInt 0) with
  | SInt _ => true
  | _ => false
  end.

Definition list_of_length (n : Z) (o : option value) : bool :=
  match o with
  | None => true
  | Some (VList l) => Z.of_nat (List.length l) =? n
  | Some (VScalar _) => false
  end.

Definition present (o : option value) : bool :=
  match o with
  | Some _ => true
  | None => false
  end.

Definition int_ended (o : option value) : bool :=
  match o with
  | Some (VList l) => last_is_int l
  | _ => true
  end.

Definition section_state (n : Z) (p : dict) : bool :=
  forallb (fun k => list_of_length n (dict_get k p)) list_params
  && implb (present (dict_get "i_parent_start" p)) (present (dict_get "e_we" p))
  && implb (present (dict_get "j_parent_start" p)) (present (dict_get "e_sn" p))
  && int_ended (dict_get "e_we" p)
  && int_ended (dict_get "e_sn" p).

(** The order in which keys are still to be synchronised keeps each
    dimension list after the start list that reads it. *)
Fixpoint order_ok (todo : list string) : bool :=
  match todo with
  | [] => true
  | k :: rest =>
      negb (mem_string k rest)
      && (if String.eqb k "i_parent_start" then mem_string "e_we" rest else true)
      && (if String.eqb k "j_parent_start" then mem_string "e_sn" rest else true)
      && order_ok rest
  end.

Lemma mem_string_In (k : string) (l : list string) :
  mem_string k l = true <-> In k l.
Proof.
  unfold mem_string. rewrite existsb_exists. split.
  - intros (x & Hx & E). apply String.eqb_eq in E. subst. exact Hx.
  - intros H. exists k. split; [exact H | apply String.eqb_refl].
Qed.

Lemma section_state_list (n : Z) (p : dict) (k : string) (v : value) :
  section_state n p = true -> In k list_params -> dict_get k p = Some v ->
  exists l, v = VList l /\ Z.of_nat (List.length l) = n.
Proof.
  unfold section_state. rewrite !andb_true_iff.
  intros ((((H & _) & _) & _) & _) Hin Hv.
  rewrite forallb_forall in H. specialize (H k Hin). rewrite Hv in H.
  destruct v as [a|l]; simpl in H; [discriminate|].
  exists l. split; [reflexivity|]. apply Z.eqb_eq. exact H.
Qed.

Lemma last_is_int_snoc (l : list scalar) :
  l <> [] -> last_is_int l = true -> exists l' v, l = (l' ++ [SInt v])%list.
Proof.
  intros Hne H. unfold last_is_int in H.
  exists (removelast l).
  destruct (last l (SInt 0)) as [v| |] eqn:E; try discriminate.
  exists v. rewrite <- E. apply app_removelast_last. exact Hne.
Qed.

Lemma section_state_ready (n : Z) (p q : dict) (k : string) (l : list scalar)
    (rest : list string) :
  1 <= n ->
  section_state n p = true ->
  In k list_params ->
  order_ok (k :: rest) = true ->
  (forall k', In k' (k :: rest) -> dict_get k' q = dict_get k' p) ->
  (forall k', In k' rest -> In k' list_params) ->
  dict_get k q = Some (VList l) ->
  ready k l q.
Proof.
  intros Hn Hs Hin Ho Hq Hsub Hget.
  assert (dict_get k p = Some (VList l)) as Hp
    by (rewrite <- Hq by (left; reflexivity); exact Hget).
  destruct (section_state_list n p k _ Hs Hin Hp) as (l0 & E & Hlen).
  inversion E; subst l0. clear E.
  assert (l <> []) as Hne by (intros ->; simpl in Hlen; lia).
  simpl in Ho. rewrite !andb_true_iff in Ho.
  destruct Ho as (((_ & Hoi) & Hoj) & _).
  pose proof Hs as Hs'. unfold section_state in Hs'.
  rewrite !andb_true_iff in Hs'.
  destruct Hs' as ((((_ & Hi) & Hj) & Hwe) & Hsn).
  unfold ready. repeat split.
  - intros _. exact Hne.
  - intros ->. simpl in Hoi. apply mem_string_In in Hoi.
    rewrite Hp in Hi. simpl in Hi.
    destruct (dict_get "e_we" p) as [v|] eqn:Hv; [|discriminate].
    destruct (section_state_list n p "e_we" v Hs (Hsub _ Hoi) Hv)
      as (le & -> & Hle).
    exists le. rewrite Hq by (right; exact Hoi). split; [exact Hv | lia].
  - intros ->. simpl in Hoj. apply mem_string_In in Hoj.
    rewrite Hp in Hj. simpl in Hj.
    destruct (dict_get "e_sn" p) as [v|] eqn:Hv; [|discriminate].
    destruct (section_state_list n p "e_sn" v Hs (Hsub _ Hoj) Hv)
      as (le & -> & Hle).
    exists le. rewrite Hq by (right; exact Hoj). split; [exact Hv | lia].
  - intros [->| ->]; right.
    + rewrite Hp in Hwe. apply last_is_int_snoc; assumption.
    + rewrite Hp in Hsn. apply last_is_int_snoc; assumption.
Qed.

(** The growing run over the keys still to do. *)
Lemma grow_pass (fuel : nat) (n m : Z) (p : dict) :
  1 <= n <= m ->
  section_state n p = true ->
  (Z.to_nat (m - n) <= fuel)%nat ->
  forall (todo : list string) (q : dict),
    order_ok todo = true ->
    (forall k, In k todo -> In k list_params) ->
    (forall k, In k todo -> dict_get k q = dict_get k p) ->
    exists q',
      for_keys fuel m todo q = (Returned, q') /\
      forall k l, In k todo -> dict_get k q = Some (VList l) ->
        exists ext, dict_get k q' = Some (VList (l ++ ext)) /\
                    Z.of_nat (List.length (l ++ ext)) = m /\
                    (forallb (entry_ok k) l = true ->
                     forallb (entry_ok k) (l ++ ext) = true).
Proof.
  intros Hn Hs Hf. induction todo as [|k rest IH]; intros q Ho Hsub Hq.
  - exists q. split; [reflexivity|]. intros k l [].
  - assert (~ In k rest) as Hk.
    { simpl in Ho. rewrite !andb_true_iff in Ho.
      destruct Ho as (((Hm & _) & _) & _).
      apply negb_true_iff in Hm. intros Hin.
      apply mem_string_In in Hin. congruence. }
    assert (order_ok rest = true) as Ho'.
    { simpl in Ho. rewrite !andb_true_iff in Ho. tauto. }
    simpl for_keys.
    destruct (dict_get k q) as [v|] eqn:Hv.
    + assert (dict_get k p = Some v) as Hp
        by (rewrite <- Hq by (left; reflexivity); exact Hv).
      destruct (section_state_list n p k v Hs (Hsub k (or_introl eq_refl)) Hp)
        as (l & -> & Hlen).
      destruct (sync_length_grows fuel k m q l (Hsub k (or_introl eq_refl)) Hv)
        as (ext & Hsync & Hm & Hkind); try lia.
      { apply (section_state_ready n p q k l rest);
          [ lia | exact Hs | apply Hsub; left; reflexivity | exact Ho
          | exact Hq | intros k' Hk'; apply Hsub; right; exact Hk'
          | exact Hv ]. }
      rewrite Hsync.
      destruct (IH (dict_set k (VList (l ++ ext)) q) Ho') as (q' & Hrun & Hres).
      { intros k' Hk'. apply Hsub. right. exact Hk'. }
      { intros k' Hk'. rewrite dict_get_set_other by (intros ->; contradiction).
        apply Hq. right. exact Hk'. }
      exists q'. split; [exact Hrun|].
      intros k' l' [<-|Hk'] Hl'.
      * rewrite Hv in Hl'. inversion Hl'; subst l'. exists ext.
        split; [|split; [exact Hm | exact Hkind]].
        pose proof (for_keys_frame fuel m rest (dict_set k (VList (l ++ ext)) q))
          as [_ Hfr].
        rewrite Hrun in Hfr. simpl in Hfr. rewrite (Hfr k Hk).
        apply dict_get_set_same.
      * apply Hres; [exact Hk'|].
        rewrite dict_get_set_other by (intros ->; contradiction). exact Hl'.
    + assert (sync_length fuel m k q = (Returned, q)) as Hsync
        by (unfold sync_length; rewrite Hv; reflexivity).
      rewrite Hsync.
      destruct (IH q Ho') as (q' & Hrun & Hres).
      { intros k' Hk'. apply Hsub. right. exact Hk'. }
      { intros k' Hk'. apply Hq. right. exact Hk'. }
      exists q'. split; [exact Hrun|].
      intros k' l' [<-|Hk'] Hl'; [congruence|]. apply Hres; assumption.
Qed.

(** The shrinking run. *)
Lemma shrink_pass (fuel : nat) (n : Z) :
  0 <= n ->
  forall (ks : list string) (q : dict),
    NoDup ks ->
    (forall k v, In k ks -> dict_get k q = Some v ->
                 exists l, v = VList l /\ n <= Z.of_nat (List.length l)) ->
    exists q',
      for_keys fuel n ks q = (Returned, q') /\
      forall k l, In k ks -> dict_get k q = Some (VList l) ->
                  dict_get k q' = Some (VList (firstn (Z.to_nat n) l)).
Proof.
  intros Hn. induction ks as [|k rest IH]; intros q Hnd Hq.
  - exists q. split; [reflexivity|]. intros k l [].
  - inversion Hnd as [|? ? Hk Hnd']; subst. simpl for_keys.
    destruct (dict_get k q) as [v|] eqn:Hv.
    + destruct (Hq k v (or_introl eq_refl) Hv) as (l & -> & Hlen).
      rewrite (sync_length_shrinks fuel k n q l Hv) by lia.
      set (q1 := dict_set k (VList (firstn (Z.to_nat n) l)) q).
      destruct (IH q1 Hnd') as (q' & Hrun & Hres).
      { intros k' v' Hk' Hv'. subst q1.
        rewrite dict_get_set_other in Hv' by (intros ->; contradiction).
        apply (Hq k' v'); [right; exact Hk' | exact Hv']. }
      exists q'. split; [exact Hrun|].
      intros k' l' [<-|Hk'] Hl'.
      * rewrite Hv in Hl'. inversion Hl'; subst l'.
        pose proof (for_keys_frame fuel n rest q1) as [_ Hfr].
        rewrite Hrun in Hfr. simpl in Hfr. rewrite (Hfr k Hk).
        apply dict_get_set_same.
      * apply Hres; [exact Hk'|]. subst q1.
        rewrite dict_get_set_other by (intros ->; contradiction). exact Hl'.
    + assert (sync_length fuel n k q = (Returned, q)) as Hsync
        by (unfold sync_length; rewrite Hv; reflexivity).
      rewrite Hsync.
      destruct (IH q Hnd') as (q' & Hrun & Hres).
      { intros k' v' Hk' Hv'. apply (Hq k' v'); [right; exact Hk' | exact Hv']. }
      exists q'. split; [exact Hrun|].
      intros k' l' [<-|Hk'] Hl'; [congruence|]. apply Hres; assumption.
Qed.

(** A run whose target is the present length changes nothing. *)
Lemma same_length_pass (fuel : nat) (n : Z) (ks : list string) (q : dict) :
  (forall k v, In k ks -> dict_get k q = Some v ->
               exists l, v = VList l /\ Z.of_nat (List.length l) = n) ->
  for_keys fuel n ks q = (Returned, q).
Proof.
  induction ks as [|k rest IH]; intros Hq; [reflexivity|]. simpl.
  assert (sync_length fuel n k q = (Returned, q)) as Hsync.
  { destruct (dict_get k q) as [v|] eqn:Hv.
    - destruct (Hq k v (or_introl eq_refl) Hv) as (l & -> & Hlen).
      rewrite (sync_length_shrinks fuel k n q l Hv) by lia.
      replace (Z.to_nat n) with (List.length l) by lia.
      rewrite firstn_all, (dict_set_same_value _ _ _ Hv). reflexivity.
    - unfold sync_length. rewrite Hv. reflexivity. }
  rewrite Hsync. apply IH.
  intros k' v' Hk' Hv'. apply (Hq k' v'); [right; exact Hk' | exact Hv'].
Qed.

End SectionState.

Section SyncClaims.

Context {B : Builtins}.

(** C6: when the loop grows [e_we] (or [e_sn]), the appended entry is 100
    for an empty list and otherwise the previous entry, incremented by 1
    when that entry is even; growing [e_we] from [[100]] to length 3 gives
    exactly [[100, 101, 101]]. *)
Theorem C6_grid_size_growth :
  (forall (key : string) (params : dict) (l : list scalar),
      key = "e_we" \/ key = "e_sn" ->
      dict_get key params = Some (VList l) ->
      (l = [] ->
       grow_step key params = Ok (dict_set key (VList [SInt 100]) params)) /\
      (forall l' v, l = (l' ++ [SInt v])%list ->
         grow_step key params
         = Ok (dict_set key
                 (VList (l ++ [SInt (if v mod 2 =? 0 then v + 1 else v)]))
                 params))) /\
  (forall fuel, (2 <= fuel)%nat ->
     adjust_params_for_max_dom fuel [("e_we", VList [SInt 100])] 3
     = (Returned, [("e_we", VList [SInt 100; SInt 101; SInt 101])])).
Proof.
  split.
  - intros key params l Hkey Hget. split.
    + intros ->. unfold grow_step. rewrite (getitem_some _ _ _ Hget).
      cbn [bind py_len].
      change (0 <? Z.of_nat (List.length (@nil scalar))) with false.
      destruct Hkey as [-> | ->];
        cbn [String.eqb Ascii.eqb Bool.eqb andb orb];
        apply (append_to_list _ _ _ [] Hget).
    + intros l' v ->. unfold grow_step. rewrite (getitem_some _ _ _ Hget).
      cbn [bind py_len]. rewrite len_pos by apply snoc_nonempty.
      destruct Hkey as [-> | ->];
        cbn [String.eqb Ascii.eqb Bool.eqb andb orb];
        rewrite py_index_last; cbn [bind py_mod py_eq_int];
        change (2 =? 0) with false; cbv iota; cbn [bind py_eq_int];
        destruct (v mod 2 =? 0); cbn [bind py_add];
        apply (append_to_list _ _ _ _ Hget).
  - intros fuel Hf.
    rewrite (adjust_more_fuel 2 fuel) by (vm_compute; congruence || lia).
    reflexivity.
Qed.

(** C7: whenever synchronising to a target [m] and then back to [n <= m]
    both return, every list parameter that held [n] entries holds the same
    [n] entries again (growth only appends, trimming keeps the first
    entries); in a geogrid section with [n >= 1] domains both runs do
    return, every list parameter of the grown section is its original list
    followed by new entries, the restored section has the original value
    under every key, and a run whose target is the current length returns
    the section unchanged. *)
Theorem C7_grow_then_shrink_restores :
  (forall (params grown restored : dict) (n m : Z) (fuel fuel' : nat),
      adjust_params_for_max_dom fuel params m = (Returned, grown) ->
      adjust_params_for_max_dom fuel' grown n = (Returned, restored) ->
      n <= m ->
      forall k l, In k list_params ->
        dict_get k params = Some (VList l) ->
        Z.of_nat (List.length l) = n ->
        dict_get k restored = Some (VList l)) /\
  (forall (params : dict) (n m : Z) (fuel : nat),
      1 <= n -> n <= m ->
      section_state n params = true ->
      (Z.to_nat (m - n) <= fuel)%nat ->
      exists grown restored,
        adjust_params_for_max_dom fuel params m = (Returned, grown) /\
        (forall k l, In k list_params -> dict_get k params = Some (VList l) ->
           exists ext, dict_get k grown = Some (VList (l ++ ext)) /\
                       Z.of_nat (List.length (l ++ ext)) = m) /\
        adjust_params_for_max_dom fuel grown n = (Returned, restored) /\
        (forall k, dict_get k restored = dict_get k params) /\
        keys restored = keys params /\
        (forall fuel', adjust_params_for_max_dom fuel' params n
                       = (Returned, params))).
Proof.
  split.
  { intros params grown restored n m fuel fuel' Hg Hr Hnm k l Hk Hl Hlen.
    unfold adjust_params_for_max_dom in *.
    destruct (returned_pass fuel m list_params list_params_nodup
                params grown Hg k l Hk Hl ltac:(lia)) as (ext & Hgl & Hm).
    rewrite (returned_shrink_pass fuel' n list_params list_params_nodup
               grown restored Hr k (l ++ ext) Hk Hgl ltac:(lia)).
    replace (Z.to_nat n) with (List.length l + 0)%nat by lia.
    rewrite firstn_app_2. simpl. rewrite app_nil_r. reflexivity. }
  intros params n m fuel Hn Hnm Hs Hf. unfold adjust_params_for_max_dom.
  destruct (grow_pass fuel n m params ltac:(lia) Hs Hf list_params params)
    as (grown & Hrun & Hgrown); [reflexivity | auto | auto |].
  pose proof (for_keys_frame fuel m list_params params) as [Hk1 Hf1].
  rewrite Hrun in Hk1, Hf1. simpl in Hk1, Hf1.
  destruct (shrink_pass fuel n ltac:(lia) list_params grown list_params_nodup)
    as (restored & Hrun2 & Hres).
  { intros k v Hk Hv.
    destruct (dict_get k params) as [v0|] eqn:Hv0.
    - destruct (section_state_list n params k v0 Hs Hk Hv0) as (l & -> & Hl).
      destruct (Hgrown k l Hk Hv0) as (ext & Hg & Hlen & _).
      rewrite Hg in Hv. inversion Hv. exists (l ++ ext)%list.
      split; [reflexivity | lia].
    - apply dict_get_none_keys in Hv0. rewrite <- Hk1 in Hv0.
      apply dict_get_none_keys in Hv0. congruence. }
  pose proof (for_keys_frame fuel n list_params grown) as [Hk2 Hf2].
  rewrite Hrun2 in Hk2, Hf2. simpl in Hk2, Hf2.
  exists grown, restored.
  split; [exact Hrun|].
  split.
  { intros k l Hk Hl. destruct (Hgrown k l Hk Hl) as (ext & Hg & Hlen & _).
    exists ext. auto. }
  split; [exact Hrun2|].
  split; [|split; [congruence|]].
  - intros k. destruct (in_dec string_dec k list_params) as [Hk|Hk].
    + destruct (dict_get k params) as [v0|] eqn:Hv0.
      * destruct (section_state_list n params k v0 Hs Hk Hv0) as (l & -> & Hl).
        destruct (Hgrown k l Hk Hv0) as (ext & Hg & Hlen & _).
        rewrite (Hres k _ Hk Hg).
        replace (Z.to_nat n) with (List.length l + 0)%nat by lia.
        rewrite firstn_app_2. simpl. rewrite app_nil_r. reflexivity.
      * apply dict_get_none_keys. rewrite Hk2, Hk1.
        apply dict_get_none_keys. exact Hv0.
    + rewrite Hf2, Hf1 by exact Hk. reflexivity.
  - intros fuel'. apply same_length_pass.
    intros k v Hk Hv. exact (section_state_list n params k v Hs Hk Hv).
Qed.

(** C9: when [parent_id] and [parent_grid_ratio], if present, hold
    non-empty lists, a run with enough fuel ends (it returns or raises) for
    every target of at least 1, each pass of the loop body that returns
    having appended exactly one element to the list being grown; without
    the non-emptiness the run need not end: an empty [parent_id] with
    target 1 never ends. *)
Theorem C9_sync_terminates :
  (forall (params : dict) (max_dom : Z) (fuel : nat),
      (forall k v, k = "parent_id" \/ k = "parent_grid_ratio" ->
                   dict_get k params = Some v ->
                   exists l, v = VList l /\ l <> []) ->
      1 <= max_dom ->
      (Z.to_nat max_dom <= fuel)%nat ->
      fst (adjust_params_for_max_dom fuel params max_dom) <> Diverged) /\
  (forall (key : string) (q q' : dict),
      In key list_params ->
      (forall v, key = "parent_id" \/ key = "parent_grid_ratio" ->
                 dict_get key q = Some v -> exists l, v = VList l /\ l <> []) ->
      grow_step key q = Ok q' ->
      exists l x, dict_get key q = Some (VList l) /\
                  q' = dict_set key (VList (l ++ [x])) q) /\
  (forall fuel,
      fst (adjust_params_for_max_dom fuel [("parent_id", VList [])] 1)
      = Diverged).
Proof.
  split; [|split].
  - intros params max_dom fuel Hc Hm Hf. unfold adjust_params_for_max_dom.
    apply for_keys_terminates; auto using list_params_nodup.
    intros k _ Hk v Hv. exact (Hc k v Hk Hv).
  - intros key q q' Hin Hc Hs.
    apply grow_step_shape in Hs as [Hs|(-> & Hbad)]; [exact Hs|].
    exfalso. destruct (Hbad Hin) as (Hk & v0 & Hv0 & Hz).
    destruct (Hc v0 Hk Hv0) as (l & -> & Hne).
    simpl in Hz. inversion Hz. destruct l; [congruence | discriminate].
  - intros fuel. unfold adjust_params_for_max_dom. cbn [list_params for_keys].
    unfold sync_length at 1. cbn [dict_get String.eqb Ascii.eqb Bool.eqb].
    rewrite grow_empty_parent_id. reflexivity.
Qed.

(** C10: whatever the mapping, the target and the way the run ends, the
    mapping left behind has the same keys in the same order, the same
    value under every key other than the seven list parameters, and no
    list parameter that was absent before. *)
Theorem C10_sync_frame (fuel : nat) (params : dict) (max_dom : Z) :
  keys (snd (adjust_params_for_max_dom fuel params max_dom)) = keys params /\
  (forall k, ~ In k list_params ->
     dict_get k (snd (adjust_params_for_max_dom fuel params max_dom))
     = dict_get k params) /\
  (forall k, In k list_params -> dict_get k params = None ->
     dict_get k (snd (adjust_params_for_max_dom fuel params max_dom)) = None).
Proof.
  unfold adjust_params_for_max_dom.
  destruct (for_keys_frame fuel max_dom list_params params) as [Hk Hf].
  split; [exact Hk|]. split; [exact Hf|].
  intros k _ Hnone. apply dict_get_none_keys. rewrite Hk.
  apply dict_get_none_keys. exact Hnone.
Qed.

End SyncClaims.

(** ** The synchroniser claims on the default geogrid section *)

Section SyncWitnesses.

#[local] Existing Instance FixedPoint.builtins.

Lemma C6_grid_size_growth_witness :
  ("e_we" = "e_we" \/ "e_we" = "e_sn") /\
  dict_get "e_we" default_geogrid_params = Some (VList [SInt 100]) /\
  [SInt 100] = ([] ++ [SInt 100])%list /\
  grow_step "e_we" default_geogrid_params
  = Ok (dict_set "e_we" (VList [SInt 100; SInt 101]) default_geogrid_params) /\
  (2 <= 5)%nat /\
  adjust_params_for_max_dom 5 [("e_we", VList [SInt 100])] 3
  = (Returned, [("e_we", VList [SInt 100; SInt 101; SInt 101])]).
Proof.
  split; [left; reflexivity|]. split; [reflexivity|]. split; [reflexivity|].
  split.
  - exact (proj2 (proj1 C6_grid_size_growth "e_we" default_geogrid_params
                    [SInt 100] (or_introl eq_refl) eq_refl)
             [] 100 eq_refl).
  - split; [lia|]. apply (proj2 C6_grid_size_growth 5%nat). lia.
Defined.

Lemma C7_grow_then_shrink_restores_witness :
  1 <= 1 /\ 1 <= 3 /\
  section_state 1 default_geogrid_params = true /\
  (Z.to_nat (3 - 1) <= 2)%nat /\
  (exists grown restored,
    adjust_params_for_max_dom 2 default_geogrid_params 3 = (Returned, grown) /\
    (forall k l, In k list_params ->
       dict_get k default_geogrid_params = Some (VList l) ->
       exists ext, dict_get k grown = Some (VList (l ++ ext)) /\
                   Z.of_nat (List.length (l ++ ext)) = 3) /\
    adjust_params_for_max_dom 2 grown 1 = (Returned, restored) /\
    (forall k, dict_get k restored = dict_get k default_geogrid_params) /\
    keys restored = keys default_geogrid_params /\
    (forall fuel', adjust_params_for_max_dom fuel' default_geogrid_params 1
                   = (Returned, default_geogrid_params))) /\
  In "e_we" list_params /\
  dict_get "e_we" default_geogrid_params = Some (VList [SInt 100]) /\
  Z.of_nat (List.length [SInt 100]) = 1 /\
  dict_get "e_we"
    (snd (adjust_params_for_max_dom 0
            (snd (adjust_params_for_max_dom 2 default_geogrid_params 3)) 1))
  = Some (VList [SInt 100]).
Proof.
  split; [lia|]. split; [lia|]. split; [reflexivity|]. split; [simpl; lia|].
  split.
  - apply (proj2 C7_grow_then_shrink_restores default_geogrid_params 1 3 2%nat);
      first [lia | reflexivity | simpl; lia].
  - assert (In "e_we" list_params) as Hin by (simpl; tauto).
    split; [exact Hin|]. split; [reflexivity|]. split; [reflexivity|].
    apply (proj1 C7_grow_then_shrink_restores default_geogrid_params
             (snd (adjust_params_for_max_dom 2 default_geogrid_params 3))
             (snd (adjust_params_for_max_dom 0
                     (snd (adjust_params_for_max_dom 2 default_geogrid_params 3))
                     1))
             1 3 2%nat 0%nat);
      first [reflexivity | lia | exact Hin].
Defined.

Lemma C9_sync_terminates_witness :
  (forall k v, k = "parent_id" \/ k = "parent_grid_ratio" ->
               dict_get k default_geogrid_params = Some v ->
               exists l, v = VList l /\ l <> []) /\
  1 <= 3 /\ (Z.to_nat 3 <= 3)%nat /\
  fst (adjust_params_for_max_dom 3 default_geogrid_params 3) <> Diverged.
Proof.
  assert (forall k v, k = "parent_id" \/ k = "parent_grid_ratio" ->
                      dict_get k default_geogrid_params = Some v ->
                      exists l, v = VList l /\ l <> []) as H.
  { intros k v [-> | ->] Hv; simpl in Hv; inversion Hv;
      exists [SInt 1]; (split; [reflexivity | discriminate]). }
  split; [exact H|]. split; [lia|]. split; [simpl; lia|].
  apply (proj1 C9_sync_terminates default_geogrid_params 3 3%nat H);
    [lia | simpl; lia].
Defined.

Lemma C10_sync_frame_witness :
  ~ In "dx" list_params /\
  dict_get "dx" (snd (adjust_params_for_max_dom 3 default_geogrid_params 3))
  = dict_get "dx" default_geogrid_params.
Proof.
  assert (~ In "dx" list_params) as H
    by (simpl; intuition discriminate).
  split; [exact H|].
  exact (proj1 (proj2 (C10_sync_frame 3 default_geogrid_params 3)) "dx" H).
Defined.

End SyncWitnesses.

(** * The reader's sections and the writer's outcomes *)

Section CodecClaims.

Context {B : Builtins}.

(** The section that a raw line opens, if any. *)
Definition opened_section (raw : string) : option section :=
  let line := strip raw in
  if startswith "&" line then recognise (lower (tail line)) else None.

Lemma read_line_idle (st : reader) (raw : string) :
  current_section st = None -> opened_section raw = None ->
  read_line st raw = st.
Proof.
  intros Hc Ho. unfold read_line, opened_section in *.
  destruct (String.eqb (strip raw) "" || startswith "!" (strip raw));
    [reflexivity|].
  destruct (startswith "&" (strip raw)).
  - rewrite Ho. reflexivity.
  - rewrite Hc.
    destruct (String.eqb (strip raw) "/" || startswith "/" (strip raw));
      [|reflexivity].
    destruct st as [c cur]. simpl in Hc. subst cur. reflexivity.
Qed.

(** C3 (amended): a line that starts with "&" and whose name is not one
    of share, geogrid, ungrib, metgrid (case-insensitive) leaves the
    reader exactly as it was: the active section, if any, stays active;
    and while no section is active, lines that open no recognised section
    leave the reader unchanged, so every key = value line among them is
    discarded. *)
Theorem C3_unrecognised_section_keeps_state :
  (forall (st : reader) (raw name : string),
      strip raw = String "&" name ->
      recognise (lower name) = None ->
      read_line st raw = st) /\
  (forall (st : reader) (lines : list string),
      current_section st = None ->
      (forall l, In l lines -> opened_section l = None) ->
      read_lines st lines = st).
Proof.
  split.
  - intros st raw name Hs Hr. unfold read_line. rewrite Hs.
    cbn [String.eqb orb startswith Ascii.eqb Bool.eqb tail]. rewrite Hr.
    reflexivity.
  - intros st lines Hc. unfold read_lines.
    induction lines as [|l lines IH]; intros Hl; [reflexivity|].
    simpl. rewrite read_line_idle; auto using in_eq.
    apply IH. intros l' Hl'. apply Hl. right. exact Hl'.
Qed.

Definition section_body (params : dict) : string :=
  fold_right String.append EmptyString
             (map (fun kv => param_line kv ++ nl) params).

Lemma concat_writes_app (l1 l2 : list string) :
  fold_right String.append EmptyString (l1 ++ l2)
  = fold_right String.append EmptyString l1
    ++ fold_right String.append EmptyString l2.
Proof.
  induction l1 as [|x l1 IH]; simpl; [reflexivity|].
  rewrite IH, append_assoc. reflexivity.
Qed.

Lemma section_writes_text (name : string) (params : dict) (closing : string) :
  fold_right String.append EmptyString (section_writes name params closing)
  = "&" ++ name ++ nl ++ section_body params ++ closing.
Proof.
  unfold section_writes, section_body.
  rewrite concat_writes_app. cbn [fold_right app].
  rewrite !append_assoc, append_nil_r. reflexivity.
Qed.

Lemma namelist_text_sections (s : store) :
  namelist_text s
  = ("&share" ++ nl ++ section_body (share_params s) ++ "/" ++ nl ++ nl)
    ++ ("&geogrid" ++ nl ++ section_body (geogrid_params s) ++ "/" ++ nl ++ nl)
    ++ ("&ungrib" ++ nl ++ section_body (ungrib_params s) ++ "/" ++ nl ++ nl)
    ++ ("&metgrid" ++ nl ++ section_body (metgrid_params s) ++ "/" ++ nl).
Proof.
  unfold namelist_text, namelist_writes.
  rewrite !concat_writes_app, !section_writes_text. reflexivity.
Qed.

(** ** The calls of the writer *)





End CodecClaims.

Section CodecExamples.

#[local] Existing Instance FixedPoint.builtins.

(** C3 as stated fails: after "&share", the unrecognised "&foo" leaves
    the share section active, and the assignment that follows is stored
    in it. *)
Lemma C3_unrecognised_section_stays_active :
  current_section (read_lines initial_reader ["&share"; "&foo"]) = Some Share /\
  read_existing_namelist
    ("&share" ++ nl ++ "&foo" ++ nl ++ " x = 1," ++ nl ++ "/" ++ nl)
  = mkStore [("x", VScalar (SInt 1))] [] [] [].
Proof. split; reflexivity. Qed.

Lemma C3_unrecognised_section_keeps_state_witness :
  strip " &foo " = String "&" "foo" /\
  recognise (lower "foo") = None /\
  read_line (mkReader empty_store (Some Share)) " &foo "
  = mkReader empty_store (Some Share) /\
  current_section initial_reader = None /\
  (forall l, In l ["&foo"; " x = 1,"] -> opened_section l = None) /\
  read_lines initial_reader ["&foo"; " x = 1,"] = initial_reader.
Proof.
  assert (forall l, In l ["&foo"; " x = 1,"] -> opened_section l = None) as H.
  { intros l [<-|[<-|[]]]; reflexivity. }
  split; [reflexivity|]. split; [reflexivity|].
  split.
  - exact (proj1 C3_unrecognised_section_keeps_state
             (mkReader empty_store (Some Share)) " &foo " "foo"
             eq_refl eq_refl).
  - split; [reflexivity|]. split; [exact H|].
    exact (proj2 C3_unrecognised_section_keeps_state initial_reader
             ["&foo"; " x = 1,"] eq_refl H).
Defined.






End CodecExamples.

(** * Writing a store and reading it back *)

Section RoundTrip.

Context {B : Builtins}.

(** ** What is read back

    A float whose text has no decimal point (an exponent form, an
    infinity, a NaN) is not an integer literal either: the reader keeps
    its text as a string.  Everything else comes back as it was. *)
Definition drift_scalar (a : scalar) : scalar :=
  match a with
  | SFloat x => if str_mem "." (float_str x) then a else SStr (float_str x)
  | _ => a
  end.

Definition drift_value (v : value) : value :=
  match v with
  | VScalar a => VScalar (drift_scalar a)
  | VList l => VList (map drift_scalar l)
  end.

Definition drift_dict (d : dict) : dict :=
  map (fun kv => (fst kv, drift_value (snd kv))) d.

Definition drift_store (s : store) : store :=
  mkStore (drift_dict (share_params s)) (drift_dict (geogrid_params s))
          (drift_dict (ungrib_params s)) (drift_dict (metgrid_params s)).

(** ** Stores that the format can carry *)

Definition key_ok (k : string) : bool :=
  String.eqb (strip k) k
  && negb (str_mem "=" k)
  && str_forall (fun c => negb (is_newline c)) k
  && negb (startswith "!" k || startswith "&" k || startswith "/" k).

Definition scalar_ok (a : scalar) : bool :=
  match a with
  | SStr s => plain s
  | _ => true
  end.

(** all strings, or no string at all *)
Definition uniform (l : list scalar) : bool :=
  forallb is_str l || forallb (fun a => negb (is_str a)) l.

(** A scalar sits under a key that the reader does not turn into a list;
    a list has two entries or more, or one entry under a key that the
    reader turns into a list. *)
Definition value_ok (k : string) (v : value) : bool :=
  match v with
  | VScalar a => scalar_ok a && negb (mem_string k inherent_lists)
  | VList l =>
      forallb scalar_ok l && uniform l
      && match l with
         | [] => false
         | [_] => mem_string k inherent_lists
         | _ => true
         end
  end.

Fixpoint distinct (l : list string) : bool :=
  match l with
  | [] => true
  | k :: rest => negb (mem_string k rest) && distinct rest
  end.

Definition dict_ok (d : dict) : bool :=
  forallb (fun kv => key_ok (fst kv) && value_ok (fst kv) (snd kv)) d
  && distinct (keys d).

Definition store_ok (s : store) : bool :=
  dict_ok (share_params s) && dict_ok (geogrid_params s)
  && dict_ok (ungrib_params s) && dict_ok (metgrid_params s).

(** ** Tokens *)

(** the text written for one scalar of a scalar parameter or of a uniform
    list *)
Definition token (a : scalar) : string :=
  if is_str a then quote (scalar_str a) else scalar_str a.

Definition line_free (s : string) : bool :=
  str_forall (fun c => negb (is_newline c)) s.

Definition head_nonspace (s : string) : bool :=
  match s with
  | String c _ => negb (is_space c)
  | EmptyString => false
  end.

Record token_like (t : string) : Prop := {
  tl_head : head_nonspace t = true;
  tl_rstrip : rstrip t = t;
  tl_comma : str_mem "," t = false;
  tl_line : line_free t = true
}.

Lemma head_nonspace_lstrip (s : string) : head_nonspace s = true -> lstrip s = s.
Proof.
  destruct s as [|c s]; simpl; [discriminate|].
  destruct (is_space c); [discriminate | reflexivity].
Qed.

Lemma head_nonspace_app (a b : string) :
  head_nonspace a = true -> head_nonspace (a ++ b) = true.
Proof. destruct a; simpl; [discriminate | auto]. Qed.

Lemma token_like_strip (t : string) : token_like t -> strip t = t.
Proof.
  intros [H1 H2 _ _]. apply strip_fixed; [apply head_nonspace_lstrip|]; assumption.
Qed.

Lemma startswith_not_mem (c : ascii) (s : string) :
  str_mem c s = false -> startswith c s = false.
Proof.
  intros H. destruct (startswith c s) eqn:E; [|reflexivity].
  apply startswith_mem in E. congruence.
Qed.

Lemma quoted_not_mem (s : string) :
  str_mem squote s = false -> str_mem dquote s = false -> quoted s = false.
Proof.
  intros H1 H2. unfold quoted.
  rewrite (startswith_not_mem _ _ H1), (startswith_not_mem _ _ H2).
  reflexivity.
Qed.

Lemma all_chars_token_like (p : ascii -> bool) (t : string) :
  (forall c, p c = true ->
             is_space c = false /\ Ascii.eqb c "," = false
             /\ is_newline c = false) ->
  t <> "" -> str_forall p t = true -> token_like t.
Proof.
  intros Hp Hne Ht. split.
  - destruct t as [|c t]; [congruence|]. simpl in *.
    apply andb_true_iff in Ht as [Hc _].
    destruct (Hp c Hc) as (-> & _). reflexivity.
  - apply rstrip_nonspace. eapply str_forall_impl; [|exact Ht].
    intros c Hc. destruct (Hp c Hc) as (-> & _). reflexivity.
  - destruct (str_mem "," t) eqn:E; [|reflexivity].
    pose proof (str_mem_forall p "," t Ht E) as Hc.
    destruct (Hp _ Hc) as (_ & H & _). discriminate.
  - unfold line_free. eapply str_forall_impl; [|exact Ht].
    intros c Hc. destruct (Hp c Hc) as (_ & _ & ->). reflexivity.
Qed.

Lemma int_char_facts (c : ascii) :
  int_char c = true ->
  is_space c = false /\ Ascii.eqb c "," = false /\ is_newline c = false
  /\ Ascii.eqb c squote = false /\ Ascii.eqb c dquote = false
  /\ Ascii.eqb c "." = false.
Proof.
  destruct c as [[] [] [] [] [] [] [] []]; intros H;
    try discriminate H; repeat split; reflexivity.
Qed.

Lemma float_char_facts (c : ascii) :
  str_mem c float_chars = true ->
  is_space c = false /\ Ascii.eqb c "," = false /\ is_newline c = false
  /\ Ascii.eqb c squote = false /\ Ascii.eqb c dquote = false.
Proof.
  destruct c as [[] [] [] [] [] [] [] []]; intros H;
    try discriminate H; repeat split; reflexivity.
Qed.

Lemma forall_not_mem (p : ascii -> bool) (c : ascii) (t : string) :
  (forall x, p x = true -> Ascii.eqb x c = false) ->
  str_forall p t = true -> str_mem c t = false.
Proof.
  intros Hp Ht. induction t as [|x t IH]; simpl in *; [reflexivity|].
  apply andb_true_iff in Ht as [Hx Ht].
  rewrite (Hp x Hx), (IH Ht). reflexivity.
Qed.

Lemma int_token (n : Z) :
  token_like (int_str n) /\ convert (int_str n) = SInt n.
Proof.
  destruct (int_str_chars n) as [Hc Hne]. split.
  - apply (all_chars_token_like int_char); auto.
    intros c H. destruct (int_char_facts c H) as (? & ? & ? & _). auto.
  - unfold convert. rewrite quoted_not_mem.
    + rewrite (forall_not_mem int_char "." _) by
        (auto; intros x H; apply (int_char_facts x H)).
      rewrite py_int_int_str. reflexivity.
    + apply (forall_not_mem int_char); auto.
      intros x H. apply (int_char_facts x H).
    + apply (forall_not_mem int_char); auto.
      intros x H. apply (int_char_facts x H).
Qed.

Lemma float_token (x : float) :
  token_like (float_str x) /\ convert (float_str x) = drift_scalar (SFloat x).
Proof.
  destruct (float_str_chars x) as [Hne Hc]. split.
  - apply (all_chars_token_like (fun c => str_mem c float_chars)); auto.
    intros c H. destruct (float_char_facts c H) as (? & ? & ? & _). auto.
  - unfold convert, drift_scalar. rewrite quoted_not_mem.
    + destruct (str_mem "." (float_str x)) eqn:E.
      * rewrite float_parse_str. reflexivity.
      * rewrite (float_str_nodot x E). reflexivity.
    + apply (forall_not_mem (fun c => str_mem c float_chars)); auto.
      intros c H. apply (float_char_facts c H).
    + apply (forall_not_mem (fun c => str_mem c float_chars)); auto.
      intros c H. apply (float_char_facts c H).
Qed.

Lemma quote_token (s : string) :
  plain s = true ->
  token_like (quote s) /\ convert (quote s) = SStr s.
Proof.
  intros Hp. unfold quote.
  assert (str_mem "," s = false /\ line_free s = true) as [Hc Hl].
  { unfold plain, line_free in *. split.
    - apply (forall_not_mem
               (fun c => negb (Ascii.eqb "," c) && negb (is_newline c)));
        [|exact Hp].
      intros x H. apply andb_true_iff in H as [H _].
      rewrite Ascii.eqb_sym. apply negb_true_iff. exact H.
    - eapply str_forall_impl; [|exact Hp].
      intros c H. apply andb_true_iff in H as [_ H]. exact H. }
  change ("'" ++ s ++ "'") with (String squote s ++ String squote "").
  split.
  - split.
    + reflexivity.
    + apply rstrip_last. reflexivity.
    + rewrite str_mem_app. cbn [str_mem]. rewrite Hc. reflexivity.
    + unfold line_free in *. rewrite str_forall_app. cbn [str_forall].
      rewrite Hl. reflexivity.
  - unfold convert, quoted.
    rewrite endswith_last.
    replace (startswith squote (String squote s ++ String squote ""))
      with true by (cbn [startswith append]; rewrite Ascii.eqb_refl; reflexivity).
    cbn [andb orb].
    unfold chop_ends. cbn [tail append].
    rewrite drop_last_last. reflexivity.
Qed.

Lemma token_facts (a : scalar) :
  scalar_ok a = true ->
  token_like (token a) /\ convert (token a) = drift_scalar a.
Proof.
  destruct a as [n|x|s]; unfold token; cbn [is_str scalar_str scalar_ok].
  - intros _. apply int_token.
  - intros _. apply float_token.
  - intros H. apply (quote_token s H).
Qed.

(** ** A list of tokens joined by comma and space *)

Definition sep_tokens (ts : list string) : list string :=
  match ts with
  | [] => [EmptyString]
  | x :: r => x :: map (String " ") r
  end.

Lemma join_cons2 (x y : string) (r : list string) :
  join ", " (x :: y :: r) = x ++ String "," (String " " (join ", " (y :: r))).
Proof. reflexivity. Qed.

Lemma join_tokens (x : string) (r : list string) :
  Forall token_like (x :: r) ->
  head_nonspace (join ", " (x :: r)) = true /\
  rstrip (join ", " (x :: r)) = join ", " (x :: r) /\
  line_free (join ", " (x :: r)) = true /\
  split_where (Ascii.eqb ",") (join ", " (x :: r)) = sep_tokens (x :: r).
Proof.
  revert x. induction r as [|y r IH]; intros x Hall.
  - inversion Hall as [|? ? [H1 H2 H3 H4] _]; subst. cbn [join sep_tokens map].
    repeat split; auto.
    apply split_where_none. apply not_mem_forall. exact H3.
  - inversion Hall as [|? ? [H1 H2 H3 H4] Hall']; subst.
    destruct (IH y Hall') as (I1 & I2 & I3 & I4).
    rewrite join_cons2. repeat split.
    + apply head_nonspace_app. exact H1.
    + rewrite rstrip_app.
      * f_equal. change (String "," (String " " (join ", " (y :: r))))
          with (", " ++ join ", " (y :: r)).
        rewrite rstrip_app; [rewrite I2; reflexivity|].
        rewrite I2. destruct (join ", " (y :: r)); [discriminate I1 | discriminate].
      * change (String "," (String " " (join ", " (y :: r))))
          with (", " ++ join ", " (y :: r)).
        rewrite rstrip_app; [discriminate|].
        rewrite I2. destruct (join ", " (y :: r)); [discriminate I1 | discriminate].
    + unfold line_free in *. rewrite str_forall_app. cbn [str_forall].
      rewrite H4, I3. reflexivity.
    + rewrite split_where_first;
        [| apply not_mem_forall; exact H3 | reflexivity].
      cbn [split_where]. change (Ascii.eqb "," " ") with false. cbv iota.
      rewrite I4. reflexivity.
Qed.

Lemma strip_sep_tokens (ts : list string) :
  ts <> [] -> Forall token_like ts -> map strip (sep_tokens ts) = ts.
Proof.
  destruct ts as [|x r]; [congruence|]. intros _ Hall.
  inversion Hall as [|? ? Hx Hr]; subst. cbn [sep_tokens map].
  rewrite (token_like_strip x Hx). f_equal.
  induction Hr as [|y r Hy Hr IH]; [reflexivity|]. cbn [map].
  rewrite strip_space_cons by reflexivity.
  rewrite (token_like_strip y Hy). f_equal. apply IH.
  constructor; [exact Hx | exact Hr].
Qed.

(** ** The text of a value *)

Lemma format_value_uniform (l : list scalar) :
  uniform l = true -> format_value (VList l) = join ", " (map token l).
Proof.
  unfold uniform, format_value. intros H.
  destruct (forallb is_str l) eqn:E.
  - f_equal. apply map_ext_in. intros a Ha.
    rewrite forallb_forall in E. unfold token. rewrite (E a Ha). reflexivity.
  - simpl in H. f_equal. apply map_ext_in. intros a Ha.
    rewrite forallb_forall in H. specialize (H a Ha).
    apply negb_true_iff in H. unfold token. rewrite H. reflexivity.
Qed.

Lemma format_value_scalar (a : scalar) : format_value (VScalar a) = token a.
Proof. destruct a; reflexivity. Qed.

Lemma tokens_like (l : list scalar) :
  forallb scalar_ok l = true -> Forall token_like (map token l).
Proof.
  intros H. rewrite forallb_forall in H. apply Forall_forall.
  intros t Ht. apply in_map_iff in Ht as (a & <- & Ha).
  apply token_facts. apply H. exact Ha.
Qed.

Lemma convert_tokens (l : list scalar) :
  forallb scalar_ok l = true ->
  map convert (map token l) = map drift_scalar l.
Proof.
  intros H. rewrite forallb_forall in H. rewrite map_map.
  apply map_ext_in. intros a Ha. apply token_facts. apply H. exact Ha.
Qed.

(** what the reader makes of the text of a value, before single entries
    are turned back into lists *)
Definition reread (v : value) : value :=
  match v with
  | VScalar a => VScalar (drift_scalar a)
  | VList [a] => VScalar (drift_scalar a)
  | VList l => VList (map drift_scalar l)
  end.

Lemma value_text (k : string) (v : value) :
  value_ok k v = true ->
  head_nonspace (format_value v) = true /\
  rstrip (format_value v) = format_value v /\
  line_free (format_value v) = true /\
  read_value (format_value v) = reread v.
Proof.
  destruct v as [a|l]; cbn [value_ok]; intros H.
  - apply andb_true_iff in H as [Ha _].
    destruct (token_facts a Ha) as ([H1 H2 H3 H4] & Hc).
    rewrite format_value_scalar. repeat split; auto.
    unfold read_value. rewrite H3, Hc. reflexivity.
  - apply andb_true_iff in H as [H Hlen].
    apply andb_true_iff in H as [Hok Hu].
    rewrite (format_value_uniform l Hu).
    pose proof (tokens_like l Hok) as Hall.
    destruct l as [|a [|b r]]; [discriminate| |].
    + cbn [map join]. cbn [forallb] in Hok.
      apply andb_true_iff in Hok as [Ha _].
      destruct (token_facts a Ha) as ([H1 H2 H3 H4] & Hc).
      repeat split; auto.
      unfold read_value. rewrite H3, Hc. reflexivity.
    + cbn [map] in *.
      destruct (join_tokens (token a) (token b :: map token r) Hall)
        as (J1 & J2 & J3 & J4).
      repeat split; auto.
      unfold read_value.
      replace (str_mem "," (join ", " (token a :: token b :: map token r)))
        with true
        by (rewrite join_cons2, str_mem_app; cbn [str_mem];
            rewrite Ascii.eqb_refl, orb_true_r; reflexivity).
      rewrite J4.
      rewrite (strip_sep_tokens (token a :: token b :: map token r))
        by (auto; discriminate).
      change (token a :: token b :: map token r)
        with (map token (a :: b :: r)).
      rewrite (convert_tokens _ Hok). reflexivity.
Qed.

(** ** One parameter line *)

Lemma strip_assignment (k fv : string) :
  strip (" " ++ k ++ " = " ++ fv ++ ",")
  = lstrip (k ++ " ") ++ String "=" (String " " (fv ++ ",")).
Proof.
  unfold strip.
  replace (" " ++ k ++ " = " ++ fv ++ ",")
    with ((" " ++ k ++ " = " ++ fv) ++ String "," "")
    by (rewrite !append_assoc; reflexivity).
  rewrite rstrip_last by reflexivity.
  rewrite !append_assoc. cbn [append lstrip].
  change (is_space " ") with true. cbv iota.
  change (k ++ String " " (String "=" (String " " (fv ++ ","))))
    with (k ++ (" " ++ String "=" (String " " (fv ++ ",")))).
  rewrite <- append_assoc.
  apply lstrip_app_nonspace. reflexivity.
Qed.

Definition opens_line (line : string) : bool :=
  negb (String.eqb line "" || startswith "!" line)
  && negb (startswith "&" line)
  && negb (String.eqb line "/" || startswith "/" line).

Lemma key_side (k : string) :
  key_ok k = true ->
  str_mem "=" (lstrip (k ++ " ")) = false /\
  strip (lstrip (k ++ " ")) = k /\
  forall rest, opens_line (lstrip (k ++ " ") ++ String "=" rest) = true.
Proof.
  unfold key_ok. rewrite !andb_true_iff.
  intros (((Hs & He) & _) & Hh).
  apply String.eqb_eq in Hs. apply negb_true_iff in He.
  apply negb_true_iff in Hh.
  destruct k as [|c k].
  - repeat split.
  - pose proof (strip_fixed_head c k Hs) as Hc.
    cbn [append lstrip]. rewrite Hc.
    change (String c (k ++ " ")) with (String c k ++ " ").
    split; [|split].
    + rewrite str_mem_app, He. reflexivity.
    + unfold strip. rewrite rstrip_app_blank by reflexivity. exact Hs.
    + intros rest. unfold opens_line. cbn [append startswith String.eqb].
      cbn [startswith] in Hh.
      apply orb_false_iff in Hh as [Hh H3].
      apply orb_false_iff in Hh as [H1 H2].
      rewrite H1, H2, H3. reflexivity.
Qed.

Lemma value_side (fv : string) :
  head_nonspace fv = true -> rstrip fv = fv ->
  strip (String " " (fv ++ ",")) = fv ++ ","
  /\ endswith "," (fv ++ ",") = true
  /\ drop_last (fv ++ ",") = fv.
Proof.
  intros Hh Hr. split; [|split].
  - rewrite strip_space_cons by reflexivity.
    apply strip_fixed.
    + apply head_nonspace_lstrip. apply head_nonspace_app. exact Hh.
    + apply rstrip_last. reflexivity.
  - apply endswith_last.
  - apply drop_last_last.
Qed.

Lemma read_assignment_param_line (k : string) (v : value) :
  key_ok k = true -> value_ok k v = true ->
  opens_line (strip (param_line (k, v))) = true /\
  read_assignment (strip (param_line (k, v))) = Some (k, reread v) /\
  line_free (param_line (k, v)) = true.
Proof.
  intros Hk Hv.
  destruct (key_side k Hk) as (K1 & K2 & K3).
  destruct (value_text k v Hv) as (V1 & V2 & V3 & V4).
  destruct (value_side _ V1 V2) as (S1 & S2 & S3).
  unfold param_line. cbn [fst snd]. rewrite strip_assignment.
  split; [apply K3|]. split.
  - unfold read_assignment. rewrite split_once_first by exact K1.
    rewrite K2, S1, S2, S3, V4. reflexivity.
  - unfold key_ok in Hk. rewrite !andb_true_iff in Hk.
    destruct Hk as (((_ & _) & Hl) & _).
    unfold line_free in *. rewrite !str_forall_app.
    rewrite Hl, V3. reflexivity.
Qed.

(** ** Reading a text line by line *)

Definition read_text (st : reader) (text : string) : reader :=
  read_lines st (split_where is_newline text).

Lemma read_text_line (st : reader) (line rest : string) :
  line_free line = true ->
  read_text st (line ++ nl ++ rest) = read_text (read_line st line) rest.
Proof.
  intros Hl. unfold read_text, nl.
  change (String "010" "" ++ rest) with (String "010" rest).
  rewrite split_where_first; [reflexivity | exact Hl | reflexivity].
Qed.

Lemma read_text_end (st : reader) : read_text st "" = st.
Proof. reflexivity. Qed.

Lemma section_of_with (sec : section) (d : dict) (s : store) :
  section_of sec (with_section sec d s) = d.
Proof. destruct sec; reflexivity. Qed.

Lemma with_section_twice (sec : section) (d d' : dict) (s : store) :
  with_section sec d' (with_section sec d s) = with_section sec d' s.
Proof. destruct sec; reflexivity. Qed.

Lemma dict_set_new (k : string) (v : value) (d : dict) :
  ~ In k (keys d) -> dict_set k v d = (d ++ [(k, v)])%list.
Proof.
  unfold keys. induction d as [|[k0 v0] d IH]; simpl; [reflexivity|].
  intros H. destruct (String.eqb_spec k0 k); [tauto|].
  rewrite IH by tauto. reflexivity.
Qed.

Definition reread_dict (d : dict) : dict :=
  map (fun kv => (fst kv, reread (snd kv))) d.

Lemma read_line_param (st : reader) (sec : section) (k : string) (v : value) :
  current_section st = Some sec ->
  key_ok k = true -> value_ok k v = true ->
  read_line st (param_line (k, v))
  = mkReader
      (with_section sec (dict_set k (reread v) (section_of sec (contents st)))
                    (contents st))
      (Some sec).
Proof.
  intros Hc Hk Hv.
  destruct (read_assignment_param_line k v Hk Hv) as (Ho & Hr & _).
  unfold opens_line in Ho. rewrite !andb_true_iff in Ho.
  destruct Ho as ((H1 & H2) & H3).
  apply negb_true_iff in H1, H2, H3.
  unfold read_line. rewrite H1, H2, H3, Hc, Hr. reflexivity.
Qed.

(** The parameter lines of one section, read into the active section. *)
Lemma read_section_body (sec : section) (d : dict) :
  forall (st : reader) (rest : string),
    current_section st = Some sec ->
    forallb (fun kv => key_ok (fst kv) && value_ok (fst kv) (snd kv)) d = true ->
    distinct (keys d) = true ->
    (forall k, In k (keys d) -> ~ In k (keys (section_of sec (contents st)))) ->
    read_text st (section_body d ++ rest)
    = read_text
        (mkReader
           (with_section sec
              (section_of sec (contents st) ++ reread_dict d)%list
              (contents st))
           (Some sec))
        rest.
Proof.
  induction d as [|[k v] d IH]; intros st rest Hc Hok Hd Hnew.
  - cbn [section_body map fold_right reread_dict append]. rewrite app_nil_r.
    destruct st as [c cur]. simpl in *. subst cur.
    destruct sec, c; reflexivity.
  - cbn [forallb fst snd] in Hok. apply andb_true_iff in Hok as [Hkv Hok].
    apply andb_true_iff in Hkv as [Hk Hv].
    cbn [keys map fst distinct] in Hd. apply andb_true_iff in Hd as [Hnk Hd].
    apply negb_true_iff in Hnk.
    destruct (read_assignment_param_line k v Hk Hv) as (_ & _ & Hl).
    unfold section_body. cbn [map fold_right].
    rewrite !append_assoc.
    rewrite read_text_line by exact Hl.
    rewrite (read_line_param st sec k v Hc Hk Hv).
    rewrite dict_set_new by (apply Hnew; left; reflexivity).
    fold (section_body d).
    rewrite IH; auto.
    + cbn [contents]. rewrite section_of_with, with_section_twice.
      rewrite <- app_assoc. reflexivity.
    + cbn [contents]. rewrite section_of_with.
      intros k' Hk' Hin. unfold keys in Hin. rewrite map_app in Hin.
      apply in_app_or in Hin as [Hin|[<-|[]]].
      * apply (Hnew k'); [right; exact Hk' | exact Hin].
      * assert (mem_string k (keys d) = true) as Hm
          by (apply mem_string_In; exact Hk').
        unfold keys in Hm. cbn [fst] in Hm. congruence.
Qed.

(** ** One section, then the whole text *)

Lemma dict_ok_parts (d : dict) :
  dict_ok d = true ->
  forallb (fun kv => key_ok (fst kv) && value_ok (fst kv) (snd kv)) d = true
  /\ distinct (keys d) = true.
Proof. unfold dict_ok. intros H. apply andb_true_iff in H. exact H. Qed.

Lemma read_section (header : string) (sec : section) (d : dict)
    (st : reader) (rest : string) :
  (forall st', read_line st' header = mkReader (contents st') (Some sec)) ->
  line_free header = true ->
  section_of sec (contents st) = [] ->
  dict_ok d = true ->
  read_text st (header ++ nl ++ section_body d ++ "/" ++ nl ++ rest)
  = read_text (mkReader (with_section sec (reread_dict d) (contents st)) None)
              rest.
Proof.
  intros Hh Hl He Hd. destruct (dict_ok_parts d Hd) as [Hok Hdis].
  rewrite read_text_line by exact Hl. rewrite Hh.
  rewrite (read_section_body sec d); auto.
  - cbn [contents]. rewrite He. cbn [app].
    rewrite read_text_line by reflexivity. reflexivity.
  - cbn [contents]. rewrite He. intros k _ [].
Qed.

Lemma read_blank (st : reader) (rest : string) :
  read_text st (nl ++ rest) = read_text st rest.
Proof.
  change (nl ++ rest) with ("" ++ nl ++ rest).
  rewrite read_text_line by reflexivity. reflexivity.
Qed.

Lemma listify_reread (d : dict) :
  forallb (fun kv => key_ok (fst kv) && value_ok (fst kv) (snd kv)) d = true ->
  listify (reread_dict d) = drift_dict d.
Proof.
  intros H. unfold listify, reread_dict, drift_dict. rewrite map_map.
  apply map_ext_in. intros [k v] Hin. cbn [fst snd].
  rewrite forallb_forall in H. specialize (H _ Hin). cbn [fst snd] in H.
  apply andb_true_iff in H as [_ Hv].
  destruct v as [a|[|a [|b r]]]; cbn [value_ok] in Hv;
    rewrite ?andb_true_iff in Hv; cbn [reread drift_value map].
  - destruct Hv as [_ Hk]. apply negb_true_iff in Hk. rewrite Hk. reflexivity.
  - destruct Hv as [_ Hv]. discriminate.
  - destruct Hv as [_ Hk]. rewrite Hk. reflexivity.
  - reflexivity.
Qed.

(** Reading what was written: every store that the format can carry comes
    back as the drifted copy of itself. *)
Lemma write_then_read (s : store) :
  store_ok s = true ->
  read_existing_namelist (namelist_text s) = drift_store s.
Proof.
  unfold store_ok. rewrite !andb_true_iff.
  intros (((H1 & H2) & H3) & H4).
  unfold read_existing_namelist. fold (read_text initial_reader (namelist_text s)).
  rewrite namelist_text_sections, !append_assoc.
  rewrite (read_section "&share" Share); auto.
  rewrite read_blank.
  rewrite (read_section "&geogrid" Geogrid); auto.
  rewrite read_blank.
  rewrite (read_section "&ungrib" Ungrib); auto.
  rewrite read_blank.
  replace ("/" ++ nl) with ("/" ++ nl ++ "") by reflexivity.
  rewrite (read_section "&metgrid" Metgrid); auto.
  rewrite read_text_end. cbn [contents with_section initial_reader empty_store
                                share_params geogrid_params ungrib_params
                                metgrid_params].
  unfold listify_store, drift_store.
  cbn [share_params geogrid_params ungrib_params metgrid_params].
  rewrite !listify_reread by (apply dict_ok_parts; assumption).
  reflexivity.
Qed.

(** ** The default store, synchronised *)

Lemma dict_get_In (k : string) (v : value) (d : dict) :
  dict_get k d = Some v -> In (k, v) d.
Proof.
  induction d as [|[k0 v0] d IH]; simpl; [discriminate|].
  destruct (String.eqb_spec k0 k).
  - intros H. inversion H. subst. left. reflexivity.
  - intros H. right. apply IH. exact H.
Qed.

Lemma In_dict_get (k : string) (v : value) (d : dict) :
  distinct (keys d) = true -> In (k, v) d -> dict_get k d = Some v.
Proof.
  induction d as [|[k0 v0] d IH]; [intros _ []|].
  change (keys ((k0, v0) :: d)) with (k0 :: keys d).
  cbn [distinct dict_get In].
  intros Hd [E|Hin].
  - inversion E. subst. rewrite String.eqb_refl. reflexivity.
  - apply andb_true_iff in Hd as [Hk Hd]. apply negb_true_iff in Hk.
    destruct (String.eqb_spec k0 k).
    + subst. exfalso.
      assert (mem_string k (keys d) = true) as Hm.
      { apply mem_string_In. unfold keys. apply in_map_iff.
        exists (k, v). split; [reflexivity | exact Hin]. }
      congruence.
    + apply IH; assumption.
Qed.

Lemma entry_ok_scalar (key : string) (x : scalar) :
  entry_ok key x = true ->
  scalar_ok x = true /\ drift_scalar x = x /\
  is_str x = String.eqb key "geog_data_res".
Proof.
  unfold entry_ok. destruct (String.eqb key "geog_data_res"), x;
    intros H; try discriminate H; repeat split; auto.
Qed.

Lemma entries_ok_value (key : string) (l : list scalar) :
  forallb (entry_ok key) l = true -> l <> [] ->
  mem_string key inherent_lists = true ->
  value_ok key (VList l) = true /\ drift_value (VList l) = VList l.
Proof.
  intros Hl Hne Hm. rewrite forallb_forall in Hl. split.
  - cbn [value_ok]. rewrite !andb_true_iff. repeat split.
    + apply forallb_forall. intros x Hx. apply (entry_ok_scalar key x). auto.
    + unfold uniform. apply orb_true_iff.
      destruct (String.eqb key "geog_data_res") eqn:E; [left|right];
        apply forallb_forall; intros x Hx;
        destruct (entry_ok_scalar key x (Hl x Hx)) as (_ & _ & Hs);
        rewrite Hs, E; reflexivity.
    + destruct l as [|a [|b r]]; [congruence | exact Hm | reflexivity].
  - cbn [drift_value]. f_equal.
    rewrite <- (map_id l) at 2. apply map_ext_in.
    intros x Hx. apply (entry_ok_scalar key x). auto.
Qed.

Lemma float_literal_drift (n : Z) :
  Z.abs n <= 2 ^ 53 ->
  drift_scalar (SFloat (float_of_Z n)) = SFloat (float_of_Z n).
Proof.
  intros Hn. unfold drift_scalar. rewrite (float_str_of_Z n Hn).
  rewrite str_mem_app.
  replace (str_mem "." ".0") with true by reflexivity.
  rewrite orb_true_r. reflexivity.
Qed.

Lemma default_geogrid_lists (k : string) :
  In k list_params ->
  exists l, dict_get k default_geogrid_params = Some (VList l) /\
            forallb (entry_ok k) l = true /\
            mem_string k inherent_lists = true.
Proof.
  intros Hin. simpl in Hin.
  destruct Hin as [<-|[<-|[<-|[<-|[<-|[<-|[<-|[]]]]]]]];
    eexists; repeat split; reflexivity.
Qed.

Lemma default_geogrid_entries :
  Forall (fun kv => (key_ok (fst kv) && value_ok (fst kv) (snd kv) = true)
                    /\ drift_value (snd kv) = snd kv)
         default_geogrid_params.
Proof.
  unfold default_geogrid_params.
  repeat (constructor;
          [ split; [reflexivity|]; cbn [snd drift_value map];
            rewrite ?float_literal_drift by (cbn; lia); reflexivity |]).
  constructor.
Qed.

(** The default geogrid section, synchronised to [m >= 1] domains, is a
    section that the format carries without change. *)
Lemma default_geogrid_grown (m : Z) (fuel : nat) :
  1 <= m -> (Z.to_nat (m - 1) <= fuel)%nat ->
  exists g,
    adjust_params_for_max_dom fuel default_geogrid_params m = (Returned, g) /\
    dict_ok g = true /\ drift_dict g = g.
Proof.
  intros Hm Hf. unfold adjust_params_for_max_dom.
  destruct (grow_pass fuel 1 m default_geogrid_params ltac:(lia) eq_refl Hf
              list_params default_geogrid_params)
    as (g & Hrun & Hg); [reflexivity | auto | auto |].
  pose proof (for_keys_frame fuel m list_params default_geogrid_params)
    as [Hkeys Hframe].
  rewrite Hrun in Hkeys, Hframe. cbn [snd] in Hkeys, Hframe.
  assert (distinct (keys g) = true) as Hdist by (rewrite Hkeys; reflexivity).
  assert (forall kv, In kv g ->
            (key_ok (fst kv) && value_ok (fst kv) (snd kv) = true)
            /\ drift_value (snd kv) = snd kv) as Hall.
  { intros [k v] Hin. cbn [fst snd].
    pose proof (In_dict_get k v g Hdist Hin) as Hv.
    destruct (in_dec string_dec k list_params) as [Hk|Hk].
    - destruct (default_geogrid_lists k Hk) as (l & Hl & Hkind & Hinh).
      destruct (Hg k l Hk Hl) as (ext & Hgl & Hlen & Hext).
      rewrite Hgl in Hv. inversion Hv; subst v.
      destruct (entries_ok_value k (l ++ ext) (Hext Hkind)) as [Hvo Hdr];
        [ intros E; rewrite E in Hlen; simpl in Hlen; lia | exact Hinh |].
      split; [|exact Hdr]. rewrite Hvo, andb_true_r.
      pose proof default_geogrid_entries as Hdef.
      rewrite Forall_forall in Hdef.
      destruct (Hdef _ (dict_get_In _ _ _ Hl)) as [Hko _].
      apply andb_true_iff in Hko as [Hko _]. exact Hko.
    - rewrite (Hframe k Hk) in Hv.
      pose proof default_geogrid_entries as Hdef.
      rewrite Forall_forall in Hdef.
      exact (Hdef _ (dict_get_In _ _ _ Hv)). }
  exists g. split; [exact Hrun|]. split.
  - unfold dict_ok. rewrite Hdist, andb_true_r.
    apply forallb_forall. intros kv Hin. apply (Hall kv Hin).
  - unfold drift_dict. rewrite <- (map_id g) at 2. apply map_ext_in.
    intros [k v] Hin. cbn [fst snd]. f_equal. apply (Hall _ Hin).
Qed.

Lemma default_share_ok (now tomorrow : string) :
  plain now = true -> plain tomorrow = true ->
  dict_ok (default_share_params now tomorrow) = true.
Proof.
  intros Hn Ht. unfold dict_ok, default_share_params.
  cbn [forallb fst snd value_ok scalar_ok keys map].
  rewrite Hn, Ht. reflexivity.
Qed.

(** C1 (amended): for every store whose keys are well formed and
    distinct, whose strings hold no comma and no line break, whose lists
    are non-empty and hold only strings or no string, and where one-entry
    lists, and no bare scalars, sit under the keys that the reader turns
    into lists, reading the written text gives the store back under every
    key of every section, except that a float whose text has no decimal
    point comes back as the string of that text; the default sections, with
    the geogrid lists synchronised to any number of domains from 1 on,
    form such a store and come back exactly as written. *)
Theorem C1_write_then_read :
  (forall s : store,
      store_ok s = true ->
      read_existing_namelist (namelist_text s) = drift_store s) /\
  (forall (now tomorrow : string) (max_dom : Z) (fuel : nat),
      plain now = true -> plain tomorrow = true ->
      1 <= max_dom -> (Z.to_nat (max_dom - 1) <= fuel)%nat ->
      exists geogrid,
        adjust_params_for_max_dom fuel default_geogrid_params max_dom
        = (Returned, geogrid) /\
        let s := mkStore (default_share_params now tomorrow) geogrid
                         default_ungrib_params default_metgrid_params in
        store_ok s = true /\
        read_existing_namelist (namelist_text s) = s).
Proof.
  split; [exact write_then_read|].
  intros now tomorrow max_dom fuel Hn Ht Hm Hf.
  destruct (default_geogrid_grown max_dom fuel Hm Hf) as (g & Hrun & Hok & Hdr).
  exists g. split; [exact Hrun|].
  assert (store_ok (mkStore (default_share_params now tomorrow) g
                            default_ungrib_params default_metgrid_params)
          = true) as Hs.
  { unfold store_ok.
    cbn [share_params geogrid_params ungrib_params metgrid_params].
    rewrite (default_share_ok now tomorrow Hn Ht), Hok. reflexivity. }
  cbv zeta. split; [exact Hs|].
  rewrite (write_then_read _ Hs). unfold drift_store.
  cbn [share_params geogrid_params ungrib_params metgrid_params].
  rewrite Hdr. reflexivity.
Qed.

End RoundTrip.

Section RoundTripExamples.

#[local] Existing Instance FixedPoint.builtins.

(** The default store with three domains and a fixed pair of dates. *)
Definition three_domains : store :=
  mkStore
    (default_share_params "2024-01-01_00:00:00" "2024-01-02_00:00:00")
    (snd (adjust_params_for_max_dom 2 default_geogrid_params 3))
    default_ungrib_params
    default_metgrid_params.

(** C1 as stated fails: the default store, with its list parameters as
    the defaults give them, and a data path that holds a comma, is not
    read back as written: the path comes back as a list of two strings. *)
Lemma C1_comma_breaks_round_trip :
  let s := mkStore
             (default_share_params "2024-01-01_00:00:00" "2024-01-02_00:00:00")
             (dict_set "geog_data_path" (VScalar (SStr "/data,v2/geog"))
                       default_geogrid_params)
             default_ungrib_params
             default_metgrid_params in
  dict_get "geog_data_path" (geogrid_params s)
  = Some (VScalar (SStr "/data,v2/geog")) /\
  dict_get "geog_data_path"
           (geogrid_params (read_existing_namelist (namelist_text s)))
  = Some (VList [SStr "'/data"; SStr "v2/geog'"]) /\
  read_existing_namelist (namelist_text s) <> drift_store s.
Proof.
  split; [reflexivity|]. split; [reflexivity|].
  intros H.
  apply (f_equal (fun st => dict_get "geog_data_path" (geogrid_params st))) in H.
  change (Some (VList [SStr "'/data"; SStr "v2/geog'"])
          = Some (VScalar (SStr "/data,v2/geog"))) in H.
  discriminate H.
Qed.

Lemma C1_write_then_read_witness :
  store_ok three_domains = true /\
  read_existing_namelist (namelist_text three_domains)
  = drift_store three_domains /\
  drift_store three_domains = three_domains /\
  plain "2024-01-01_00:00:00" = true /\
  plain "2024-01-02_00:00:00" = true /\
  1 <= 3 /\ (Z.to_nat (3 - 1) <= 2)%nat /\
  exists geogrid,
    adjust_params_for_max_dom 2 default_geogrid_params 3 = (Returned, geogrid) /\
    let s := mkStore
               (default_share_params "2024-01-01_00:00:00" "2024-01-02_00:00:00")
               geogrid default_ungrib_params default_metgrid_params in
    store_ok s = true /\
    read_existing_namelist (namelist_text s) = s.
Proof.
  split; [reflexivity|].
  split; [apply (proj1 C1_write_then_read three_domains); reflexivity|].
  split; [reflexivity|].
  split; [reflexivity|]. split; [reflexivity|].
  split; [lia|]. split; [simpl; lia|].
  apply (proj2 C1_write_then_read
           "2024-01-01_00:00:00" "2024-01-02_00:00:00" 3 2%nat);
    first [reflexivity | lia | simpl; lia].
Defined.

End RoundTripExamples.

(** * More on the synchroniser: what is appended, and how long the lists are *)

Section SyncValues.

Context {B : Builtins}.

(** lines 141-144: an even dimension is moved to the next odd one *)
Definition bump_odd (v : Z) : Z := if v mod 2 =? 0 then v + 1 else v.

(** The entry that one pass of the loop body appends to the list [l] under
    [key] when the start lists take their [append(1)] branch and the
    dimension lists end in an integer. *)
Definition next_entry (key : string) (l : list scalar) : scalar :=
  let n := Z.of_nat (List.length l) in
  if String.eqb key "parent_id" then SInt n
  else if String.eqb key "parent_grid_ratio" then
    if n =? 1 then SInt 3 else last l (SInt 3)
  else if String.eqb key "i_parent_start" || String.eqb key "j_parent_start"
  then SInt 1
  else if String.eqb key "e_we" || String.eqb key "e_sn" then
    if 0 <? n then
      match last l (SInt 0) with
      | SInt v => SInt (bump_odd v)
      | x => x
      end
    else SInt 100
  else
    if 0 <? n then last l (SStr "default") else SStr "default".

Fixpoint grow_list (key : string) (l : list scalar) (k : nat) : list scalar :=
  match k with
  | O => l
  | S k' => grow_list key (l ++ [next_entry key l]) k'
  end.

Lemma grow_step_next (key : string) (l : list scalar) (q : dict) :
  In key list_params ->
  dict_get key q = Some (VList l) ->
  ready key l q ->
  grow_step key q = Ok (dict_set key (VList (l ++ [next_entry key l])) q).
Proof.
  intros Hin Hget (R1 & R2 & R3 & R4).
  unfold grow_step, next_entry. rewrite (getitem_some _ _ _ Hget).
  cbn [bind py_len]. simpl in Hin.
  destruct Hin as [<-|[<-|[<-|[<-|[<-|[<-|[<-|[]]]]]]]];
    cbn [String.eqb Ascii.eqb Bool.eqb andb orb].
  - rewrite len_pos by auto. apply append_to_list. exact Hget.
  - rewrite len_pos by auto.
    destruct (nonempty_last l ltac:(auto)) as (l' & x & ->).
    destruct (Z.of_nat (List.length (l' ++ [x])) =? 1).
    + apply append_to_list. exact Hget.
    + rewrite py_index_last, last_last. cbn [bind].
      apply append_to_list. exact Hget.
  - destruct (R2 eq_refl) as (le & He & Hle).
    rewrite (start_guard_short _ _ _ l le q He Hle). cbn [bind].
    rewrite start_guard_other by reflexivity. cbn [bind].
    apply append_to_list. exact Hget.
  - destruct (R3 eq_refl) as (le & He & Hle).
    rewrite start_guard_other by reflexivity. cbn [bind].
    rewrite (start_guard_short _ _ _ l le q He Hle). cbn [bind].
    apply append_to_list. exact Hget.
  - destruct (R4 (or_introl eq_refl)) as [->|(l' & v & ->)].
    + change (0 <? Z.of_nat (List.length (@nil scalar))) with false.
      cbv iota. apply append_to_list. exact Hget.
    + rewrite len_pos by apply snoc_nonempty.
      rewrite py_index_last, last_last.
      cbn [bind py_mod py_eq_int]. change (2 =? 0) with false. cbv iota.
      cbn [bind py_eq_int]. unfold bump_odd.
      destruct (v mod 2 =? 0); cbn [bind py_add];
        apply append_to_list; exact Hget.
  - destruct (R4 (or_intror eq_refl)) as [->|(l' & v & ->)].
    + change (0 <? Z.of_nat (List.length (@nil scalar))) with false.
      cbv iota. apply append_to_list. exact Hget.
    + rewrite len_pos by apply snoc_nonempty.
      rewrite py_index_last, last_last.
      cbn [bind py_mod py_eq_int]. change (2 =? 0) with false. cbv iota.
      cbn [bind py_eq_int]. unfold bump_odd.
      destruct (v mod 2 =? 0); cbn [bind py_add];
        apply append_to_list; exact Hget.
  - destruct l as [|a l0].
    + change (0 <? Z.of_nat (List.length (@nil scalar))) with false.
      cbv iota. apply append_to_list. exact Hget.
    + destruct (nonempty_last (a :: l0) ltac:(discriminate)) as (l' & x & E).
      rewrite E in *. rewrite len_pos by apply snoc_nonempty.
      rewrite py_index_last, last_last. cbn [bind].
      apply append_to_list. exact Hget.
Qed.

Lemma ready_next (key : string) (l : list scalar) (q : dict) :
  In key list_params ->
  dict_get key q = Some (VList l) ->
  ready key l q ->
  ready key (l ++ [next_entry key l])
        (dict_set key (VList (l ++ [next_entry key l])) q).
Proof.
  intros Hin Hget Hr.
  destruct (grow_step_ready key l q Hin Hget Hr) as (x & Hs & Hr' & _).
  rewrite (grow_step_next key l q Hin Hget Hr) in Hs.
  inversion Hs as [E].
  apply (f_equal (dict_get key)) in E. rewrite !dict_get_set_same in E.
  inversion E as [E']. rewrite E'. exact Hr'.
Qed.

Lemma grow_closed (fuel : nat) (key : string) (m : Z) :
  In key list_params ->
  forall (q : dict) (l : list scalar),
    dict_get key q = Some (VList l) ->
    ready key l q ->
    (Z.to_nat (m - Z.of_nat (List.length l)) <= fuel)%nat ->
    grow fuel key m q
    = (Returned,
       dict_set key
         (VList (grow_list key l (Z.to_nat (m - Z.of_nat (List.length l))))) q).
Proof.
  intros Hin. induction fuel as [|fuel IH]; intros q l Hget Hr Hf;
    rewrite grow_measure, (getitem_some _ _ _ Hget); cbn [bind py_len].
  - destruct (Z.ltb_spec (Z.of_nat (List.length l)) m); [lia|].
    replace (Z.to_nat (m - Z.of_nat (List.length l))) with 0%nat by lia.
    cbn [grow_list]. rewrite (dict_set_same_value _ _ _ Hget). reflexivity.
  - destruct (Z.ltb_spec (Z.of_nat (List.length l)) m) as [Hlt|Hge].
    + rewrite (grow_step_next key l q Hin Hget Hr).
      rewrite (IH _ (l ++ [next_entry key l])%list (dict_get_set_same _ _ _)
                 (ready_next key l q Hin Hget Hr))
        by (rewrite length_app; simpl; lia).
      rewrite dict_set_set.
      replace (Z.to_nat (m - Z.of_nat (List.length l)))
        with (S (Z.to_nat
                   (m - Z.of_nat (List.length (l ++ [next_entry key l])))))
        by (rewrite length_app; simpl; lia).
      reflexivity.
    + replace (Z.to_nat (m - Z.of_nat (List.length l))) with 0%nat by lia.
      cbn [grow_list]. rewrite (dict_set_same_value _ _ _ Hget). reflexivity.
Qed.

Lemma grow_list_length (key : string) (l : list scalar) (k : nat) :
  List.length (grow_list key l k) = (List.length l + k)%nat.
Proof.
  revert l. induction k as [|k IH]; intros l; cbn [grow_list]; [lia|].
  rewrite IH, length_app. simpl. lia.
Qed.

Lemma sync_length_closed (fuel : nat) (key : string) (m : Z) (q : dict)
    (l : list scalar) :
  In key list_params ->
  dict_get key q = Some (VList l) ->
  ready key l q ->
  Z.of_nat (List.length l) <= m ->
  (Z.to_nat (m - Z.of_nat (List.length l)) <= fuel)%nat ->
  sync_length fuel m key q
  = (Returned,
     dict_set key
       (VList (grow_list key l (Z.to_nat (m - Z.of_nat (List.length l))))) q).
Proof.
  intros Hin Hget Hr Hle Hf. unfold sync_length.
  rewrite Hget, (grow_closed fuel key m Hin q l Hget Hr Hf).
  rewrite (getitem_some _ _ _ (dict_get_set_same _ _ _)).
  cbn [bind py_slice_to].
  rewrite slice_stop_all by (rewrite grow_list_length; lia).
  rewrite Nat2Z.id, firstn_all, dict_set_set. reflexivity.
Qed.

(** The growing run over a well-formed section, in closed form. *)
Lemma grow_pass_closed (fuel : nat) (n m : Z) (p : dict) :
  1 <= n <= m ->
  section_state n p = true ->
  (Z.to_nat (m - n) <= fuel)%nat ->
  forall (todo : list string) (q : dict),
    order_ok todo = true ->
    (forall k, In k todo -> In k list_params) ->
    (forall k, In k todo -> dict_get k q = dict_get k p) ->
    exists q',
      for_keys fuel m todo q = (Returned, q') /\
      forall k l, In k todo -> dict_get k q = Some (VList l) ->
        dict_get k q' = Some (VList (grow_list k l (Z.to_nat (m - n)))).
Proof.
  intros Hn Hs Hf. induction todo as [|k rest IH]; intros q Ho Hsub Hq.
  - exists q. split; [reflexivity|]. intros k l [].
  - assert (~ In k rest) as Hk.
    { simpl in Ho. rewrite !andb_true_iff in Ho.
      destruct Ho as (((Hm & _) & _) & _).
      apply negb_true_iff in Hm. intros Hin.
      apply mem_string_In in Hin. congruence. }
    assert (order_ok rest = true) as Ho'.
    { simpl in Ho. rewrite !andb_true_iff in Ho. tauto. }
    simpl for_keys.
    destruct (dict_get k q) as [v|] eqn:Hv.
    + assert (dict_get k p = Some v) as Hp
        by (rewrite <- Hq by (left; reflexivity); exact Hv).
      destruct (section_state_list n p k v Hs (Hsub k (or_introl eq_refl)) Hp)
        as (l & -> & Hlen).
      rewrite (sync_length_closed fuel k m q l (Hsub k (or_introl eq_refl)) Hv);
        try lia.
      2:{ apply (section_state_ready n p q k l rest);
            [ lia | exact Hs | apply Hsub; left; reflexivity | exact Ho
            | exact Hq | intros k' Hk'; apply Hsub; right; exact Hk'
            | exact Hv ]. }
      rewrite Hlen.
      set (q1 := dict_set k (VList (grow_list k l (Z.to_nat (m - n)))) q).
      destruct (IH q1 Ho') as (q' & Hrun & Hres).
      { intros k' Hk'. apply Hsub. right. exact Hk'. }
      { intros k' Hk'. subst q1.
        rewrite dict_get_set_other by (intros ->; contradiction).
        apply Hq. right. exact Hk'. }
      exists q'. split; [exact Hrun|].
      intros k' l' [<-|Hk'] Hl'.
      * rewrite Hv in Hl'. inversion Hl'; subst l'.
        pose proof (for_keys_frame fuel m rest q1) as [_ Hfr].
        rewrite Hrun in Hfr. cbn [snd] in Hfr. rewrite (Hfr k Hk).
        apply dict_get_set_same.
      * apply Hres; [exact Hk'|]. subst q1.
        rewrite dict_get_set_other by (intros ->; contradiction). exact Hl'.
    + assert (sync_length fuel m k q = (Returned, q)) as Hsync
        by (unfold sync_length; rewrite Hv; reflexivity).
      rewrite Hsync.
      destruct (IH q Ho') as (q' & Hrun & Hres).
      { intros k' Hk'. apply Hsub. right. exact Hk'. }
      { intros k' Hk'. apply Hq. right. exact Hk'. }
      exists q'. split; [exact Hrun|].
      intros k' l' [<-|Hk'] Hl'; [congruence|]. apply Hres; assumption.
Qed.

Lemma adjust_closed (fuel : nat) (n m : Z) (p : dict) :
  1 <= n <= m ->
  section_state n p = true ->
  (Z.to_nat (m - n) <= fuel)%nat ->
  exists p',
    adjust_params_for_max_dom fuel p m = (Returned, p') /\
    forall k l, In k list_params -> dict_get k p = Some (VList l) ->
      dict_get k p' = Some (VList (grow_list k l (Z.to_nat (m - n)))).
Proof.
  intros Hn Hs Hf. unfold adjust_params_for_max_dom.
  apply (grow_pass_closed fuel n m p Hn Hs Hf list_params p);
    [reflexivity | auto | auto].
Qed.

(** ** The appended entries, key by key *)

Lemma bump_odd_odd (v : Z) : bump_odd v mod 2 = 1.
Proof.
  unfold bump_odd. destruct (Z.eqb_spec (v mod 2) 0) as [E|E].
  - rewrite Z.add_mod, E by lia. reflexivity.
  - pose proof (Z.mod_pos_bound v 2 ltac:(lia)). lia.
Qed.

Lemma bump_odd_fixed (v : Z) : bump_odd (bump_odd v) = bump_odd v.
Proof.
  unfold bump_odd at 1. rewrite bump_odd_odd. reflexivity.
Qed.

Lemma bump_odd_range (v : Z) : v <= bump_odd v <= v + 1.
Proof. unfold bump_odd. destruct (v mod 2 =? 0); lia. Qed.

Lemma grow_list_parent_id (l : list scalar) (k : nat) :
  grow_list "parent_id" l k
  = (l ++ map (fun i => SInt (Z.of_nat i)) (seq (List.length l) k))%list.
Proof.
  revert l. induction k as [|k IH]; intros l; cbn [grow_list seq map].
  - rewrite app_nil_r. reflexivity.
  - rewrite IH, <- app_assoc, length_app. cbn [List.length app].
    replace (List.length l + 1)%nat with (S (List.length l)) by lia.
    reflexivity.
Qed.

Lemma grow_list_repeat (key : string) (x : scalar) (k : nat) :
  forall l : list scalar,
    next_entry key (l ++ [x]) = x ->
    (forall l', next_entry key (l' ++ [x]) = x ->
                next_entry key ((l' ++ [x]) ++ [x]) = x) ->
    grow_list key (l ++ [x]) k = ((l ++ [x]) ++ repeat x k)%list.
Proof.
  induction k as [|k IH]; intros l Hx Hstep; cbn [grow_list repeat].
  - rewrite app_nil_r. reflexivity.
  - rewrite Hx, (IH (l ++ [x])%list (Hstep l Hx) Hstep), <- !app_assoc.
    reflexivity.
Qed.

Lemma grow_list_starts (key : string) (l : list scalar) (k : nat) :
  key = "i_parent_start" \/ key = "j_parent_start" ->
  grow_list key l k = (l ++ repeat (SInt 1) k)%list.
Proof.
  intros Hk. revert l. induction k as [|k IH]; intros l; cbn [grow_list repeat].
  - rewrite app_nil_r. reflexivity.
  - replace (next_entry key l) with (SInt 1)
      by (destruct Hk as [-> | ->]; reflexivity).
    rewrite IH, <- app_assoc. reflexivity.
Qed.

Lemma next_ratio_snoc (l : list scalar) (x : scalar) :
  l <> [] -> next_entry "parent_grid_ratio" (l ++ [x]) = x.
Proof.
  intros Hne. unfold next_entry. cbn [String.eqb Ascii.eqb Bool.eqb].
  rewrite last_last, length_app. cbn [List.length].
  destruct l; [congruence|]. cbn [List.length].
  destruct (Z.eqb_spec (Z.of_nat (S (List.length l) + 1)) 1); [lia | reflexivity].
Qed.

Lemma grow_list_ratio (l : list scalar) (x : scalar) (k : nat) :
  l <> [] ->
  grow_list "parent_grid_ratio" (l ++ [x]) k = ((l ++ [x]) ++ repeat x k)%list.
Proof.
  intros Hne. apply grow_list_repeat.
  - apply next_ratio_snoc. exact Hne.
  - intros l' _. apply next_ratio_snoc. apply snoc_nonempty.
Qed.

Lemma grow_list_ratio_single (x : scalar) (k : nat) :
  grow_list "parent_grid_ratio" [x] k = x :: repeat (SInt 3) k.
Proof.
  destruct k as [|k]; [reflexivity|].
  cbn [grow_list repeat].
  change ([x] ++ [next_entry "parent_grid_ratio" [x]])%list
    with ([x] ++ [SInt 3])%list.
  rewrite grow_list_ratio by discriminate. reflexivity.
Qed.

Lemma next_dim_snoc (key : string) (l : list scalar) (v : Z) :
  key = "e_we" \/ key = "e_sn" ->
  next_entry key (l ++ [SInt v]) = SInt (bump_odd v).
Proof.
  intros Hk. unfold next_entry.
  rewrite !last_last, len_pos by apply snoc_nonempty.
  destruct Hk as [-> | ->]; reflexivity.
Qed.

Lemma grow_list_dims (key : string) (l : list scalar) (v : Z) (k : nat) :
  key = "e_we" \/ key = "e_sn" ->
  grow_list key (l ++ [SInt v]) k
  = ((l ++ [SInt v]) ++ repeat (SInt (bump_odd v)) k)%list.
Proof.
  intros Hk. destruct k as [|k]; cbn [grow_list repeat].
  - rewrite app_nil_r. reflexivity.
  - rewrite (next_dim_snoc key l v Hk).
    rewrite grow_list_repeat.
    + rewrite <- !app_assoc. reflexivity.
    + rewrite (next_dim_snoc key _ _ Hk), bump_odd_fixed. reflexivity.
    + intros l' _. rewrite (next_dim_snoc key _ _ Hk), bump_odd_fixed.
      reflexivity.
Qed.

Lemma next_res_snoc (l : list scalar) (x : scalar) :
  next_entry "geog_data_res" (l ++ [x]) = x.
Proof.
  unfold next_entry. rewrite !last_last, len_pos by apply snoc_nonempty.
  reflexivity.
Qed.

Lemma grow_list_res (l : list scalar) (x : scalar) (k : nat) :
  grow_list "geog_data_res" (l ++ [x]) k = ((l ++ [x]) ++ repeat x k)%list.
Proof.
  apply grow_list_repeat.
  - apply next_res_snoc.
  - intros l' _. apply next_res_snoc.
Qed.

(** In a geogrid section with [n >= 1] domains, synchronising to
    [m >= n] appends to [parent_id] the entries [n, n+1, ..., m-1]: the
    entry at (0-based) position [i] is [i], the 1-based number of the
    domain before it, so every new domain has an existing parent. *)
Theorem sync_parent_id_chain (fuel : nat) (n m : Z) (p : dict)
    (l : list scalar) :
  1 <= n -> n <= m ->
  section_state n p = true ->
  (Z.to_nat (m - n) <= fuel)%nat ->
  dict_get "parent_id" p = Some (VList l) ->
  exists p',
    adjust_params_for_max_dom fuel p m = (Returned, p') /\
    dict_get "parent_id" p'
    = Some (VList (l ++ map (fun i => SInt (Z.of_nat i))
                            (seq (Z.to_nat n) (Z.to_nat (m - n))))) /\
    forall i, n <= Z.of_nat i < m ->
      exists parent,
        py_index (VList (l ++ map (fun i => SInt (Z.of_nat i))
                                  (seq (Z.to_nat n) (Z.to_nat (m - n)))))
                 (SInt (Z.of_nat i))
        = Ok (SInt parent) /\ 1 <= parent <= Z.of_nat i.
Proof.
  intros Hn Hnm Hs Hf Hl.
  destruct (adjust_closed fuel n m p ltac:(lia) Hs Hf) as (p' & Hrun & Hres).
  assert (In "parent_id" list_params) as Hin by (simpl; tauto).
  destruct (section_state_list n p _ _ Hs Hin Hl) as (l0 & E & Hlen).
  inversion E; subst l0.
  exists p'. split; [exact Hrun|]. split.
  - rewrite (Hres _ _ Hin Hl), grow_list_parent_id.
    replace (Z.to_nat n) with (List.length l) by lia. reflexivity.
  - intros i Hi. exists (Z.of_nat i). split; [|lia].
    assert ((Z.of_nat i <? 0) = false) as E0 by (apply Z.ltb_ge; lia).
    assert ((Z.of_nat (List.length l + Z.to_nat (m - n)) <=? Z.of_nat i)
            = false) as E1 by (apply Z.leb_gt; lia).
    unfold py_index, norm_index. rewrite length_app, length_map, length_seq.
    cbv zeta. rewrite E0. cbv iota. rewrite E0, E1.
    cbn [orb bind]. rewrite Nat2Z.id.
    rewrite nth_error_app2 by lia.
    rewrite nth_error_map, nth_error_seq.
    destruct (Nat.ltb_spec (i - List.length l) (Z.to_nat (m - n))); [|lia].
    cbn [option_map]. do 3 f_equal. lia.
Qed.

(** In such a section, the new entries of [parent_grid_ratio] are all 3
    when there was one domain, and all equal to the last ratio when there
    were more. *)
Theorem sync_ratio_growth (fuel : nat) (n m : Z) (p : dict)
    (l : list scalar) (x : scalar) :
  1 <= n -> n <= m ->
  section_state n p = true ->
  (Z.to_nat (m - n) <= fuel)%nat ->
  dict_get "parent_grid_ratio" p = Some (VList (l ++ [x])) ->
  exists p',
    adjust_params_for_max_dom fuel p m = (Returned, p') /\
    dict_get "parent_grid_ratio" p'
    = Some (VList ((l ++ [x])
                   ++ repeat (match l with [] => SInt 3 | _ => x end)
                             (Z.to_nat (m - n)))).
Proof.
  intros Hn Hnm Hs Hf Hl.
  destruct (adjust_closed fuel n m p ltac:(lia) Hs Hf) as (p' & Hrun & Hres).
  assert (In "parent_grid_ratio" list_params) as Hin by (simpl; tauto).
  exists p'. split; [exact Hrun|].
  rewrite (Hres _ _ Hin Hl).
  destruct l as [|a l].
  - change ([] ++ [x])%list with [x].
    rewrite grow_list_ratio_single. reflexivity.
  - rewrite grow_list_ratio by discriminate. reflexivity.
Qed.

(** In such a section, the new entries of [i_parent_start] and
    [j_parent_start] are all 1: at that point the dimension lists have not
    been extended yet, so the centred position is never computed. *)
Theorem sync_starts_are_one (fuel : nat) (n m : Z) (p : dict) (key : string)
    (l : list scalar) :
  1 <= n -> n <= m ->
  section_state n p = true ->
  (Z.to_nat (m - n) <= fuel)%nat ->
  key = "i_parent_start" \/ key = "j_parent_start" ->
  dict_get key p = Some (VList l) ->
  exists p',
    adjust_params_for_max_dom fuel p m = (Returned, p') /\
    dict_get key p' = Some (VList (l ++ repeat (SInt 1) (Z.to_nat (m - n)))).
Proof.
  intros Hn Hnm Hs Hf Hk Hl.
  destruct (adjust_closed fuel n m p ltac:(lia) Hs Hf) as (p' & Hrun & Hres).
  assert (In key list_params) as Hin
    by (destruct Hk as [-> | ->]; simpl; tauto).
  exists p'. split; [exact Hrun|].
  rewrite (Hres _ _ Hin Hl), (grow_list_starts key l _ Hk). reflexivity.
Qed.

(** In such a section, the new entries of [e_we] and [e_sn] are all the
    same odd number: the last dimension if it is odd, the next integer if
    it is even. *)
Theorem sync_dimensions_odd (fuel : nat) (n m : Z) (p : dict) (key : string)
    (l : list scalar) (v : Z) :
  1 <= n -> n <= m ->
  section_state n p = true ->
  (Z.to_nat (m - n) <= fuel)%nat ->
  key = "e_we" \/ key = "e_sn" ->
  dict_get key p = Some (VList (l ++ [SInt v])) ->
  exists p' w,
    adjust_params_for_max_dom fuel p m = (Returned, p') /\
    dict_get key p'
    = Some (VList ((l ++ [SInt v]) ++ repeat (SInt w) (Z.to_nat (m - n)))) /\
    w mod 2 = 1 /\ v <= w <= v + 1.
Proof.
  intros Hn Hnm Hs Hf Hk Hl.
  destruct (adjust_closed fuel n m p ltac:(lia) Hs Hf) as (p' & Hrun & Hres).
  assert (In key list_params) as Hin
    by (destruct Hk as [-> | ->]; simpl; tauto).
  exists p', (bump_odd v). split; [exact Hrun|]. split.
  - rewrite (Hres _ _ Hin Hl), (grow_list_dims key l v _ Hk). reflexivity.
  - split; [apply bump_odd_odd | apply bump_odd_range].
Qed.

(** In such a section, the new entries of [geog_data_res] repeat the
    last resolution. *)
Theorem sync_resolution_repeats (fuel : nat) (n m : Z) (p : dict)
    (l : list scalar) (x : scalar) :
  1 <= n -> n <= m ->
  section_state n p = true ->
  (Z.to_nat (m - n) <= fuel)%nat ->
  dict_get "geog_data_res" p = Some (VList (l ++ [x])) ->
  exists p',
    adjust_params_for_max_dom fuel p m = (Returned, p') /\
    dict_get "geog_data_res" p'
    = Some (VList ((l ++ [x]) ++ repeat x (Z.to_nat (m - n)))).
Proof.
  intros Hn Hnm Hs Hf Hl.
  destruct (adjust_closed fuel n m p ltac:(lia) Hs Hf) as (p' & Hrun & Hres).
  assert (In "geog_data_res" list_params) as Hin by (simpl; tauto).
  exists p'. split; [exact Hrun|].
  rewrite (Hres _ _ Hin Hl), grow_list_res. reflexivity.
Qed.

End SyncValues.

(** * The synchroniser at its edges *)

Section SyncEdges.

Context {B : Builtins}.

Lemma present_same_keys (k : string) (a b : dict) :
  keys a = keys b -> present (dict_get k a) = present (dict_get k b).
Proof.
  intros E.
  destruct (dict_get k a) eqn:Ha, (dict_get k b) eqn:Hb; try reflexivity.
  - apply dict_get_none_keys in Hb. rewrite <- E in Hb.
    apply dict_get_none_keys in Hb. congruence.
  - apply dict_get_none_keys in Ha. rewrite E in Ha.
    apply dict_get_none_keys in Ha. congruence.
Qed.

Lemma same_keys_absent (k : string) (a b : dict) :
  keys a = keys b -> dict_get k a = None -> dict_get k b = None.
Proof.
  intros E Ha. apply dict_get_none_keys. rewrite <- E.
  apply dict_get_none_keys. exact Ha.
Qed.

Lemma last_snoc_repeat (l : list scalar) (x y d : scalar) (k : nat) :
  last ((l ++ [x]) ++ repeat y k) d = match k with O => x | S _ => y end.
Proof.
  destruct k as [|k].
  - cbn [repeat]. rewrite app_nil_r. apply last_last.
  - replace (repeat y (S k)) with (repeat y k ++ [y])%list
      by (symmetry; apply (repeat_cons k y)).
    rewrite app_assoc. apply last_last.
Qed.

Lemma grown_int_ended (n m : Z) (p p' : dict) (key : string) :
  1 <= n ->
  section_state n p = true ->
  key = "e_we" \/ key = "e_sn" ->
  In key list_params ->
  int_ended (dict_get key p) = true ->
  (dict_get key p = None -> dict_get key p' = None) ->
  (forall l, dict_get key p = Some (VList l) ->
             dict_get key p'
             = Some (VList (grow_list key l (Z.to_nat (m - n))))) ->
  int_ended (dict_get key p') = true.
Proof.
  intros Hn Hs Hk Hin Hint Hnone Hres.
  destruct (dict_get key p) as [v|] eqn:Hv;
    [|rewrite (Hnone eq_refl); reflexivity].
  destruct (section_state_list n p key v Hs Hin Hv) as (l & -> & Hlen).
  rewrite (Hres l eq_refl). cbn [int_ended] in Hint |- *.
  destruct (last_is_int_snoc l) as (l' & x & ->);
    [intros ->; simpl in Hlen; lia | exact Hint |].
  rewrite (grow_list_dims key l' x _ Hk). unfold last_is_int.
  rewrite last_snoc_repeat. destruct (Z.to_nat (m - n)); reflexivity.
Qed.

(** Growing keeps the shape of a geogrid section: from a section with
    [n >= 1] domains, synchronising to [m >= n] returns a section with [m]
    domains, on which a further run with the same target, whatever its
    fuel, changes nothing. *)
Theorem sync_keeps_section_state (fuel : nat) (n m : Z) (p : dict) :
  1 <= n -> n <= m ->
  section_state n p = true ->
  (Z.to_nat (m - n) <= fuel)%nat ->
  exists p',
    adjust_params_for_max_dom fuel p m = (Returned, p') /\
    section_state m p' = true /\
    forall fuel', adjust_params_for_max_dom fuel' p' m = (Returned, p').
Proof.
  intros Hn Hnm Hs Hf.
  destruct (adjust_closed fuel n m p ltac:(lia) Hs Hf) as (p' & Hrun & Hres).
  pose proof (for_keys_frame fuel m list_params p) as [Hkeys _].
  fold (adjust_params_for_max_dom fuel p m) in Hkeys.
  rewrite Hrun in Hkeys. cbn [snd] in Hkeys.
  assert (forall k, dict_get k p = None -> dict_get k p' = None) as Hnone
    by (intros k; apply same_keys_absent; symmetry; exact Hkeys).
  assert (section_state m p' = true) as Hstate.
  { pose proof Hs as Hs'. unfold section_state in Hs' |- *.
    rewrite !andb_true_iff in Hs'. rewrite !andb_true_iff.
    destruct Hs' as ((((H1 & H2) & H3) & H4) & H5).
    split; [split; [split; [split|]|]|].
    - apply forallb_forall. intros k Hin.
      destruct (dict_get k p) as [v|] eqn:Hv.
      + destruct (section_state_list n p k v Hs Hin Hv) as (l & -> & Hlen).
        rewrite (Hres k l Hin Hv). cbn [list_of_length]. apply Z.eqb_eq.
        rewrite grow_list_length. lia.
      + rewrite (Hnone k Hv). reflexivity.
    - rewrite !(present_same_keys _ p' p Hkeys). exact H2.
    - rewrite !(present_same_keys _ p' p Hkeys). exact H3.
    - apply (grown_int_ended n m p p' "e_we" Hn Hs);
        [left; reflexivity | simpl; tauto | exact H4 | apply Hnone |].
      intros l Hl. apply Hres; [simpl; tauto | exact Hl].
    - apply (grown_int_ended n m p p' "e_sn" Hn Hs);
        [right; reflexivity | simpl; tauto | exact H5 | apply Hnone |].
      intros l Hl. apply Hres; [simpl; tauto | exact Hl]. }
  exists p'. split; [exact Hrun|]. split; [exact Hstate|].
  intros fuel'. unfold adjust_params_for_max_dom. apply same_length_pass.
  intros k v Hin Hv. exact (section_state_list m p' k v Hstate Hin Hv).
Qed.

(** Whatever the mapping, a run with a target [m >= 0] that returns
    leaves every list parameter that held a list with exactly [m] entries:
    the first [m] of the old ones, followed by new ones when there were
    fewer. *)
Theorem sync_exact_length (fuel : nat) (p p' : dict) (m : Z) (k : string)
    (l : list scalar) :
  0 <= m ->
  adjust_params_for_max_dom fuel p m = (Returned, p') ->
  In k list_params ->
  dict_get k p = Some (VList l) ->
  exists ext,
    dict_get k p' = Some (VList (firstn (Z.to_nat m) l ++ ext)) /\
    Z.of_nat (List.length (firstn (Z.to_nat m) l ++ ext)) = m /\
    (m <= Z.of_nat (List.length l) -> ext = []).
Proof.
  intros Hm Hrun Hin Hget. unfold adjust_params_for_max_dom in Hrun.
  destruct (Z.lt_ge_cases (Z.of_nat (List.length l)) m) as [Hlt|Hge].
  - destruct (returned_pass fuel m list_params list_params_nodup p p' Hrun
                k l Hin Hget ltac:(lia)) as (ext & Hres & Hlen).
    exists ext. rewrite firstn_all2 by lia.
    split; [exact Hres|]. split; [exact Hlen | lia].
  - exists []. rewrite app_nil_r. split; [|split; [|reflexivity]].
    + apply (returned_shrink_pass fuel m list_params list_params_nodup p p'
               Hrun k l Hin Hget). lia.
    + rewrite length_firstn. lia.
Qed.

(** ** A negative target *)

Lemma sync_length_negative (fuel : nat) (key : string) (m : Z) (q : dict)
    (l : list scalar) :
  dict_get key q = Some (VList l) ->
  m < 0 ->
  sync_length fuel m key q
  = (Returned,
     dict_set key
       (VList (firstn (Z.to_nat (Z.of_nat (List.length l) + m)) l)) q).
Proof.
  intros Hget Hm. unfold sync_length. rewrite Hget.
  rewrite grow_measure, (getitem_some _ _ _ Hget). cbn [bind py_len].
  destruct (Z.ltb_spec (Z.of_nat (List.length l)) m); [lia|].
  rewrite (getitem_some _ _ _ Hget). cbn [bind py_slice_to].
  unfold slice_stop. destruct (Z.ltb_spec m 0); [|lia].
  do 4 f_equal. lia.
Qed.

Lemma negative_pass (fuel : nat) (m : Z) :
  m < 0 ->
  forall (ks : list string) (q : dict),
    NoDup ks ->
    (forall k v, In k ks -> dict_get k q = Some v -> exists l, v = VList l) ->
    exists q',
      for_keys fuel m ks q = (Returned, q') /\
      forall k l, In k ks -> dict_get k q = Some (VList l) ->
        dict_get k q'
        = Some (VList (firstn (Z.to_nat (Z.of_nat (List.length l) + m)) l)).
Proof.
  intros Hm. induction ks as [|k rest IH]; intros q Hnd Hq.
  - exists q. split; [reflexivity|]. intros k l [].
  - inversion Hnd as [|? ? Hk Hnd']; subst. simpl for_keys.
    destruct (dict_get k q) as [v|] eqn:Hv.
    + destruct (Hq k v (or_introl eq_refl) Hv) as (l & ->).
      rewrite (sync_length_negative fuel k m q l Hv Hm).
      set (q1 := dict_set k _ q).
      destruct (IH q1 Hnd') as (q' & Hrun & Hres).
      { intros k' v' Hk' Hv'. subst q1.
        rewrite dict_get_set_other in Hv' by (intros ->; contradiction).
        apply (Hq k' v'); [right; exact Hk' | exact Hv']. }
      exists q'. split; [exact Hrun|].
      intros k' l' [<-|Hk'] Hl'.
      * rewrite Hv in Hl'. inversion Hl'; subst l'.
        pose proof (for_keys_frame fuel m rest q1) as [_ Hfr].
        rewrite Hrun in Hfr. cbn [snd] in Hfr. rewrite (Hfr k Hk).
        apply dict_get_set_same.
      * apply Hres; [exact Hk'|]. subst q1.
        rewrite dict_get_set_other by (intros ->; contradiction). exact Hl'.
    + assert (sync_length fuel m k q = (Returned, q)) as Hsync
        by (unfold sync_length; rewrite Hv; reflexivity).
      rewrite Hsync.
      destruct (IH q Hnd') as (q' & Hrun & Hres).
      { intros k' v' Hk' Hv'. apply (Hq k' v'); [right; exact Hk' | exact Hv']. }
      exists q'. split; [exact Hrun|].
      intros k' l' [<-|Hk'] Hl'; [congruence|]. apply Hres; assumption.
Qed.

(** A negative target is not refused.  When every list parameter holds a
    list, the run returns without entering a loop (no fuel is needed) and
    has removed the last [-m] entries of each list, or all of them when
    there were fewer. *)
Theorem sync_negative_target (fuel : nat) (p : dict) (m : Z) :
  m < 0 ->
  (forall k v, In k list_params -> dict_get k p = Some v ->
               exists l, v = VList l) ->
  exists p',
    adjust_params_for_max_dom fuel p m = (Returned, p') /\
    forall k l, In k list_params -> dict_get k p = Some (VList l) ->
      dict_get k p'
      = Some (VList (firstn (Z.to_nat (Z.of_nat (List.length l) + m)) l)).
Proof.
  intros Hm Hq. unfold adjust_params_for_max_dom.
  apply (negative_pass fuel m Hm list_params p list_params_nodup Hq).
Qed.

(** ** A start list without its dimension list *)

Lemma sync_length_chain_returns (fuel : nat) (k : string) (m : Z) (q : dict) :
  k = "parent_id" \/ k = "parent_grid_ratio" ->
  (forall v, dict_get k q = Some v -> exists l, v = VList l /\ l <> []) ->
  0 <= m -> (Z.to_nat m <= fuel)%nat ->
  exists q', sync_length fuel m k q = (Returned, q') /\ touches k q q'.
Proof.
  intros Hk Hq Hm Hf.
  assert (exists q', sync_length fuel m k q = (Returned, q')) as (q' & Hrun).
  { destruct (dict_get k q) as [v|] eqn:Hv.
    - destruct (Hq v eq_refl) as (l & -> & Hne).
      destruct (Z.le_gt_cases (Z.of_nat (List.length l)) m).
      + destruct (sync_length_grows fuel k m q l) as (ext & Hs & _);
          [destruct Hk as [-> | ->]; simpl; tauto | exact Hv | | lia | lia |
           eexists; exact Hs].
        split; [intros _; exact Hne|].
        destruct Hk as [-> | ->]; (split; [discriminate|]);
          (split; [discriminate|]); intros [E|E]; discriminate E.
      + rewrite (sync_length_shrinks fuel k m q l Hv) by lia.
        eexists; reflexivity.
    - unfold sync_length. rewrite Hv. eexists; reflexivity. }
  exists q'. split; [exact Hrun|].
  pose proof (sync_length_touches fuel m k q) as Ht.
  rewrite Hrun in Ht. exact Ht.
Qed.

Lemma grow_step_missing_dimension (q : dict) (l : list scalar) :
  dict_get "i_parent_start" q = Some (VList l) -> l <> [] ->
  dict_get "e_we" q = None ->
  grow_step "i_parent_start" q = Raise KeyError.
Proof.
  intros Hget Hne He. unfold grow_step, start_guard, getitem.
  rewrite Hget, He. cbn [bind py_len]. rewrite (len_pos l Hne). reflexivity.
Qed.

(** A section that has [i_parent_start] but no [e_we] cannot be grown:
    when [parent_id] and [parent_grid_ratio] are absent or non-empty lists
    and the start list is non-empty and shorter than the target, the run
    raises KeyError, and the start list is as it was. *)
Theorem sync_missing_dimension (fuel : nat) (p : dict) (m : Z)
    (l : list scalar) :
  (forall k v, k = "parent_id" \/ k = "parent_grid_ratio" ->
               dict_get k p = Some v -> exists l, v = VList l /\ l <> []) ->
  dict_get "i_parent_start" p = Some (VList l) ->
  l <> [] ->
  Z.of_nat (List.length l) < m ->
  dict_get "e_we" p = None ->
  (Z.to_nat m <= fuel)%nat ->
  fst (adjust_params_for_max_dom fuel p m) = Raised KeyError /\
  dict_get "i_parent_start" (snd (adjust_params_for_max_dom fuel p m))
  = Some (VList l).
Proof.
  intros Hc Hget Hne Hlt He Hf.
  unfold adjust_params_for_max_dom, list_params. cbn [for_keys].
  destruct (sync_length_chain_returns fuel "parent_id" m p)
    as (q1 & -> & Ht1); [left; reflexivity | | lia | exact Hf |].
  { intros v. apply Hc. left; reflexivity. }
  destruct (sync_length_chain_returns fuel "parent_grid_ratio" m q1)
    as (q2 & -> & Ht2); [right; reflexivity | | lia | exact Hf |].
  { intros v. rewrite (touches_get_other _ _ _ _ Ht1) by discriminate.
    apply Hc. right; reflexivity. }
  assert (dict_get "i_parent_start" q2 = Some (VList l)) as Hget2.
  { rewrite (touches_get_other _ _ _ _ Ht2), (touches_get_other _ _ _ _ Ht1)
      by discriminate. exact Hget. }
  assert (dict_get "e_we" q2 = None) as He2.
  { rewrite (touches_get_other _ _ _ _ Ht2), (touches_get_other _ _ _ _ Ht1)
      by discriminate. exact He. }
  assert (sync_length fuel m "i_parent_start" q2 = (Raised KeyError, q2))
    as Hs.
  { unfold sync_length. rewrite Hget2.
    destruct fuel as [|fuel]; [lia|].
    rewrite grow_measure, (getitem_some _ _ _ Hget2). cbn [bind py_len].
    destruct (Z.ltb_spec (Z.of_nat (List.length l)) m); [|lia].
    rewrite (grow_step_missing_dimension q2 l Hget2 Hne He2). reflexivity. }
  rewrite Hs. split; [reflexivity | exact Hget2].
Qed.

End SyncEdges.

Section SyncEdgeExamples.

#[local] Existing Instance FixedPoint.builtins.

Lemma sync_parent_id_chain_witness :
  section_state 1 default_geogrid_params = true /\
  dict_get "parent_id" default_geogrid_params = Some (VList [SInt 1]) /\
  exists p',
    adjust_params_for_max_dom 2 default_geogrid_params 3 = (Returned, p') /\
    dict_get "parent_id" p'
    = Some (VList ([SInt 1] ++ map (fun i => SInt (Z.of_nat i))
                                   (seq (Z.to_nat 1) (Z.to_nat (3 - 1))))) /\
    forall i, 1 <= Z.of_nat i < 3 ->
      exists parent,
        py_index (VList ([SInt 1] ++ map (fun i => SInt (Z.of_nat i))
                                         (seq (Z.to_nat 1) (Z.to_nat (3 - 1)))))
                 (SInt (Z.of_nat i))
        = Ok (SInt parent) /\ 1 <= parent <= Z.of_nat i.
Proof.
  split; [reflexivity|]. split; [reflexivity|].
  apply (sync_parent_id_chain 2 1 3 default_geogrid_params [SInt 1]);
    first [lia | reflexivity | simpl; lia].
Defined.

Lemma sync_ratio_growth_witness :
  section_state 1 default_geogrid_params = true /\
  exists p',
    adjust_params_for_max_dom 2 default_geogrid_params 3 = (Returned, p') /\
    dict_get "parent_grid_ratio" p'
    = Some (VList (([] ++ [SInt 1]) ++ repeat (SInt 3) (Z.to_nat (3 - 1)))).
Proof.
  split; [reflexivity|].
  apply (sync_ratio_growth 2 1 3 default_geogrid_params [] (SInt 1));
    first [lia | reflexivity | simpl; lia].
Defined.

Lemma sync_starts_are_one_witness :
  section_state 1 default_geogrid_params = true /\
  exists p',
    adjust_params_for_max_dom 2 default_geogrid_params 3 = (Returned, p') /\
    dict_get "i_parent_start" p'
    = Some (VList ([SInt 1] ++ repeat (SInt 1) (Z.to_nat (3 - 1)))).
Proof.
  split; [reflexivity|].
  apply (sync_starts_are_one 2 1 3 default_geogrid_params "i_parent_start"
           [SInt 1]);
    first [lia | reflexivity | simpl; lia | left; reflexivity].
Defined.

Lemma sync_dimensions_odd_witness :
  section_state 1 default_geogrid_params = true /\
  exists p' w,
    adjust_params_for_max_dom 2 default_geogrid_params 3 = (Returned, p') /\
    dict_get "e_we" p'
    = Some (VList (([] ++ [SInt 100]) ++ repeat (SInt w) (Z.to_nat (3 - 1)))) /\
    w mod 2 = 1 /\ 100 <= w <= 100 + 1.
Proof.
  split; [reflexivity|].
  apply (sync_dimensions_odd 2 1 3 default_geogrid_params "e_we" [] 100);
    first [lia | reflexivity | simpl; lia | left; reflexivity].
Defined.

Lemma sync_resolution_repeats_witness :
  section_state 1 default_geogrid_params = true /\
  exists p',
    adjust_params_for_max_dom 2 default_geogrid_params 3 = (Returned, p') /\
    dict_get "geog_data_res" p'
    = Some (VList (([] ++ [SStr "default"])
                   ++ repeat (SStr "default") (Z.to_nat (3 - 1)))).
Proof.
  split; [reflexivity|].
  apply (sync_resolution_repeats 2 1 3 default_geogrid_params []
           (SStr "default"));
    first [lia | reflexivity | simpl; lia].
Defined.

Lemma sync_keeps_section_state_witness :
  section_state 1 default_geogrid_params = true /\
  exists p',
    adjust_params_for_max_dom 2 default_geogrid_params 3 = (Returned, p') /\
    section_state 3 p' = true /\
    forall fuel', adjust_params_for_max_dom fuel' p' 3 = (Returned, p').
Proof.
  split; [reflexivity|].
  apply (sync_keeps_section_state 2 1 3 default_geogrid_params);
    first [lia | reflexivity | simpl; lia].
Defined.

Lemma sync_exact_length_witness :
  adjust_params_for_max_dom 2 [("e_we", VList [SInt 100])] 3
  = (Returned, [("e_we", VList [SInt 100; SInt 101; SInt 101])]) /\
  exists ext,
    dict_get "e_we" [("e_we", VList [SInt 100; SInt 101; SInt 101])]
    = Some (VList (firstn (Z.to_nat 3) [SInt 100] ++ ext)) /\
    Z.of_nat (List.length (firstn (Z.to_nat 3) [SInt 100] ++ ext)) = 3 /\
    (3 <= Z.of_nat (List.length [SInt 100]) -> ext = []).
Proof.
  split; [reflexivity|].
  apply (sync_exact_length 2 [("e_we", VList [SInt 100])]
           [("e_we", VList [SInt 100; SInt 101; SInt 101])] 3 "e_we"
           [SInt 100]);
    first [lia | reflexivity | simpl; tauto].
Defined.

Lemma sync_negative_target_witness :
  -1 < 0 /\
  exists p',
    adjust_params_for_max_dom 0 default_geogrid_params (-1) = (Returned, p') /\
    forall k l, In k list_params ->
      dict_get k default_geogrid_params = Some (VList l) ->
      dict_get k p'
      = Some (VList (firstn (Z.to_nat (Z.of_nat (List.length l) + -1)) l)).
Proof.
  split; [lia|].
  apply (sync_negative_target 0 default_geogrid_params (-1)); [lia|].
  intros k v Hin Hv.
  destruct (section_state_list 1 default_geogrid_params k v eq_refl Hin Hv)
    as (l & -> & _).
  exists l. reflexivity.
Defined.

Lemma sync_missing_dimension_witness :
  dict_get "e_we" [("i_parent_start", VList [SInt 1])] = None /\
  fst (adjust_params_for_max_dom 2 [("i_parent_start", VList [SInt 1])] 2)
  = Raised KeyError /\
  dict_get "i_parent_start"
    (snd (adjust_params_for_max_dom 2 [("i_parent_start", VList [SInt 1])] 2))
  = Some (VList [SInt 1]).
Proof.
  split; [reflexivity|].
  apply (sync_missing_dimension 2 [("i_parent_start", VList [SInt 1])] 2
           [SInt 1]);
    first [reflexivity | discriminate | simpl; lia | idtac].
  intros k v [-> | ->] Hv; discriminate Hv.
Defined.

End SyncEdgeExamples.

(** * More on the nesting geometry *)

Section GeometryMore.

Context {B : Builtins}.

Lemma ceil_div_footprint (nest parent ratio : Z) :
  0 < ratio < 2 ^ 53 -> 0 < nest < 2 ^ 53 -> nest <= ratio * parent ->
  exists c, ceil_div nest ratio = Ok c /\ 1 <= c <= parent.
Proof.
  intros Hr Hn Hp. destruct (ceil_div_spec nest ratio Hn Hr) as (c & Hc & Hb).
  exists c. split; [exact Hc|]. nia.
Qed.

Lemma centred_start_fits (parent c : Z) :
  1 <= c <= parent ->
  1 <= Z.max 1 (parent / 2 - c / 2) /\
  Z.max 1 (parent / 2 - c / 2) + c - 1 <= parent.
Proof.
  intros H.
  pose proof (Z.div_mod parent 2 ltac:(lia)) as Hp.
  pose proof (Z.mod_pos_bound parent 2 ltac:(lia)) as Hpm.
  pose proof (Z.div_mod c 2 ltac:(lia)) as Hc.
  pose proof (Z.mod_pos_bound c 2 ltac:(lia)) as Hcm.
  lia.
Qed.

(** The suggested start always fits when a fit is possible: for a
    positive ratio and positive nest dimensions, all below [2 ^ 53], with
    each nest dimension at most ratio times the parent's, the two
    suggested positions are at least 1 and the fit check accepts them. *)
Theorem suggested_start_fits (parent_we parent_sn nest_we nest_sn ratio : Z) :
  0 < ratio < 2 ^ 53 ->
  0 < nest_we < 2 ^ 53 -> nest_we <= ratio * parent_we ->
  0 < nest_sn < 2 ^ 53 -> nest_sn <= ratio * parent_sn ->
  exists i j i_end j_end,
    suggest_nest_location parent_we nest_we ratio = Ok i /\
    suggest_nest_location parent_sn nest_sn ratio = Ok j /\
    1 <= i /\ 1 <= j /\
    check_fit parent_we parent_sn nest_we nest_sn ratio i j
    = Ok (i_end, j_end, true).
Proof.
  intros Hr Hw Hwp Hs Hsp.
  destruct (ceil_div_footprint nest_we parent_we ratio Hr Hw Hwp)
    as (ci & Hci & Bi).
  destruct (ceil_div_footprint nest_sn parent_sn ratio Hr Hs Hsp)
    as (cj & Hcj & Bj).
  destruct (centred_start_fits parent_we ci Bi) as [Hi1 Hi2].
  destruct (centred_start_fits parent_sn cj Bj) as [Hj1 Hj2].
  exists (Z.max 1 (parent_we / 2 - ci / 2)), (Z.max 1 (parent_sn / 2 - cj / 2)).
  do 2 eexists.
  unfold suggest_nest_location, check_fit. rewrite Hci, Hcj. cbn [bind].
  split; [reflexivity|]. split; [reflexivity|].
  split; [exact Hi1|]. split; [exact Hj1|].
  do 2 f_equal. apply negb_true_iff, orb_false_iff.
  split; apply Z.ltb_ge; assumption.
Qed.

(** The adjustment is idempotent: adjusting an adjusted placement changes
    nothing. *)
Theorem repair_idempotent
    (parent_we parent_sn nest_we nest_sn ratio i j i' j' : Z) :
  repair parent_we parent_sn nest_we nest_sn ratio i j = Ok (i', j') ->
  repair parent_we parent_sn nest_we nest_sn ratio i' j' = Ok (i', j').
Proof.
  unfold repair.
  destruct (ceil_div nest_we ratio) as [ci|e]; [|discriminate].
  destruct (ceil_div nest_sn ratio) as [cj|e]; [|discriminate].
  cbn [bind].
  destruct (Z.ltb_spec parent_we (i + ci - 1));
    destruct (Z.ltb_spec parent_sn (j + cj - 1));
    cbn [bind]; intros Hrun; inversion Hrun; subst i' j'; clear Hrun;
    repeat match goal with
           | |- context [?a <? ?b] => destruct (Z.ltb_spec a b)
           end;
    cbn [bind]; do 2 f_equal; lia.
Qed.

(** The adjustment never moves a start away from the origin: from starts
    of at least 1 it returns starts of at least 1 that are no greater. *)
Theorem repair_moves_left
    (parent_we parent_sn nest_we nest_sn ratio i j i' j' : Z) :
  1 <= i -> 1 <= j ->
  repair parent_we parent_sn nest_we nest_sn ratio i j = Ok (i', j') ->
  1 <= i' <= i /\ 1 <= j' <= j.
Proof.
  intros Hi Hj. unfold repair.
  destruct (ceil_div nest_we ratio) as [ci|e]; [|discriminate].
  destruct (ceil_div nest_sn ratio) as [cj|e]; [|discriminate].
  cbn [bind].
  destruct (Z.ltb_spec parent_we (i + ci - 1));
    destruct (Z.ltb_spec parent_sn (j + cj - 1));
    cbn [bind]; intros Hrun; inversion Hrun; subst i' j'; lia.
Qed.

Lemma suggested_dim_int (parent_dim : Z) :
  suggested_dim (SInt parent_dim) = Ok (SInt (bump_odd (parent_dim / 3))).
Proof.
  unfold suggested_dim, bump_odd. cbn [py_floordiv bind].
  change (3 =? 0) with false. cbn [bind py_mod].
  change (2 =? 0) with false. cbn [bind py_eq_int].
  destruct (parent_dim / 3 mod 2 =? 0); reflexivity.
Qed.

(** The dimension suggested for a nest in a parent of [parent_dim >= 1]
    points is an odd number between 1 and [parent_dim]; when the parent
    dimension and the ratio are below [2 ^ 53], a nest of that size placed
    at the suggested start fits in the parent, whatever the positive
    ratio. *)
Theorem suggested_dim_fits (parent_dim ratio : Z) :
  1 <= parent_dim < 2 ^ 53 -> 1 <= ratio < 2 ^ 53 ->
  exists w c start,
    suggested_dim (SInt parent_dim) = Ok (SInt w) /\
    w mod 2 = 1 /\ 1 <= w <= parent_dim /\
    ceil_div w ratio = Ok c /\
    suggest_nest_location parent_dim w ratio = Ok start /\
    1 <= start /\ start + c - 1 <= parent_dim.
Proof.
  intros Hp Hr.
  set (w := bump_odd (parent_dim / 3)).
  assert (w mod 2 = 1) as Hodd by apply bump_odd_odd.
  assert (1 <= w <= parent_dim) as Hw.
  { pose proof (bump_odd_range (parent_dim / 3)) as Hb. fold w in Hb.
    pose proof (Z.div_mod parent_dim 3 ltac:(lia)) as Hd.
    pose proof (Z.mod_pos_bound parent_dim 3 ltac:(lia)) as Hm.
    assert (w <> 0) by (intros E; rewrite E in Hodd; discriminate Hodd).
    lia. }
  destruct (ceil_div_footprint w parent_dim ratio) as (c & Hc & Bc);
    [lia | lia | nia |].
  destruct (centred_start_fits parent_dim c Bc) as [H1 H2].
  exists w, c, (Z.max 1 (parent_dim / 2 - c / 2)).
  split; [apply suggested_dim_int|]. split; [exact Hodd|].
  split; [exact Hw|]. split; [exact Hc|].
  unfold suggest_nest_location. rewrite Hc. cbn [bind].
  split; [reflexivity|]. split; assumption.
Qed.

End GeometryMore.

(** * The date lists of the share section *)

Section DateLists.

Context {B : Builtins}.

Lemma py_index_first (d : scalar) (l : list scalar) :
  py_index (VList (d :: l)) (SInt 0) = Ok d.
Proof.
  unfold py_index, norm_index. change (0 <? 0) with false. cbv iota.
  change (0 <? 0) with false.
  destruct (Z.leb_spec (Z.of_nat (List.length (d :: l))) 0) as [H|H];
    [simpl in H; lia | reflexivity].
Qed.

Lemma date_step_appends (key : string) (d : scalar) (l : list scalar)
    (q : dict) :
  dict_get key q = Some (VList (d :: l)) ->
  date_step key q = Ok (dict_set key (VList (d :: (l ++ [d]))) q).
Proof.
  intros Hget. unfold date_step, append_to.
  rewrite (getitem_some _ _ _ Hget). cbn [bind py_append].
  rewrite py_index_first. reflexivity.
Qed.

(** the list left under a date key: the old entries, then copies of the
    first, cut to [m] entries *)
Definition date_list (m : Z) (d : scalar) (l : list scalar) : list scalar :=
  firstn (Z.to_nat m)
    ((d :: l) ++ repeat d (Z.to_nat (m - Z.of_nat (List.length (d :: l))))).

Lemma date_grow_returns (key : string) (m : Z) (d : scalar) :
  key <> "max_dom" ->
  forall (fuel : nat) (l : list scalar) (q : dict),
    dict_get key q = Some (VList (d :: l)) ->
    dict_get "max_dom" q = Some (VScalar (SInt m)) ->
    (Z.to_nat (m - Z.of_nat (List.length (d :: l))) <= fuel)%nat ->
    date_grow fuel key q
    = (Returned,
       dict_set key
         (VList ((d :: l)
                 ++ repeat d (Z.to_nat (m - Z.of_nat (List.length (d :: l))))))
         q).
Proof.
  intros Hk. induction fuel as [|fuel IH]; intros l q Hget Hmax Hf;
    cbn [date_grow]; unfold date_guard;
    rewrite (getitem_some _ _ _ Hget), (getitem_some _ _ _ Hmax);
    cbn [bind py_len py_int_lt];
    destruct (Z.ltb_spec (Z.of_nat (List.length (d :: l))) m) as [Hlt|Hge];
    try lia.
  - replace (Z.to_nat (m - Z.of_nat (List.length (d :: l)))) with O by lia.
    cbn [repeat]. rewrite app_nil_r, (dict_set_same_value _ _ _ Hget).
    reflexivity.
  - rewrite (date_step_appends key d l q Hget).
    rewrite (IH (l ++ [d])%list);
      [ | apply dict_get_set_same
        | rewrite dict_get_set_other by congruence; exact Hmax
        | cbn [List.length] in *; rewrite length_app; cbn [List.length]; lia ].
    rewrite dict_set_set. do 3 f_equal.
    replace (Z.to_nat (m - Z.of_nat (List.length (d :: l))))
      with (S (Z.to_nat (m - Z.of_nat (List.length (d :: (l ++ [d]))))))
      by (cbn [List.length] in *; rewrite length_app; cbn [List.length]; lia).
    cbn [repeat]. change (d :: l ++ [d])%list with ((d :: l) ++ [d])%list.
    rewrite <- app_assoc. reflexivity.
  - replace (Z.to_nat (m - Z.of_nat (List.length (d :: l)))) with O by lia.
    cbn [repeat]. rewrite app_nil_r, (dict_set_same_value _ _ _ Hget).
    reflexivity.
Qed.

Lemma date_sync_returns (fuel : nat) (key : string) (m : Z) (d : scalar)
    (l : list scalar) (q : dict) :
  key <> "max_dom" ->
  dict_get key q = Some (VList (d :: l)) ->
  dict_get "max_dom" q = Some (VScalar (SInt m)) ->
  0 <= m ->
  (Z.to_nat m <= fuel)%nat ->
  date_sync fuel key q = (Returned, dict_set key (VList (date_list m d l)) q).
Proof.
  intros Hk Hget Hmax Hm Hf. unfold date_sync.
  rewrite (date_grow_returns key m d Hk fuel l q Hget Hmax) by lia.
  set (L := ((d :: l) ++ repeat d _)%list).
  rewrite (getitem_some _ _ _ (dict_get_set_same _ _ _)).
  assert (getitem "max_dom" (dict_set key (VList L) q)
          = Ok (VScalar (SInt m))) as ->.
  { apply getitem_some. rewrite dict_get_set_other by congruence. exact Hmax. }
  cbn [bind py_slice_bound py_slice_to]. rewrite dict_set_set.
  do 3 f_equal. unfold date_list. fold L. unfold slice_stop.
  destruct (Z.ltb_spec m 0); [lia|].
  destruct (Z.le_gt_cases m (Z.of_nat (List.length L))).
  - f_equal. lia.
  - rewrite !firstn_all2 by lia. reflexivity.
Qed.

Lemma date_list_length (m : Z) (d : scalar) (l : list scalar) :
  0 <= m -> Z.of_nat (List.length (date_list m d l)) = m.
Proof.
  intros Hm. unfold date_list.
  rewrite length_firstn, length_app, repeat_length. lia.
Qed.

Lemma date_list_entry (m : Z) (d : scalar) (l : list scalar) (i : nat) :
  Z.of_nat i < m ->
  nth_error (date_list m d l) i
  = Some (nth i (d :: l) d).
Proof.
  intros Hi. unfold date_list.
  rewrite nth_error_firstn.
  destruct (Nat.ltb_spec i (Z.to_nat m)); [|lia].
  destruct (Nat.lt_ge_cases i (List.length (d :: l))) as [Hlt|Hge].
  - rewrite nth_error_app1 by exact Hlt. apply nth_error_nth'. exact Hlt.
  - rewrite nth_error_app2 by exact Hge.
    rewrite (nth_overflow (d :: l) d Hge).
    apply nth_error_repeat. lia.
Qed.

(** With a stored [max_dom = m >= 0] and non-empty date lists, the loop of
    [configure_share] returns and leaves [start_date] and [end_date] with
    exactly [m] entries each: entry [i] is the old entry [i] where there
    was one, and otherwise the first entry of the list (domain 1's date,
    not the last one's).  No other key changes. *)
Theorem sync_dates_fills (fuel : nat) (p : dict) (m : Z)
    (s e : scalar) (ls le : list scalar) :
  dict_get "max_dom" p = Some (VScalar (SInt m)) ->
  0 <= m ->
  dict_get "start_date" p = Some (VList (s :: ls)) ->
  dict_get "end_date" p = Some (VList (e :: le)) ->
  (Z.to_nat m <= fuel)%nat ->
  exists p' starts ends,
    sync_dates fuel p = (Returned, p') /\
    dict_get "start_date" p' = Some (VList starts) /\
    dict_get "end_date" p' = Some (VList ends) /\
    Z.of_nat (List.length starts) = m /\
    Z.of_nat (List.length ends) = m /\
    (forall i, Z.of_nat i < m ->
       nth_error starts i = Some (nth i (s :: ls) s) /\
       nth_error ends i = Some (nth i (e :: le) e)) /\
    (forall k, k <> "start_date" -> k <> "end_date" ->
               dict_get k p' = dict_get k p).
Proof.
  intros Hmax Hm Hs He Hf.
  exists (dict_set "end_date" (VList (date_list m e le))
            (dict_set "start_date" (VList (date_list m s ls)) p)),
    (date_list m s ls), (date_list m e le).
  split.
  - unfold sync_dates.
    rewrite (date_sync_returns fuel "start_date" m s ls p) by
      (first [discriminate | assumption]).
    apply date_sync_returns; try assumption; try discriminate.
    + rewrite dict_get_set_other by discriminate. exact He.
    + rewrite dict_get_set_other by discriminate. exact Hmax.
  - split; [rewrite dict_get_set_other by discriminate;
            apply dict_get_set_same|].
    split; [apply dict_get_set_same|].
    split; [apply date_list_length; exact Hm|].
    split; [apply date_list_length; exact Hm|].
    split.
    + intros i Hi. split; apply date_list_entry; exact Hi.
    + intros k Hk1 Hk2. rewrite !dict_get_set_other by congruence.
      reflexivity.
Qed.

End DateLists.

(** * Prompts *)

Section Prompts.

Context {B : Builtins}.

(** An answer is the default, for an empty line, or the line typed, which
    the validator accepts. *)
Lemma get_input_answered (prompt : string) (default : option scalar)
    (validator : option (string -> bool * string)) :
  forall (pending : list string) (v : scalar) (rest : list string)
         (shown : list event),
    get_input prompt default validator pending = (Answered v, rest, shown) ->
    exists rejected last,
      pending = (rejected ++ last :: rest)%list /\
      ((last = "" /\ default = Some v) \/
       (v = SStr last /\ (default <> None -> last <> "") /\
        forall f, validator = Some f -> fst (f last) = true)).
Proof.
  induction pending as [|u rest0 IH]; intros v rest shown H;
    cbn [get_input] in H; [discriminate H|].
  assert (default = None \/ u <> "" -> default <> None -> u <> "") as Hne
    by (intros [E|E]; [congruence | auto]).
  destruct default as [d|]; [destruct (String.eqb_spec u "") as [->|Hu]|].
  1:{ inversion H; subst. exists [], "". split; [reflexivity|]. left. auto. }
  all: destruct (String.eqb_spec (lower u) "q") as [|Hq]; [discriminate H|].
  all: destruct validator as [f|]; [destruct (f u) as [[|] msg] eqn:Hf|].
  all: try (inversion H; subst; exists [], u; split; [reflexivity|]; right;
            split; [reflexivity|]; split; [apply Hne; auto|];
            intros f' E; inversion E; subst f'; rewrite Hf; reflexivity).
  all: match type of H with
       | context [get_input ?a ?b ?c ?r] =>
           destruct (get_input a b c r) as [[ans r'] sh] eqn:Hrec
       end;
       inversion H; subst;
       destruct (IH _ _ _ eq_refl) as (rej & last & -> & Hlast);
       exists (u :: rej), last; split; [reflexivity | exact Hlast].
Qed.

(** An answer of [get_input] is either the default, returned for an empty
    line without being validated, or the text of a typed line that is not
    [q] or [Q] and that the validator accepts; every line read before it
    was rejected by the validator.  So [q] can never be entered as a
    value, and an empty line can only be entered where there is no
    default. *)
Theorem get_input_sound (prompt : string) (default : option scalar)
    (validator : option (string -> bool * string)) :
  forall (pending : list string) (v : scalar) (rest : list string)
         (shown : list event),
    get_input prompt default validator pending = (Answered v, rest, shown) ->
    exists rejected last,
      pending = (rejected ++ last :: rest)%list /\
      Forall (fun s => exists f, validator = Some f /\ fst (f s) = false)
             rejected /\
      ((default = Some v /\ last = "") \/
       (v = SStr last /\ lower last <> "q" /\
        (default <> None -> last <> "") /\
        forall f, validator = Some f -> fst (f last) = true)).
Proof.
  induction pending as [|u rest0 IH]; intros v rest shown H;
    cbn [get_input] in H; [discriminate H|].
  assert (default = None \/ u <> "" -> default <> None -> u <> "") as Hne
    by (intros [E|E]; [congruence | auto]).
  destruct default as [d|]; [destruct (String.eqb_spec u "") as [->|Hu]|].
  1:{ inversion H; subst. exists [], "". split; [reflexivity|].
      split; [constructor|]. left. auto. }
  all: destruct (String.eqb_spec (lower u) "q") as [|Hq]; [discriminate H|].
  all: destruct validator as [f|]; [destruct (f u) as [[|] msg] eqn:Hf|].
  all: try (inversion H; subst; exists [], u;
            split; [reflexivity|]; split; [constructor|]; right;
            split; [reflexivity|]; split; [exact Hq|];
            split; [apply Hne; auto|];
            intros f' E; inversion E; subst f'; rewrite Hf; reflexivity).
  all: match type of H with
       | context [get_input ?a ?b ?c ?r] =>
           destruct (get_input a b c r) as [[ans r'] sh] eqn:Hrec
       end;
       inversion H; subst;
       destruct (IH _ _ _ eq_refl) as (rej & last & -> & Hrej & Hlast);
       exists (u :: rej), last; split; [reflexivity|];
       split; [|exact Hlast];
       constructor; [|exact Hrej]; exists f; rewrite Hf; auto.
Qed.

Definition prompt_text (prompt : string) (default : option scalar) : string :=
  match default with
  | Some d => prompt ++ " [" ++ scalar_str d ++ "]: "
  | None => prompt ++ ": "
  end.

(** the messages printed, in order *)
Definition printed (shown : list event) : list string :=
  flat_map (fun e => match e with Output s => [s] | Prompt _ => [] end) shown.

Lemma get_input_typed (prompt : string) (default : option scalar)
    (f : string -> bool * string) (u : string) (rest : list string) :
  u <> "" -> lower u <> "q" ->
  get_input prompt default (Some f) (u :: rest)
  = match f u with
    | (true, _) =>
        (Answered (SStr u), rest, [Prompt (prompt_text prompt default)])
    | (false, error_message) =>
        let '(a, rest', shown) := get_input prompt default (Some f) rest in
        (a, rest',
         Prompt (prompt_text prompt default)
         :: Output ("Error: " ++ error_message) :: shown)
    end.
Proof.
  intros Hu Hq. cbn [get_input]. unfold prompt_text.
  apply String.eqb_neq in Hu. apply String.eqb_neq in Hq.
  destruct default; rewrite ?Hu, Hq; reflexivity.
Qed.

(** The prompt is repeated until a line is accepted: after any number of
    rejected lines, the first accepted one is returned as typed, the lines
    after it are left unread, and exactly one error message was printed
    for each rejected line. *)
Theorem get_input_retries (prompt : string) (default : option scalar)
    (f : string -> bool * string) (rejected : list string) (last : string)
    (rest : list string) :
  Forall (fun s => s <> "" /\ lower s <> "q" /\ fst (f s) = false) rejected ->
  last <> "" -> lower last <> "q" -> fst (f last) = true ->
  exists shown,
    get_input prompt default (Some f) (rejected ++ last :: rest)
    = (Answered (SStr last), rest, shown) /\
    printed shown = map (fun s => "Error: " ++ snd (f s)) rejected.
Proof.
  intros Hrej Hl Hq Hf. induction Hrej as [|u rej (Hu & Huq & Hfu) _ IH].
  - cbn [Datatypes.app]. rewrite (get_input_typed _ _ _ _ _ Hl Hq).
    destruct (f last) as [[|] msg]; [|discriminate Hf].
    eexists. split; reflexivity.
  - destruct IH as (shown & Hrun & Hp). cbn [Datatypes.app].
    rewrite (get_input_typed _ _ _ _ _ Hu Huq), Hrun.
    destruct (f u) as [[|] msg] eqn:Hfu'; [discriminate Hfu|].
    eexists. split; [reflexivity|]. cbn [printed flat_map Datatypes.app map].
    fold (printed shown). rewrite Hp, Hfu'. reflexivity.
Qed.

(** At a prompt for a positive integer whose default is the text of the
    stored integer [n], the answer depends on the last line read.  When
    that line is empty the answer is the text of [n] itself, which nothing
    checks.  When it is not, the answer is that line, and it is the text
    of a positive integer.  Either way the conversion that follows cannot
    fail. *)
Theorem positive_prompt (prompt : string) (n : Z) (pending : list string)
    (v : scalar) (rest : list string) (shown : list event) :
  get_input prompt (Some (SStr (int_str n))) (Some validate_positive_integer)
    pending
  = (Answered v, rest, shown) ->
  exists rejected last,
    pending = (rejected ++ last :: rest)%list /\
    ((last = "" /\ v = SStr (int_str n) /\ py_int (int_str n) = Some n) \/
     (last <> "" /\ v = SStr last /\
      exists k, py_int last = Some k /\ 0 < k)).
Proof.
  intros H.
  destruct (get_input_answered _ _ _ _ _ _ _ H)
    as (rej & last & Hp & [(Hl & E)|(-> & Hne & Hv)]);
    exists rej, last; (split; [exact Hp|]).
  - inversion E; subst v. left.
    split; [exact Hl|]. split; [reflexivity | apply py_int_int_str].
  - right. split; [apply Hne; discriminate|]. split; [reflexivity|].
    specialize (Hv _ eq_refl). unfold validate_positive_integer in Hv.
    destruct (py_int last) as [k|] eqn:Hk; [|discriminate Hv].
    destruct (Z.leb_spec k 0); [discriminate Hv|].
    exists k. split; [reflexivity | lia].
Qed.

Lemma parent_id_options_spec (i : Z) (s : string) :
  mem_string s (parent_id_options i) = true <->
  exists j, 1 <= j <= i /\ s = int_str j.
Proof.
  rewrite mem_string_In. unfold parent_id_options. rewrite in_map_iff.
  split.
  - intros (j & <- & Hj). apply in_seq in Hj.
    exists (Z.of_nat j). split; [lia | reflexivity].
  - intros (j & Hj & ->). exists (Z.to_nat j).
    split; [f_equal; lia | apply in_seq; lia].
Qed.

(** At the prompt for the parent of the domain at 0-based position [i],
    whose default is the text of the stored parent id [n], the answer
    depends on the last line read.  When that line is empty the answer is
    the text of [n], whatever [n] is.  When it is not, the answer is that
    line, and it is exactly the decimal text of an integer between 1 and
    [i], an existing earlier domain. *)
Theorem parent_id_prompt (prompt : string) (i n : Z) (pending : list string)
    (v : scalar) (rest : list string) (shown : list event) :
  get_input prompt (Some (SStr (int_str n)))
    (Some (fun x => validate_option x (parent_id_options i))) pending
  = (Answered v, rest, shown) ->
  exists rejected last,
    pending = (rejected ++ last :: rest)%list /\
    ((last = "" /\ v = SStr (int_str n)) \/
     (last <> "" /\ v = SStr last /\
      exists k, last = int_str k /\ py_int last = Some k /\ 1 <= k <= i)).
Proof.
  intros H.
  destruct (get_input_answered _ _ _ _ _ _ _ H)
    as (rej & last & Hp & [(Hl & E)|(-> & Hne & Hv)]);
    exists rej, last; (split; [exact Hp|]).
  - inversion E; subst v. left. split; [exact Hl | reflexivity].
  - right. split; [apply Hne; discriminate|]. split; [reflexivity|].
    specialize (Hv _ eq_refl). cbv beta in Hv. unfold validate_option in Hv.
    destruct (mem_string last (parent_id_options i)) eqn:Hm;
      [|discriminate Hv].
    apply parent_id_options_spec in Hm as (j & Hj & ->).
    exists j. split; [reflexivity|].
    split; [apply py_int_int_str | exact Hj].
Qed.

Lemma split_join_commas (x : string) (r : list string) :
  Forall (fun s => str_mem "," s = false) (x :: r) ->
  split_where (Ascii.eqb ",") (join "," (x :: r)) = x :: r.
Proof.
  revert x. induction r as [|y r IH]; intros x Hall;
    inversion Hall as [|? ? Hx Hr]; subst.
  - cbn [join]. apply split_where_none. apply not_mem_forall. exact Hx.
  - change (join "," (x :: y :: r)) with (x ++ String "," (join "," (y :: r))).
    rewrite split_where_first;
      [ | apply not_mem_forall; exact Hx | reflexivity ].
    rewrite (IH y Hr). reflexivity.
Qed.

(** Leaving the line empty at the prompt for [fg_name] keeps the list:
    when it is a non-empty list of strings without commas and without
    white space at their ends, joining it for the default and splitting
    the answer gives the same list back. *)
Theorem fg_name_kept (prompt : string) (params : dict) (names rest : list string) :
  dict_get "fg_name" params = Some (VList (map SStr names)) ->
  names <> [] ->
  Forall (fun s => str_mem "," s = false /\ strip s = s) names ->
  exists d shown,
    fg_name_default params = Ok d /\
    get_input prompt (Some (SStr d)) None ("" :: rest)
    = (Answered (SStr d), rest, shown) /\
    fg_name_entries d = VList (map SStr names).
Proof.
  intros Hget Hne Hall. unfold fg_name_default.
  rewrite (getitem_some _ _ _ Hget). cbn [bind py_join].
  assert (forallb is_str (map SStr names) = true) as ->
    by (clear; induction names; [reflexivity | exact IHnames]).
  assert (map scalar_str (map SStr names) = names) as ->
    by (rewrite map_map; apply map_id).
  do 2 eexists. split; [reflexivity|]. split; [reflexivity|].
  unfold fg_name_entries. destruct names as [|x r]; [congruence|].
  rewrite split_join_commas
    by (eapply Forall_impl; [|exact Hall]; intros a [Ha _]; exact Ha).
  f_equal. rewrite <- (map_map strip SStr). f_equal.
  rewrite <- (map_id (x :: r)) at 2. apply map_ext_Forall.
  eapply Forall_impl; [|exact Hall]. intros a [_ Ha]. exact Ha.
Qed.

End Prompts.

(** * What the reader returns, whatever the file *)

Section ReaderMore.

Context {B : Builtins}.

Definition lists_nonempty (d : dict) : Prop :=
  forall k l, dict_get k d = Some (VList l) -> l <> [].

Definition store_nonempty (s : store) : Prop :=
  forall sec, lists_nonempty (section_of sec s).

Lemma split_where_nonempty (p : ascii -> bool) (s : string) :
  split_where p s <> [].
Proof.
  induction s as [|c s IH]; simpl; [discriminate|].
  destruct (p c); [discriminate|].
  destruct (split_where p s); [congruence | discriminate].
Qed.

Lemma read_value_nonempty (s : string) (l : list scalar) :
  read_value s = VList l -> l <> [].
Proof.
  unfold read_value. destruct (str_mem "," s); [|discriminate].
  intros E Hnil. inversion E as [El]. rewrite Hnil in El.
  apply map_eq_nil in El. apply map_eq_nil in El.
  exact (split_where_nonempty _ _ El).
Qed.

Lemma lists_nonempty_set (k : string) (v : value) (d : dict) :
  lists_nonempty d -> (forall l, v = VList l -> l <> []) ->
  lists_nonempty (dict_set k v d).
Proof.
  intros Hd Hv k' l. destruct (String.eqb_spec k k') as [<-|Hk].
  - rewrite dict_get_set_same. intros E. apply Hv. congruence.
  - rewrite dict_get_set_other by exact Hk. apply Hd.
Qed.

Lemma read_line_nonempty (st : reader) (raw : string) :
  store_nonempty (contents st) ->
  store_nonempty (contents (read_line st raw)).
Proof.
  intros Hs. unfold read_line.
  destruct (_ || _); [exact Hs|].
  destruct (startswith "&" (strip raw)).
  { destruct (recognise _); exact Hs. }
  destruct (_ || _); [exact Hs|].
  destruct (current_section st) as [sec|]; [|exact Hs].
  destruct (read_assignment (strip raw)) as [[k v]|] eqn:Ha; [|exact Hs].
  assert (forall l, v = VList l -> l <> []) as Hv.
  { unfold read_assignment in Ha.
    destruct (split_once "=" (strip raw)) as [[a b]|]; [|discriminate Ha].
    inversion Ha; subst. intros l. apply read_value_nonempty. }
  cbn [contents]. intros sec'. pose proof (Hs sec') as Hsec'.
  pose proof (Hs sec) as Hsec.
  destruct sec, sec'; cbn [section_of with_section share_params
                             geogrid_params ungrib_params metgrid_params]
    in *; first [exact Hsec' | apply lists_nonempty_set; assumption].
Qed.

Lemma read_lines_nonempty (lines : list string) :
  forall st : reader,
    store_nonempty (contents st) ->
    store_nonempty (contents (read_lines st lines)).
Proof.
  unfold read_lines. induction lines as [|raw lines IH]; intros st Hs;
    [exact Hs|].
  cbn [fold_left]. apply IH. apply read_line_nonempty. exact Hs.
Qed.

Lemma dict_get_listify (k : string) (d : dict) :
  dict_get k (listify d)
  = match dict_get k d with
    | Some (VScalar a) =>
        Some (if mem_string k inherent_lists then VList [a] else VScalar a)
    | o => o
    end.
Proof.
  induction d as [|[k0 v0] d IH]; [reflexivity|].
  cbn [listify map fst snd]. fold (listify d).
  destruct v0 as [a|l].
  - destruct (mem_string k0 inherent_lists) eqn:Hm; cbn [dict_get];
      destruct (String.eqb_spec k0 k) as [<-|Hk];
      rewrite ?Hm; first [reflexivity | exact IH].
  - cbn [dict_get]. destruct (String.eqb k0 k); [reflexivity | exact IH].
Qed.

Lemma section_of_listify (sec : section) (s : store) :
  section_of sec (listify_store s) = listify (section_of sec s).
Proof. destruct sec; reflexivity. Qed.

(** What [listify] makes of a mapping without empty lists. *)
Lemma listify_shape (d : dict) (k : string) (v : value) :
  lists_nonempty d ->
  dict_get k (listify d) = Some v ->
  (In k inherent_lists -> exists l, v = VList l) /\
  (forall l, v = VList l -> l <> []).
Proof.
  intros Hd. rewrite dict_get_listify. specialize (Hd k).
  destruct (dict_get k d) as [[a|l]|]; [| |discriminate].
  - destruct (mem_string k inherent_lists) eqn:Hm; intros E; inversion E.
    + split; [eauto|]. intros l El. inversion El. discriminate.
    + split; [|discriminate].
      intros Hin. apply mem_string_In in Hin. congruence.
  - intros E; inversion E; subst. split; [eauto|].
    intros l' El. inversion El; subst. apply Hd. reflexivity.
Qed.

Lemma initial_store_nonempty : store_nonempty (contents initial_reader).
Proof. intros sec k l. destruct sec; discriminate. Qed.

(** Whatever the text of the file, in every section returned by the
    reader each of the ten parameters that are lists by nature holds a
    list, and no parameter holds an empty list. *)
Theorem read_lists_nonempty (text : string) (sec : section) (k : string)
    (v : value) :
  dict_get k (section_of sec (read_existing_namelist text)) = Some v ->
  (In k inherent_lists -> exists l, v = VList l) /\
  (forall l, v = VList l -> l <> []).
Proof.
  unfold read_existing_namelist. rewrite section_of_listify.
  apply listify_shape.
  apply (read_lines_nonempty (split_where is_newline text) initial_reader).
  exact initial_store_nonempty.
Qed.

(** Whatever the text of the file and the target, synchronising the
    geogrid section read from it ends: with fuel [max_dom] the run returns
    or raises, and never loops. *)
Theorem read_then_sync_terminates (text : string) (m : Z) (fuel : nat) :
  (Z.to_nat m <= fuel)%nat ->
  fst (adjust_params_for_max_dom fuel
         (geogrid_params (read_existing_namelist text)) m) <> Diverged.
Proof.
  intros Hf. unfold adjust_params_for_max_dom.
  apply for_keys_terminates; [apply list_params_nodup | auto | exact Hf |].
  intros k Hk Hkk v Hv.
  change (geogrid_params (read_existing_namelist text))
    with (listify (section_of Geogrid
            (contents (read_lines initial_reader
                         (split_where is_newline text))))) in Hv.
  apply listify_shape in Hv as [Hl Hne];
    [|apply read_lines_nonempty; exact initial_store_nonempty].
  destruct Hl as (l & ->);
    [destruct Hkk as [-> | ->]; simpl; tauto|].
  exists l. split; [reflexivity | apply Hne; reflexivity].
Qed.

(** ** Comment lines *)

Lemma cons_head_app (c : ascii) (l l' : list string) :
  l <> [] -> cons_head c (l ++ l') = (cons_head c l ++ l')%list.
Proof. destruct l; [congruence | reflexivity]. Qed.

Lemma split_where_app (p : ascii -> bool) (x : string) (c : ascii)
    (y : string) :
  p c = true ->
  split_where p (x ++ String c y)
  = (split_where p x ++ split_where p y)%list.
Proof.
  intros Hc. induction x as [|a x IH]; simpl.
  - rewrite Hc. reflexivity.
  - rewrite IH. destruct (p a); [reflexivity|].
    apply cons_head_app. apply split_where_nonempty.
Qed.

Lemma read_text_app (st : reader) (x y : string) :
  read_text st (x ++ nl ++ y) = read_text (read_text st x) y.
Proof.
  unfold read_text, read_lines, nl.
  change (String "010" "" ++ y) with (String "010" y).
  rewrite split_where_app by reflexivity. apply fold_left_app.
Qed.

Lemma read_line_comment (st : reader) (c : string) :
  strip c = "" \/ startswith "!" (strip c) = true -> read_line st c = st.
Proof.
  intros H. unfold read_line.
  destruct H as [-> | ->]; [reflexivity | rewrite orb_true_r; reflexivity].
Qed.

(** A blank line, or a line whose first character that is not white space
    is [!], can be added after any line of the file, or before the first,
    without changing what the reader returns. *)
Theorem comment_lines_ignored (before comment after : string) :
  line_free comment = true ->
  strip comment = "" \/ startswith "!" (strip comment) = true ->
  read_existing_namelist (before ++ nl ++ comment ++ nl ++ after)
  = read_existing_namelist (before ++ nl ++ after) /\
  read_existing_namelist (comment ++ nl ++ after)
  = read_existing_namelist after.
Proof.
  intros Hl Hc. unfold read_existing_namelist.
  fold (read_text initial_reader (before ++ nl ++ comment ++ nl ++ after)).
  fold (read_text initial_reader (before ++ nl ++ after)).
  fold (read_text initial_reader (comment ++ nl ++ after)).
  fold (read_text initial_reader after).
  assert (forall st, read_text st comment = st) as Hskip.
  { intros st. unfold read_text. rewrite (split_where_none _ _ Hl).
    apply (read_line_comment st comment Hc). }
  rewrite !read_text_app, !Hskip. split; reflexivity.
Qed.

End ReaderMore.

Section MoreExamples.

#[local] Existing Instance FixedPoint.builtins.

Lemma suggested_start_fits_witness :
  exists i j i_end j_end,
    suggest_nest_location 100 31 3 = Ok i /\
    suggest_nest_location 80 31 3 = Ok j /\
    1 <= i /\ 1 <= j /\
    check_fit 100 80 31 31 3 i j = Ok (i_end, j_end, true).
Proof. apply (suggested_start_fits 100 80 31 31 3); lia. Defined.

Lemma repair_idempotent_witness :
  repair 100 100 31 31 3 95 20 = Ok (90, 20) /\
  repair 100 100 31 31 3 90 20 = Ok (90, 20).
Proof.
  split; [reflexivity|].
  apply (repair_idempotent 100 100 31 31 3 95 20). reflexivity.
Defined.

Lemma repair_moves_left_witness :
  repair 100 100 31 31 3 95 20 = Ok (90, 20) /\
  1 <= 90 <= 95 /\ 1 <= 20 <= 20.
Proof.
  split; [reflexivity|].
  apply (repair_moves_left 100 100 31 31 3 95 20); [lia | lia | reflexivity].
Defined.

Lemma suggested_dim_fits_witness :
  exists w c start,
    suggested_dim (SInt 100) = Ok (SInt w) /\
    w mod 2 = 1 /\ 1 <= w <= 100 /\
    ceil_div w 3 = Ok c /\
    suggest_nest_location 100 w 3 = Ok start /\
    1 <= start /\ start + c - 1 <= 100.
Proof. apply (suggested_dim_fits 100 3); lia. Defined.

Definition two_dates : dict :=
  [ ("max_dom", VScalar (SInt 3));
    ("start_date", VList [SStr "2024-01-01_00:00:00"; SStr "2024-01-02_00:00:00"]);
    ("end_date", VList [SStr "2024-01-03_00:00:00"]) ].

Lemma sync_dates_fills_witness :
  exists p' starts ends,
    sync_dates 3 two_dates = (Returned, p') /\
    dict_get "start_date" p' = Some (VList starts) /\
    dict_get "end_date" p' = Some (VList ends) /\
    Z.of_nat (List.length starts) = 3 /\
    Z.of_nat (List.length ends) = 3 /\
    (forall i, Z.of_nat i < 3 ->
       nth_error starts i
       = Some (nth i [SStr "2024-01-01_00:00:00"; SStr "2024-01-02_00:00:00"]
                 (SStr "2024-01-01_00:00:00")) /\
       nth_error ends i
       = Some (nth i [SStr "2024-01-03_00:00:00"]
                 (SStr "2024-01-03_00:00:00"))) /\
    (forall k, k <> "start_date" -> k <> "end_date" ->
               dict_get k p' = dict_get k two_dates).
Proof.
  apply (sync_dates_fills 3 two_dates 3
           (SStr "2024-01-01_00:00:00") (SStr "2024-01-03_00:00:00")
           [SStr "2024-01-02_00:00:00"] []);
    first [reflexivity | lia | simpl; lia].
Defined.

Lemma get_input_sound_witness :
  get_input "Debug level" (Some (SStr "0")) (Some validate_integer)
    ["high"; "3"; "4"]
  = (Answered (SStr "3"), ["4"],
     [Prompt "Debug level [0]: "; Output "Error: Value must be an integer";
      Prompt "Debug level [0]: "]) /\
  exists rejected last,
    ["high"; "3"; "4"] = (rejected ++ last :: ["4"])%list /\
    Forall (fun s => exists f, Some validate_integer = Some f /\
                               fst (f s) = false) rejected /\
    ((Some (SStr "0") = Some (SStr "3") /\ last = "") \/
     (SStr "3" = SStr last /\ lower last <> "q" /\
      (Some (SStr "0") <> None -> last <> "") /\
      forall f, Some validate_integer = Some f -> fst (f last) = true)).
Proof.
  split; [reflexivity|].
  apply (get_input_sound "Debug level" (Some (SStr "0"))
           (Some validate_integer) ["high"; "3"; "4"] (SStr "3") ["4"]
           [Prompt "Debug level [0]: "; Output "Error: Value must be an integer";
            Prompt "Debug level [0]: "]).
  reflexivity.
Defined.

Lemma get_input_retries_witness :
  exists shown,
    get_input "Debug level" (Some (SStr "0")) (Some validate_integer)
      (["high"; "1.5"] ++ "3" :: ["4"])
    = (Answered (SStr "3"), ["4"], shown) /\
    printed shown
    = map (fun s => "Error: " ++ snd (validate_integer s)) ["high"; "1.5"].
Proof.
  apply (get_input_retries "Debug level" (Some (SStr "0")) validate_integer
           ["high"; "1.5"] "3" ["4"]);
    [ repeat constructor; discriminate | discriminate | discriminate
    | reflexivity ].
Defined.

Lemma positive_prompt_witness :
  get_input "Maximum number of domains" (Some (SStr (int_str 0)))
    (Some validate_positive_integer) ["0"; ""; "2"]
  = (Answered (SStr "0"), ["2"],
     [Prompt "Maximum number of domains [0]: ";
      Output "Error: Value must be a positive integer";
      Prompt "Maximum number of domains [0]: "]) /\
  exists rejected last,
    ["0"; ""; "2"] = (rejected ++ last :: ["2"])%list /\
    ((last = "" /\ SStr "0" = SStr (int_str 0) /\
      py_int (int_str 0) = Some 0) \/
     (last <> "" /\ SStr "0" = SStr last /\
      exists k, py_int last = Some k /\ 0 < k)).
Proof.
  split; [reflexivity|].
  apply (positive_prompt "Maximum number of domains" 0 ["0"; ""; "2"]
           (SStr "0") ["2"]
           [Prompt "Maximum number of domains [0]: ";
            Output "Error: Value must be a positive integer";
            Prompt "Maximum number of domains [0]: "]).
  reflexivity.
Defined.

Lemma parent_id_prompt_witness :
  get_input "Domain 3 parent ID" (Some (SStr (int_str 2)))
    (Some (fun x => validate_option x (parent_id_options 2))) ["3"; "1"]
  = (Answered (SStr "1"), [],
     [Prompt "Domain 3 parent ID [2]: ";
      Output "Error: Value must be one of: 1, 2";
      Prompt "Domain 3 parent ID [2]: "]) /\
  exists rejected last,
    ["3"; "1"] = (rejected ++ last :: [])%list /\
    ((last = "" /\ SStr "1" = SStr (int_str 2)) \/
     (last <> "" /\ SStr "1" = SStr last /\
      exists k, last = int_str k /\ py_int last = Some k /\ 1 <= k <= 2)).
Proof.
  split; [reflexivity|].
  apply (parent_id_prompt "Domain 3 parent ID" 2 2 ["3"; "1"] (SStr "1") []
           [Prompt "Domain 3 parent ID [2]: ";
            Output "Error: Value must be one of: 1, 2";
            Prompt "Domain 3 parent ID [2]: "]).
  reflexivity.
Defined.

Lemma fg_name_kept_witness :
  exists d shown,
    fg_name_default [("fg_name", VList [SStr "FILE"; SStr "SST"])] = Ok d /\
    get_input "File name prefix" (Some (SStr d)) None ["" ; "2"]
    = (Answered (SStr d), ["2"], shown) /\
    fg_name_entries d = VList (map SStr ["FILE"; "SST"]).
Proof.
  apply (fg_name_kept "File name prefix"
           [("fg_name", VList [SStr "FILE"; SStr "SST"])] ["FILE"; "SST"] ["2"]);
    [ reflexivity | discriminate | repeat constructor ].
Defined.

Definition one_domain_text : string :=
  "&geogrid" ++ nl ++ " e_we = 100," ++ nl ++ "/" ++ nl.

Lemma read_lists_nonempty_witness :
  dict_get "e_we" (section_of Geogrid (read_existing_namelist one_domain_text))
  = Some (VList [SInt 100]) /\
  (In "e_we" inherent_lists -> exists l, VList [SInt 100] = VList l) /\
  (forall l, VList [SInt 100] = VList l -> l <> []).
Proof.
  split; [reflexivity|].
  apply (read_lists_nonempty one_domain_text Geogrid "e_we" (VList [SInt 100])).
  reflexivity.
Defined.

Lemma read_then_sync_terminates_witness :
  (Z.to_nat 3 <= 3)%nat /\
  fst (adjust_params_for_max_dom 3
         (geogrid_params (read_existing_namelist one_domain_text)) 3)
  <> Diverged.
Proof.
  split; [simpl; lia|].
  apply (read_then_sync_terminates one_domain_text 3 3). simpl; lia.
Defined.

Lemma comment_lines_ignored_witness :
  read_existing_namelist ("&geogrid" ++ nl ++ "  ! grid" ++ nl ++ " e_we = 100,")
  = read_existing_namelist ("&geogrid" ++ nl ++ " e_we = 100,") /\
  read_existing_namelist ("  ! grid" ++ nl ++ " e_we = 100,")
  = read_existing_namelist " e_we = 100,".
Proof.
  apply (comment_lines_ignored "&geogrid" "  ! grid" " e_we = 100,");
    [reflexivity | right; reflexivity].
Defined.

End MoreExamples.

(** * The centred start of the synchroniser *)

Section CentredStart.

Context {B : Builtins}.

Lemma py_max_one (d : Z) : py_max (SInt 1) (SInt d) = Ok (SInt (Z.max 1 d)).
Proof.
  unfold py_max. cbn [py_gt bind].
  destruct (Z.ltb_spec 1 d); do 2 f_equal; lia.
Qed.

Lemma centre_and_size_ints (key dim : string) (q : dict)
    (l lp le lr : list scalar) (pid pw cw r : Z) :
  dict_get key q = Some (VList l) ->
  dict_get dim q = Some (VList le) ->
  dict_get "parent_id" q = Some (VList lp) ->
  dict_get "parent_grid_ratio" q = Some (VList lr) ->
  py_index (VList lp) (SInt (Z.of_nat (List.length l))) = Ok (SInt pid) ->
  py_index (VList le) (SInt (pid - 1)) = Ok (SInt pw) ->
  py_index (VList le) (SInt (Z.of_nat (List.length l) - 1)) = Ok (SInt cw) ->
  py_index (VList lr) (SInt (Z.of_nat (List.length l) - 1)) = Ok (SInt r) ->
  r <> 0 ->
  centre_and_size key dim q = Ok (SInt (pw / 2), SInt (cw / r)).
Proof.
  intros Hl Hle Hlp Hlr Hpid Hpw Hcw Hr Hr0. unfold centre_and_size.
  rewrite (getitem_some _ _ _ Hl), (getitem_some _ _ _ Hlp),
    (getitem_some _ _ _ Hle), (getitem_some _ _ _ Hlr).
  cbn [bind py_len]. rewrite Hpid. cbn [bind py_sub]. rewrite Hpw.
  cbn [bind py_floordiv]. change (2 =? 0) with false. cbn [bind].
  rewrite Hcw, Hr. cbn [bind py_floordiv].
  destruct (Z.eqb_spec r 0); [contradiction | reflexivity].
Qed.

Lemma append_centred_ints (key : string) (q : dict) (l : list scalar)
    (c s : Z) :
  dict_get key q = Some (VList l) ->
  append_centred key (SInt c) (SInt s) q
  = Ok (dict_set key (VList (l ++ [SInt (Z.max 1 (c - s / 2))])) q).
Proof.
  intros Hl. unfold append_centred, append_to.
  rewrite (getitem_some _ _ _ Hl). cbn [bind py_append py_floordiv].
  change (2 =? 0) with false. cbn [bind py_sub]. rewrite py_max_one.
  reflexivity.
Qed.

(** When a start list is non-empty and shorter than its dimension list,
    one pass of the loop appends the centred position
    [max(1, pw // 2 - (cw // r) // 2)], which is at least 1: [pw] is the
    dimension of the parent named by [parent_id] for the new domain, while
    [cw] and [r] are the dimension and the ratio of the domain before the
    new one. *)
Theorem centred_start_step (key dim : string) (q : dict)
    (l lp le lr : list scalar) (pid pw cw r : Z) :
  (key = "i_parent_start" /\ dim = "e_we") \/
  (key = "j_parent_start" /\ dim = "e_sn") ->
  dict_get key q = Some (VList l) -> l <> [] ->
  dict_get dim q = Some (VList le) ->
  (List.length l < List.length le)%nat ->
  dict_get "parent_id" q = Some (VList lp) ->
  dict_get "parent_grid_ratio" q = Some (VList lr) ->
  py_index (VList lp) (SInt (Z.of_nat (List.length l))) = Ok (SInt pid) ->
  py_index (VList le) (SInt (pid - 1)) = Ok (SInt pw) ->
  py_index (VList le) (SInt (Z.of_nat (List.length l) - 1)) = Ok (SInt cw) ->
  py_index (VList lr) (SInt (Z.of_nat (List.length l) - 1)) = Ok (SInt r) ->
  r <> 0 ->
  exists x,
    grow_step key q = Ok (dict_set key (VList (l ++ [SInt x])) q) /\
    x = Z.max 1 (pw / 2 - cw / r / 2) /\ 1 <= x.
Proof.
  intros Hk Hl Hne Hle Hlen Hlp Hlr Hpid Hpw Hcw Hr Hr0.
  exists (Z.max 1 (pw / 2 - cw / r / 2)).
  split; [|split; [reflexivity | lia]].
  pose proof (centre_and_size_ints key dim q l lp le lr pid pw cw r
                Hl Hle Hlp Hlr Hpid Hpw Hcw Hr Hr0) as Hcs.
  pose proof (append_centred_ints key q l (pw / 2) (cw / r) Hl) as Hap.
  assert ((Z.of_nat (List.length l) <? Z.of_nat (List.length le)) = true)
    as Hlt by (apply Z.ltb_lt; lia).
  unfold grow_step, start_guard. rewrite (getitem_some _ _ _ Hl).
  cbn [bind py_len]. rewrite (len_pos l Hne).
  destruct Hk as [(-> & ->)|(-> & ->)];
    cbn [String.eqb Ascii.eqb Bool.eqb andb orb];
    rewrite (getitem_some _ _ _ Hle); cbn [bind py_len];
    rewrite Hlt, Hcs; cbn [bind fst snd]; exact Hap.
Qed.

End CentredStart.

Section CentredStartExample.

#[local] Existing Instance FixedPoint.builtins.

Definition longer_dims : dict :=
  [ ("parent_id", VList [SInt 1; SInt 1]);
    ("parent_grid_ratio", VList [SInt 1; SInt 3]);
    ("i_parent_start", VList [SInt 1]);
    ("e_we", VList [SInt 100; SInt 31]) ].

Lemma centred_start_step_witness :
  exists x,
    grow_step "i_parent_start" longer_dims
    = Ok (dict_set "i_parent_start" (VList ([SInt 1] ++ [SInt x])) longer_dims)
    /\ x = Z.max 1 (100 / 2 - 100 / 1 / 2) /\ 1 <= x.
Proof.
  apply (centred_start_step "i_parent_start" "e_we" longer_dims
           [SInt 1] [SInt 1; SInt 1] [SInt 100; SInt 31] [SInt 1; SInt 3]
           1 100 100 1);
    first [ left; split; reflexivity | reflexivity | discriminate
          | simpl; lia ].
Defined.

End CentredStartExample.
